(** * pi-mesh: a shallow embedding of the coordination core

    The development follows the TypeScript sources module by module:
    - [Js], [JsText]  the few JavaScript string and array primitives the code calls
    - [Types], [Sys]  types.ts, and the state the functions run on: the session
                      object, the module-level variables, the directory tree
    - [Status]        registry.ts: [formatDuration], [computeStatus]
    - [Reservation]   registry.ts: [pathMatchesReservation]
    - [Tracking], [TrackingOps]   tracking.ts: [addModifiedFile], [shortenPath]
    - [Feed], [Json]  feed.ts: [appendEvent], [readEvents], [pruneFeed], [logEvent]
    - [Registry], [RegistryOps]   registry.ts: [generateName], [register],
                      [unregister], [getActiveAgents], [getAllAgents],
                      [updateRegistration], [flushActivityToRegistry],
                      [renameAgent], [getConflicts]
    - [Reservations], [ReservationOps]   reservations.ts
    - [Messaging], [Send]   messaging.ts: [validateRecipient], [sendMessage],
                      [broadcastMessage], [processInbox]
    - [Index]         index.ts: the shutdown handler
    - [Config]        config.ts: [matchesAutoRegisterPath]
    The modules after these hold the concrete situations the examples run on;
    the properties follow, one module of facts for each part of the code.

    Conventions.  A JavaScript string is a sequence of code units; the model
    keeps the code units below 256, so a string is a Rocq [string].  A
    JavaScript number that the code only ever uses as an integer (a
    millisecond count, a process identifier, a counter) is a [Z]; where the
    code tests for [NaN] the number is a [JsNum]. *)

From Stdlib Require Import ZArith Lia Bool Ascii String.
From stdpp Require Import base option list strings pretty gmap sorting.

Local Open Scope Z_scope.

(** ** JavaScript primitives *)

Module Js.

(** A number that may be [NaN], as [Date.prototype.getTime] returns. *)
Inductive JsNum : Type :=
| NaN
| Num (z : Z).

(** [a - b] on numbers: [NaN] is absorbing. *)
Definition sub (a b : JsNum) : JsNum :=
  match a, b with
  | Num x, Num y => Num (x - y)
  | _, _ => NaN
  end.

Definition isNaN (a : JsNum) : bool :=
  match a with NaN => true | Num _ => false end.

(** [a < b] and [a >= b]: every comparison with [NaN] is false. *)
Definition lt (a b : JsNum) : bool :=
  match a, b with
  | Num x, Num y => x <? y
  | _, _ => false
  end.

Definition ge (a b : JsNum) : bool :=
  match a, b with
  | Num x, Num y => y <=? x
  | _, _ => false
  end.

(** [s.startsWith(p)] *)
Definition startsWith (s p : string) : bool := String.prefix p s.

(** [s.endsWith(p)]: some suffix of [s] is [p]. *)
Fixpoint endsWith (s p : string) : bool :=
  if String.eqb s p then true
  else match s with
       | EmptyString => false
       | String _ s' => endsWith s' p
       end.

(** [s.includes(p)] *)
Fixpoint includes (s p : string) : bool :=
  if String.prefix p s then true
  else match s with
       | EmptyString => false
       | String _ s' => includes s' p
       end.

(** Drop the first [n] code units. *)
Fixpoint string_drop (n : nat) (s : string) : string :=
  match n, s with
  | O, _ => s
  | S _, EmptyString => EmptyString
  | S n', String _ s' => string_drop n' s'
  end.

(** The first [n] code units. *)
Fixpoint string_take (n : nat) (s : string) : string :=
  match n, s with
  | O, _ => EmptyString
  | S _, EmptyString => EmptyString
  | S n', String c s' => String c (string_take n' s')
  end.

(** [s.replace(p, r)] with a string pattern: only the first occurrence of
    [p] is replaced. *)
Fixpoint replace (s p r : string) : string :=
  if String.prefix p s then r +:+ string_drop (String.length p) s
  else match s with
       | EmptyString => EmptyString
       | String c s' => String c (replace s' p r)
       end.

(** Every code unit of [s] satisfies [p]. *)
Fixpoint all_chars (p : ascii -> bool) (s : string) : bool :=
  match s with
  | EmptyString => true
  | String c s' => p c && all_chars p s'
  end.

(** Template-literal rendering of an integer. *)
Definition showZ (z : Z) : string := pretty z.

End Js.

(** ** registry.ts: status inference *)

Module Status.
Import Js.

Inductive AgentStatus : Type := active | idle | away | stuck.

Record ComputedStatus : Type := mkComputed {
  status : AgentStatus;
  idleFor : option string
}.

(** [formatDuration(ms)].  [Math.floor(a / b)] on integers with [b > 0] is
    [Z.div]; [%] is the remainder that takes the sign of the dividend,
    [Z.rem]. *)
Definition formatDuration (ms : Z) : string :=
  let seconds := ms / 1000 in
  let minutes := seconds / 60 in
  let hours := minutes / 60 in
  if 0 <? hours then showZ hours +:+ "h " +:+ showZ (Z.rem minutes 60) +:+ "m"
  else if 0 <? minutes then showZ minutes +:+ "m " +:+ showZ (Z.rem seconds 60) +:+ "s"
  else showZ seconds +:+ "s".

Definition ACTIVE_MS : Z := 30000.
Definition IDLE_MS : Z := 5 * 60000.

Section ComputeStatus.

(** [new Date(s).getTime()]: the parsed time in milliseconds, or [NaN]
    for a malformed timestamp. *)
Variable Date_getTime : string -> JsNum.

(** [computeStatus(lastActivityAt, hasReservation, thresholdMs)]; [now]
    is the value [Date.now()] returns.  [idleFor] is only computed on
    the branches where [elapsed] is a number, so the [NaN] arm of the
    match is never used. *)
Definition computeStatus (now : Z) (lastActivityAt : string)
    (hasReservation : bool) (thresholdMs : JsNum) : ComputedStatus :=
  let elapsed := sub (Num now) (Date_getTime lastActivityAt) in
  let fmt := match elapsed with Num e => formatDuration e | NaN => "NaN" end in
  if isNaN elapsed || lt elapsed (Num 0) then mkComputed active None
  else if lt elapsed (Num ACTIVE_MS) then mkComputed active None
  else if lt elapsed (Num IDLE_MS) then mkComputed idle (Some fmt)
  else if negb hasReservation then mkComputed away (Some fmt)
  else if ge elapsed thresholdMs then mkComputed stuck (Some fmt)
  else mkComputed idle (Some fmt).

End ComputeStatus.

End Status.

(** ** registry.ts: reservation matching *)

Module Reservation.
Import Js.

(** [pathMatchesReservation(filePath, pattern)] *)
Definition pathMatchesReservation (filePath pattern : string) : bool :=
  if endsWith pattern "/" then
    startsWith filePath pattern || String.eqb (filePath +:+ "/") pattern
  else String.eqb filePath pattern.

End Reservation.

(** ** types.ts: the data model *)

Module Types.

Record FileReservation : Type := mkReservation {
  pattern : string;
  reason : option string;
  since : string
}.

Record AgentSession : Type := mkSession {
  toolCalls : Z;
  tokens : Z;
  filesModified : list string
}.

Record AgentActivity : Type := mkActivity {
  lastActivityAt : string;
  currentActivity : option string;
  lastToolCall : option string
}.

(** An optional field that is [undefined] is [None]; for [reservations]
    the code stores [undefined] instead of an empty array. *)
Record AgentRegistration : Type := mkRegistration {
  name : string;
  reg_agentType : string;
  pid : Z;
  sessionId : string;
  cwd : string;
  reg_model : string;
  startedAt : string;
  reg_reservations : option (list FileReservation);
  reg_gitBranch : option string;
  reg_isHuman : bool;
  reg_session : AgentSession;
  reg_activity : AgentActivity;
  reg_statusMessage : option string
}.

Record MeshMessage : Type := mkMessage {
  id : string;
  from : string;
  to : string;
  text : string;
  timestamp : string;
  urgent : bool;
  replyTo : option string
}.

Inductive FeedEventType : Type :=
| join | leave | reserve | release | message | commit | test | edit | stuck_event.

Record FeedEvent : Type := mkEvent {
  ts : string;
  agent : string;
  type : FeedEventType;
  target : option string;
  preview : option string
}.

(** Handles of the event loop: a timer as [setTimeout] returns it, a
    watcher as [fs.watch] returns it. *)
Definition TimerId : Type := nat.
Definition WatcherId : Type := nat.

Record MeshState : Type := mkState {
  agentName : string;
  agentType : string;
  registered : bool;
  watcher : option WatcherId;
  watcherRetries : Z;
  watcherRetryTimer : option TimerId;
  watcherDebounceTimer : option TimerId;
  reservations : list FileReservation;
  chatHistory : gmap string (list MeshMessage);
  unreadCounts : gmap string Z;
  broadcastHistory : list MeshMessage;
  model : string;
  gitBranch : option string;
  isHuman : bool;
  session : AgentSession;
  activity : AgentActivity;
  statusMessage : option string;
  customStatus : bool;
  registryFlushTimer : option TimerId;
  sessionStartedAt : string
}.

Definition MAX_WATCHER_RETRIES : Z := 5.
Definition MAX_CHAT_HISTORY : Z := 50.

(** Field assignments [state.f = v]. *)
Definition set_agentName (v : string) (s : MeshState) : MeshState :=
  mkState v (agentType s) (registered s) (watcher s) (watcherRetries s)
    (watcherRetryTimer s) (watcherDebounceTimer s) (reservations s)
    (chatHistory s) (unreadCounts s) (broadcastHistory s) (model s)
    (gitBranch s) (isHuman s) (session s) (activity s) (statusMessage s)
    (customStatus s) (registryFlushTimer s) (sessionStartedAt s).

Definition set_registered (v : bool) (s : MeshState) : MeshState :=
  mkState (agentName s) (agentType s) v (watcher s) (watcherRetries s)
    (watcherRetryTimer s) (watcherDebounceTimer s) (reservations s)
    (chatHistory s) (unreadCounts s) (broadcastHistory s) (model s)
    (gitBranch s) (isHuman s) (session s) (activity s) (statusMessage s)
    (customStatus s) (registryFlushTimer s) (sessionStartedAt s).

Definition set_watcher (v : option WatcherId) (s : MeshState) : MeshState :=
  mkState (agentName s) (agentType s) (registered s) v (watcherRetries s)
    (watcherRetryTimer s) (watcherDebounceTimer s) (reservations s)
    (chatHistory s) (unreadCounts s) (broadcastHistory s) (model s)
    (gitBranch s) (isHuman s) (session s) (activity s) (statusMessage s)
    (customStatus s) (registryFlushTimer s) (sessionStartedAt s).

Definition set_watcherRetryTimer (v : option TimerId) (s : MeshState) : MeshState :=
  mkState (agentName s) (agentType s) (registered s) (watcher s) (watcherRetries s)
    v (watcherDebounceTimer s) (reservations s)
    (chatHistory s) (unreadCounts s) (broadcastHistory s) (model s)
    (gitBranch s) (isHuman s) (session s) (activity s) (statusMessage s)
    (customStatus s) (registryFlushTimer s) (sessionStartedAt s).

Definition set_watcherDebounceTimer (v : option TimerId) (s : MeshState) : MeshState :=
  mkState (agentName s) (agentType s) (registered s) (watcher s) (watcherRetries s)
    (watcherRetryTimer s) v (reservations s)
    (chatHistory s) (unreadCounts s) (broadcastHistory s) (model s)
    (gitBranch s) (isHuman s) (session s) (activity s) (statusMessage s)
    (customStatus s) (registryFlushTimer s) (sessionStartedAt s).

Definition set_reservations (v : list FileReservation) (s : MeshState) : MeshState :=
  mkState (agentName s) (agentType s) (registered s) (watcher s) (watcherRetries s)
    (watcherRetryTimer s) (watcherDebounceTimer s) v
    (chatHistory s) (unreadCounts s) (broadcastHistory s) (model s)
    (gitBranch s) (isHuman s) (session s) (activity s) (statusMessage s)
    (customStatus s) (registryFlushTimer s) (sessionStartedAt s).

Definition set_chatHistory (v : gmap string (list MeshMessage)) (s : MeshState) : MeshState :=
  mkState (agentName s) (agentType s) (registered s) (watcher s) (watcherRetries s)
    (watcherRetryTimer s) (watcherDebounceTimer s) (reservations s)
    v (unreadCounts s) (broadcastHistory s) (model s)
    (gitBranch s) (isHuman s) (session s) (activity s) (statusMessage s)
    (customStatus s) (registryFlushTimer s) (sessionStartedAt s).

Definition set_unreadCounts (v : gmap string Z) (s : MeshState) : MeshState :=
  mkState (agentName s) (agentType s) (registered s) (watcher s) (watcherRetries s)
    (watcherRetryTimer s) (watcherDebounceTimer s) (reservations s)
    (chatHistory s) v (broadcastHistory s) (model s)
    (gitBranch s) (isHuman s) (session s) (activity s) (statusMessage s)
    (customStatus s) (registryFlushTimer s) (sessionStartedAt s).

Definition set_model (v : string) (s : MeshState) : MeshState :=
  mkState (agentName s) (agentType s) (registered s) (watcher s) (watcherRetries s)
    (watcherRetryTimer s) (watcherDebounceTimer s) (reservations s)
    (chatHistory s) (unreadCounts s) (broadcastHistory s) v
    (gitBranch s) (isHuman s) (session s) (activity s) (statusMessage s)
    (customStatus s) (registryFlushTimer s) (sessionStartedAt s).

Definition set_session (v : AgentSession) (s : MeshState) : MeshState :=
  mkState (agentName s) (agentType s) (registered s) (watcher s) (watcherRetries s)
    (watcherRetryTimer s) (watcherDebounceTimer s) (reservations s)
    (chatHistory s) (unreadCounts s) (broadcastHistory s) (model s)
    (gitBranch s) (isHuman s) v (activity s) (statusMessage s)
    (customStatus s) (registryFlushTimer s) (sessionStartedAt s).

Definition set_activity (v : AgentActivity) (s : MeshState) : MeshState :=
  mkState (agentName s) (agentType s) (registered s) (watcher s) (watcherRetries s)
    (watcherRetryTimer s) (watcherDebounceTimer s) (reservations s)
    (chatHistory s) (unreadCounts s) (broadcastHistory s) (model s)
    (gitBranch s) (isHuman s) (session s) v (statusMessage s)
    (customStatus s) (registryFlushTimer s) (sessionStartedAt s).

Definition set_registryFlushTimer (v : option TimerId) (s : MeshState) : MeshState :=
  mkState (agentName s) (agentType s) (registered s) (watcher s) (watcherRetries s)
    (watcherRetryTimer s) (watcherDebounceTimer s) (reservations s)
    (chatHistory s) (unreadCounts s) (broadcastHistory s) (model s)
    (gitBranch s) (isHuman s) (session s) (activity s) (statusMessage s)
    (customStatus s) v (sessionStartedAt s).

Definition set_sessionStartedAt (v : string) (s : MeshState) : MeshState :=
  mkState (agentName s) (agentType s) (registered s) (watcher s) (watcherRetries s)
    (watcherRetryTimer s) (watcherDebounceTimer s) (reservations s)
    (chatHistory s) (unreadCounts s) (broadcastHistory s) (model s)
    (gitBranch s) (isHuman s) (session s) (activity s) (statusMessage s)
    (customStatus s) (registryFlushTimer s) v.

End Types.

(** ** The process and its environment

    One agent process: the session object of index.ts, the module-level
    variables of registry.ts, messaging.ts and tracking.ts, the part of the
    shared directory tree the code reads and writes, and a log of the
    effects the process has performed, in program order. *)

Module Sys.
Import Types.

(** What [JSON.parse(fs.readFileSync(path))] makes of a file that exists:
    a document of the expected interface, or an exception. *)
Inductive JsonFile (A : Type) : Type :=
| Malformed
| Parsed (a : A).
Arguments Malformed {A}.
Arguments Parsed {A} a.

(** The mesh root.  [registry_dir] is [None] when the directory does not
    exist, otherwise it maps file names to contents; [inbox_dir] maps an
    agent name to its inbox directory; [feed_file] is the text of
    feed.jsonl when the file exists. *)
Record Disk : Type := mkDisk {
  registry_dir : option (gmap string (JsonFile AgentRegistration));
  inbox_dir : gmap string (gmap string (JsonFile MeshMessage));
  feed_file : option string
}.

Inductive Effect : Type :=
| FeedAppended (e : FeedEvent)
| RegistryWritten (file : string) (r : AgentRegistration)
| RegistryUnlinked (file : string)
| InboxUnlinked (owner file : string)
| Delivered (m : MeshMessage)
| TimerCleared (t : TimerId)
| WatcherClosed (w : WatcherId).

(** How a delivery callback behaves on a message, as far as
    [processInbox] can tell: it may throw, and it may call [processInbox]
    again before it returns. *)
Record Callback : Type := mkCallback {
  cb_throws : MeshMessage -> bool;
  cb_reenters : MeshMessage -> bool
}.

Record AgentsCache : Type := mkCache {
  agents : list AgentRegistration;
  cache_timestamp : Z
}.

Record Sys : Type := mkSys {
  state : MeshState;
  (* registry.ts *)
  agentsCache : option AgentsCache;
  (* messaging.ts *)
  isProcessingMessages : bool;
  pendingProcessArgs : option Callback;
  (* tracking.ts *)
  pendingEdits : gmap string TimerId;
  recentCommitTimer : option TimerId;
  recentTestTimer : option TimerId;
  recentEditTimer : option TimerId;
  (* outside the process *)
  disk : Disk;
  trace : list Effect
}.

(** What the process reads from its surroundings.  The clock and the set
    of live processes are taken as fixed while one handler runs. *)
Record Env : Type := mkEnv {
  process_pid : Z;
  process_cwd : string;
  ctx_sessionId : string;
  ctx_model : option string;
  PI_AGENT_NAME : option string;
  isProcessAlive : Z -> bool;
  Date_now : Z;
  Date_toISOString : string
}.

(** A computation of the process. *)
Definition M (A : Type) : Type := Sys -> A * Sys.

Definition ret {A} (a : A) : M A := fun s => (a, s).
Definition bind {A B} (m : M A) (k : A -> M B) : M B :=
  fun s => let (a, s') := m s in k a s'.
Definition gets {A} (f : Sys -> A) : M A := fun s => (f s, s).
Definition modify (f : Sys -> Sys) : M unit := fun s => (tt, f s).

Declare Scope sys_scope.
Delimit Scope sys_scope with sys.
Notation "x <- m ;; k" := (bind m (fun x => k))
  (at level 100, m at next level, right associativity) : sys_scope.
Notation "m ;;; k" := (bind m (fun _ => k))
  (at level 100, right associativity) : sys_scope.

Fixpoint forEach {A} (l : list A) (body : A -> M unit) : M unit :=
  match l with
  | [] => ret tt
  | x :: rest => bind (body x) (fun _ => forEach rest body)
  end.

Definition with_state (f : MeshState -> MeshState) (s : Sys) : Sys :=
  mkSys (f (state s)) (agentsCache s) (isProcessingMessages s)
    (pendingProcessArgs s) (pendingEdits s) (recentCommitTimer s)
    (recentTestTimer s) (recentEditTimer s) (disk s) (trace s).

Definition with_cache (c : option AgentsCache) (s : Sys) : Sys :=
  mkSys (state s) c (isProcessingMessages s)
    (pendingProcessArgs s) (pendingEdits s) (recentCommitTimer s)
    (recentTestTimer s) (recentEditTimer s) (disk s) (trace s).

Definition with_processing (b : bool) (s : Sys) : Sys :=
  mkSys (state s) (agentsCache s) b
    (pendingProcessArgs s) (pendingEdits s) (recentCommitTimer s)
    (recentTestTimer s) (recentEditTimer s) (disk s) (trace s).

Definition with_pending (p : option Callback) (s : Sys) : Sys :=
  mkSys (state s) (agentsCache s) (isProcessingMessages s)
    p (pendingEdits s) (recentCommitTimer s)
    (recentTestTimer s) (recentEditTimer s) (disk s) (trace s).

Definition with_tracking (e : gmap string TimerId) (c t d : option TimerId)
    (s : Sys) : Sys :=
  mkSys (state s) (agentsCache s) (isProcessingMessages s)
    (pendingProcessArgs s) e c t d (disk s) (trace s).

Definition with_disk (f : Disk -> Disk) (s : Sys) : Sys :=
  mkSys (state s) (agentsCache s) (isProcessingMessages s)
    (pendingProcessArgs s) (pendingEdits s) (recentCommitTimer s)
    (recentTestTimer s) (recentEditTimer s) (f (disk s)) (trace s).

(** Append effects to the log. *)
Definition emits (l : list Effect) (s : Sys) : Sys :=
  mkSys (state s) (agentsCache s) (isProcessingMessages s)
    (pendingProcessArgs s) (pendingEdits s) (recentCommitTimer s)
    (recentTestTimer s) (recentEditTimer s) (disk s) (trace s ++ l).

Definition emit (e : Effect) (s : Sys) : Sys := emits [e] s.

Definition with_registry
    (f : gmap string (JsonFile AgentRegistration)
         -> gmap string (JsonFile AgentRegistration)) (d : Disk) : Disk :=
  mkDisk (f <$> registry_dir d) (inbox_dir d) (feed_file d).

Definition with_inbox
    (f : gmap string (gmap string (JsonFile MeshMessage))
         -> gmap string (gmap string (JsonFile MeshMessage))) (d : Disk) : Disk :=
  mkDisk (registry_dir d) (f (inbox_dir d)) (feed_file d).

Definition with_feed (v : option string) (d : Disk) : Disk :=
  mkDisk (registry_dir d) (inbox_dir d) v.

(** [clearTimeout(t)] on a handle field that may be [null]. *)
Definition clearTimeout (t : option TimerId) : M unit :=
  match t with
  | Some i => modify (emit (TimerCleared i))
  | None => ret tt
  end.

End Sys.

(** ** tracking.ts: the modified-files ring and the timers *)

Module Tracking.
Import Types Sys.
Local Open Scope sys_scope.

(** [files.indexOf(x)]: the first index holding [x], or [-1]. *)
Fixpoint indexOf (files : list string) (x : string) : Z :=
  match files with
  | [] => -1
  | y :: rest =>
      if String.eqb y x then 0
      else let i := indexOf rest x in if i =? -1 then -1 else i + 1
  end.

(** The body of [addModifiedFile] on the array it mutates:
    [splice(idx, 1)] when found, [push], then [shift] above 20 entries. *)
Definition addModifiedFile_files (filePath : string) (files : list string)
    : list string :=
  let idx := indexOf files filePath in
  let files1 := if negb (idx =? -1) then delete (Z.to_nat idx) files else files in
  let files2 := files1 ++ [filePath] in
  if 20 <? Z.of_nat (length files2) then tail files2 else files2.

(** [addModifiedFile(filePath, state)] *)
Definition addModifiedFile (filePath : string) (state : MeshState) : MeshState :=
  let s := session state in
  set_session
    (mkSession (toolCalls s) (tokens s)
       (addModifiedFile_files filePath (filesModified s)))
    state.

(** A run of [addModifiedFile] calls, one per path, in order. *)
Definition recordAll (paths : list string) (state : MeshState) : MeshState :=
  foldl (fun st p => addModifiedFile p st) state paths.

(** [cleanup()]: every pending edit timer, then the three window
    timers.  The map is walked in the order [map_to_list] lists it. *)
Definition cleanup : M unit :=
  edits <- gets pendingEdits ;;
  forEach (map_to_list edits).*2 (fun t => clearTimeout (Some t)) ;;;
  c <- gets recentCommitTimer ;;
  clearTimeout c ;;;
  t <- gets recentTestTimer ;;
  clearTimeout t ;;;
  e <- gets recentEditTimer ;;
  clearTimeout e ;;;
  modify (with_tracking ∅ None None None).

End Tracking.


(** ** feed.ts: the activity feed *)

Module Feed.
Import Types Sys.
Local Open Scope sys_scope.

Definition char_quote : ascii := Ascii.ascii_of_nat 34.
Definition char_backslash : ascii := Ascii.ascii_of_nat 92.
Definition char_newline : ascii := Ascii.ascii_of_nat 10.
Definition newline : string := String char_newline EmptyString.

Definition hex_digit (n : N) : ascii :=
  match String.get (N.to_nat n) "0123456789abcdef" with
  | Some c => c
  | None => "0"%char
  end.

(** [JSON.stringify] on one code unit of a string (QuoteJSONString): the
    two-character escapes, [\u00xx] for the other control characters, the
    code unit itself otherwise. *)
Definition quote_char (c : ascii) : string :=
  let n := Ascii.N_of_ascii c in
  let esc (x : string) := String char_backslash x in
  if (n =? 8)%N then esc "b"
  else if (n =? 9)%N then esc "t"
  else if (n =? 10)%N then esc "n"
  else if (n =? 12)%N then esc "f"
  else if (n =? 13)%N then esc "r"
  else if (n =? 34)%N then esc (String char_quote EmptyString)
  else if (n =? 92)%N then esc (String char_backslash EmptyString)
  else if (n <? 32)%N then
    esc ("u00" +:+ String (hex_digit (n / 16)) (String (hex_digit (n mod 16)) EmptyString))
  else String c EmptyString.

Fixpoint quote_chars (s : string) : string :=
  match s with
  | EmptyString => EmptyString
  | String c s' => quote_char c +:+ quote_chars s'
  end.

Definition JSON_stringify_string (s : string) : string :=
  String char_quote (quote_chars s +:+ String char_quote EmptyString).

Definition type_name (t : FeedEventType) : string :=
  match t with
  | join => "join" | leave => "leave" | reserve => "reserve"
  | release => "release" | message => "message" | commit => "commit"
  | test => "test" | edit => "edit" | stuck_event => "stuck"
  end.

Definition member (key value : string) : string :=
  JSON_stringify_string key +:+ ":" +:+ JSON_stringify_string value.

Definition optional_member (key : string) (value : option string) : string :=
  match value with
  | Some v => "," +:+ member key v
  | None => EmptyString
  end.

(** [JSON.stringify(event)] without indentation: the keys in the order
    [logEvent] creates them, a key whose value is [undefined] left out. *)
Definition JSON_stringify (e : FeedEvent) : string :=
  "{" +:+ member "ts" (ts e)
      +:+ "," +:+ member "agent" (agent e)
      +:+ "," +:+ member "type" (type_name (type e))
      +:+ optional_member "target" (target e)
      +:+ optional_member "preview" (preview e)
      +:+ "}".

(** The feed file after [fs.appendFileSync(p, JSON.stringify(event) + "\n")];
    the file is created when it is missing (and so is the base
    directory). *)
Definition append_line (event : FeedEvent) (d : Disk) : Disk :=
  with_feed
    (Some (default EmptyString (feed_file d)
           +:+ JSON_stringify event +:+ newline)) d.

(** The feed file after the lines of [events] are appended, in order. *)
Definition append_lines (events : list FeedEvent) (d : Disk) : Disk :=
  foldl (fun d e => append_line e d) d events.

(** [appendEvent(dirs, event)] *)
Definition appendEvent (event : FeedEvent) : M unit :=
  modify (fun s => emit (FeedAppended event) (with_disk (append_line event) s)).

(** [logEvent(dirs, agent, type, target, preview)] *)
Definition logEvent (env : Env) (agent : string) (type : FeedEventType)
    (target preview : option string) : M unit :=
  appendEvent (mkEvent (Date_toISOString env) agent type target preview).

(** White space and line terminators among the code units below 256. *)
Definition is_space (c : ascii) : bool :=
  let n := Ascii.N_of_ascii c in
  ((9 <=? n)%N && (n <=? 13)%N) || (n =? 32)%N || (n =? 160)%N.

Fixpoint trimStart (s : string) : string :=
  match s with
  | EmptyString => EmptyString
  | String c s' => if is_space c then trimStart s' else s
  end.

Fixpoint trimEnd (s : string) : string :=
  match s with
  | EmptyString => EmptyString
  | String c s' =>
      match trimEnd s' with
      | EmptyString => if is_space c then EmptyString else String c EmptyString
      | r => String c r
      end
  end.

(** [s.trim()] *)
Definition trim (s : string) : string := trimEnd (trimStart s).

(** [s.split("\n")] *)
Fixpoint split_lines (s : string) : list string :=
  match s with
  | EmptyString => [EmptyString]
  | String c s' =>
      if Ascii.eqb c char_newline then EmptyString :: split_lines s'
      else match split_lines s' with
           | line :: rest => String c line :: rest
           | [] => [String c EmptyString]
           end
  end.

(** [lines.join("\n")] *)
Fixpoint join_lines (lines : list string) : string :=
  match lines with
  | [] => EmptyString
  | [l] => l
  | l :: rest => l +:+ newline +:+ join_lines rest
  end.

(** [xs.slice(start)] for an integer [start]: a negative [start] counts
    from the end, and both ends are clamped. *)
Definition slice_from {A} (start : Z) (xs : list A) : list A :=
  let len := Z.of_nat (length xs) in
  let k := if start <? 0 then Z.max (len + start) 0 else Z.min start len in
  drop (Z.to_nat k) xs.

Section Read.

(** [JSON.parse] on one line: the value, or [None] when it throws. *)
Variable JsValue : Type.
Variable JSON_parse : string -> option JsValue.

(** [readEvents(dirs, limit)] *)
Definition readEvents (limit : Z) (d : Disk) : list JsValue :=
  match feed_file d with
  | None => []
  | Some raw =>
      let content := trim raw in
      if String.eqb content EmptyString then []
      else
        let lines := split_lines content in
        let events := omap JSON_parse lines in
        slice_from (- limit) events
  end.

End Read.

(** A text without a line break. *)
Definition single_line (s : string) : bool :=
  Js.all_chars (fun c => negb (Ascii.eqb c char_newline)) s.

(** The feed file holds complete lines only: it is missing or empty, or
    its text ends with a line break.  Every [appendEvent] and every
    [pruneFeed] leaves it so. *)
Definition complete_lines (d : Disk) : bool :=
  match feed_file d with
  | None => true
  | Some raw => String.eqb raw EmptyString || Js.endsWith raw newline
  end.

(** The same of a text, as a proposition. *)
Definition terminated (s : string) : Prop :=
  s = EmptyString \/ exists s', s = s' +:+ newline.

(** [pruneFeed(dirs, maxEvents)] *)
Definition pruneFeed (maxEvents : Z) : M unit :=
  modify (with_disk (fun d =>
    match feed_file d with
    | None => d
    | Some raw =>
        let content := trim raw in
        if String.eqb content EmptyString then d
        else
          let lines := split_lines content in
          if Z.of_nat (length lines) <=? maxEvents then d
          else with_feed
                 (Some (join_lines (slice_from (- maxEvents) lines) +:+ newline)) d
    end)).

End Feed.

(** ** registry.ts: the agent registry *)

Module Registry.
Import Js Types Sys.
Local Open Scope sys_scope.

Definition invalidateAgentsCache : M unit := modify (with_cache None).

(** The file of a record inside the registry directory: [`${name}.json`]. *)
Definition recordFile (name : string) : string := name +:+ ".json".

(** [fs.existsSync(dirs.registry)] *)
Definition registryExists (d : Disk) : bool :=
  match registry_dir d with Some _ => true | None => false end.

(** [fs.existsSync(join(dirs.registry, file))] *)
Definition recordExists (file : string) (d : Disk) : bool :=
  match registry_dir d with
  | Some m => match m !! file with Some _ => true | None => false end
  | None => false
  end.

(** [JSON.parse(fs.readFileSync(join(dirs.registry, file), "utf-8"))];
    [None] when the read or the parse throws. *)
Definition readRecord (file : string) (d : Disk) : option AgentRegistration :=
  match registry_dir d with
  | Some m => match m !! file with Some (Parsed r) => Some r | _ => None end
  | None => None
  end.

(** [fs.readdirSync(dirs.registry)] of an existing directory. *)
Definition readdir (m : gmap string (JsonFile AgentRegistration)) : list string :=
  (map_to_list m).*1.

(** [fs.writeFileSync(join(dirs.registry, file), JSON.stringify(r, null, 2))];
    [false] when it throws, as it does when the directory is missing. *)
Definition writeRecord (file : string) (r : AgentRegistration) : M bool :=
  fun s =>
    match registry_dir (disk s) with
    | Some _ =>
        (true, emit (RegistryWritten file r)
                 (with_disk (with_registry (insert file (Parsed r))) s))
    | None => (false, s)
    end.

(** [fs.unlinkSync(join(dirs.registry, file))]; [false] when it throws. *)
Definition unlinkRecord (file : string) : M bool :=
  fun s =>
    if recordExists file (disk s) then
      (true, emit (RegistryUnlinked file)
               (with_disk (with_registry (delete file)) s))
    else (false, s).

(** [ensureDirSync(join(dirs.inbox, name))] *)
Definition ensureInbox (name : string) : M unit :=
  modify (with_disk (with_inbox (fun m =>
    match m !! name with Some _ => m | None => <[name := ∅]> m end))).

(** [fs.rmdirSync(join(dirs.inbox, name))] inside [try]: only an empty
    directory is removed. *)
Definition rmdirInbox (name : string) : M unit :=
  modify (with_disk (with_inbox (fun m =>
    match m !! name with
    | Some files => if decide (files = ∅) then delete name m else m
    | None => m
    end))).

(** *** Names *)

Definition is_name_start (c : ascii) : bool :=
  let n := Ascii.N_of_ascii c in
  ((97 <=? n)%N && (n <=? 122)%N) || ((65 <=? n)%N && (n <=? 90)%N)
  || ((48 <=? n)%N && (n <=? 57)%N) || (n =? 95)%N.

Definition is_name_char (c : ascii) : bool :=
  is_name_start c || (Ascii.N_of_ascii c =? 45)%N.

(** [isValidAgentName]: non-empty, at most 50 code units, and matching
    [/^[a-zA-Z0-9_][a-zA-Z0-9_-]*$/]. *)
Definition isValidAgentName (name : string) : bool :=
  match name with
  | EmptyString => false
  | String c rest =>
      if (50 <? String.length name)%nat then false
      else is_name_start c && all_chars is_name_char rest
  end.

(** [`${agentType}-${i}`] *)
Definition numberedName (agentType : string) (i : Z) : string :=
  agentType +:+ "-" +:+ showZ i.

(** The set [existing] that [generateName] builds from the directory
    listing. *)
Definition existingNames (files : list string) : gset string :=
  list_to_set
    ((fun file => replace file ".json" EmptyString)
       <$> filter (fun file => endsWith file ".json" = true) files).

(** The loop [for (let i = 1; i <= 99; i++)] of [generateName], with
    [count] iterations left. *)
Fixpoint generateName_loop (env : Env) (agentType : string)
    (existing : gset string) (d : Disk) (count : nat) (i : Z) : string :=
  match count with
  | O => numberedName agentType (process_pid env)
  | S count' =>
      let name := numberedName agentType i in
      if negb (bool_decide (name ∈ existing)) then name
      else match readRecord (recordFile name) d with
           | Some reg =>
               if negb (isProcessAlive env (pid reg)) then name
               else generateName_loop env agentType existing d count' (i + 1)
           | None => name
           end
  end.

(** [generateName(agentType, dirs)]: an explicit name that is set and
    not empty wins; otherwise the names are tried in sequence. *)
Definition generateName (env : Env) (agentType : string) (d : Disk) : string :=
  let sequential :=
    match registry_dir d with
    | None => numberedName agentType 1
    | Some m =>
        generateName_loop env agentType (existingNames (readdir m)) d 99 1
    end in
  match PI_AGENT_NAME env with
  | Some explicitName =>
      if String.eqb explicitName EmptyString then sequential else explicitName
  | None => sequential
  end.

(** Every name [agentType-1] to [agentType-99] has a record in the
    directory [m] that parses and whose process is alive. *)
Definition all_taken (env : Env) (agentType : string)
    (m : gmap string (JsonFile AgentRegistration)) : Prop :=
  forall i, 1 <= i <= 99 ->
    exists r, m !! recordFile (numberedName agentType i) = Some (Parsed r)
              /\ isProcessAlive env (pid r) = true.

(** The same for one number, as a test. *)
Definition taken_at (env : Env) (agentType : string)
    (m : gmap string (JsonFile AgentRegistration)) (i : Z) : bool :=
  match m !! recordFile (numberedName agentType i) with
  | Some (Parsed r) => isProcessAlive env (pid r)
  | _ => false
  end.

(** A string without a dot. *)
Definition no_dot (s : string) : bool :=
  all_chars (fun c => negb (Ascii.eqb c ".")) s.

(** The [.json] files of the directory [m] are records under valid
    names, [name.json] with [isValidAgentName(name)]: the only files
    [register] and [renameAgent] write there. *)
Definition records_named (m : gmap string (JsonFile AgentRegistration)) : Prop :=
  forall file,
    is_Some (m !! file) -> endsWith file ".json" = true ->
    exists name, isValidAgentName name = true /\ file = recordFile name.

(** *** Query *)

Definition notSelf (self : string) (a : AgentRegistration) : bool :=
  negb (String.eqb (name a) self).

(** One iteration of the loop over the directory listing in
    [getActiveAgents]; [acc] is [allAgents]. *)
Definition getActiveAgents_step (env : Env) (file : string)
    (acc : list AgentRegistration) : M (list AgentRegistration) :=
  if negb (endsWith file ".json") then ret acc
  else
    d <- gets disk ;;
    match readRecord file d with
    | Some reg =>
        if negb (isProcessAlive env (pid reg)) then
          (_ <- unlinkRecord file ;; ret acc)
        else ret (acc ++ [reg])
    | None => ret acc
    end.

Fixpoint getActiveAgents_loop (env : Env) (files : list string)
    (acc : list AgentRegistration) : M (list AgentRegistration) :=
  match files with
  | [] => ret acc
  | file :: rest =>
      acc' <- getActiveAgents_step env file acc ;;
      getActiveAgents_loop env rest acc'
  end.

(** [getActiveAgents(state, dirs, cacheTtl)] *)
Definition getActiveAgents (env : Env) (cacheTtl : Z)
    : M (list AgentRegistration) :=
  let now := Date_now env in
  st <- gets state ;;
  cache <- gets agentsCache ;;
  let fresh :=
    match cache with
    | Some c => now - cache_timestamp c <? cacheTtl
    | None => false
    end in
  match cache, fresh with
  | Some c, true => ret (filter (fun a => notSelf (agentName st) a = true) (agents c))
  | _, _ =>
      d <- gets disk ;;
      match registry_dir d with
      | None =>
          modify (with_cache (Some (mkCache [] now))) ;;; ret []
      | Some m =>
          allAgents <- getActiveAgents_loop env (readdir m) [] ;;
          modify (with_cache (Some (mkCache allAgents now))) ;;;
          ret (filter (fun a => notSelf (agentName st) a = true) allAgents)
      end
  end.

(** The two kinds of record the scan tells apart, for the file [file]
    with content [c]: a record of a dead process, and a record of a live
    one. *)
Definition dead_record (env : Env) (file : string)
    (c : option (JsonFile AgentRegistration)) : bool :=
  endsWith file ".json" &&
  match c with
  | Some (Parsed r) => negb (isProcessAlive env (pid r))
  | _ => false
  end.

Definition live_record (env : Env)
    (m : gmap string (JsonFile AgentRegistration)) (file : string)
    : option AgentRegistration :=
  if endsWith file ".json" then
    match m !! file with
    | Some (Parsed r) => if isProcessAlive env (pid r) then Some r else None
    | _ => None
    end
  else None.

(** The directory [m] after the scan has looked at [file]. *)
Definition swept (env : Env) (file : string)
    (m : gmap string (JsonFile AgentRegistration))
    : gmap string (JsonFile AgentRegistration) :=
  if dead_record env file (m !! file) then delete file m else m.

(** What a scan leaves alone. *)
Definition same_session (s s' : Sys) : Prop :=
  state s' = state s /\ inbox_dir (disk s') = inbox_dir (disk s)
  /\ feed_file (disk s') = feed_file (disk s).

(** The cache does not answer: it is empty, or at least [cacheTtl] old. *)
Definition cache_miss (env : Env) (cacheTtl : Z) (s : Sys) : Prop :=
  match agentsCache s with
  | None => True
  | Some c => cacheTtl <= Date_now env - cache_timestamp c
  end.

(** *** Update *)

Definition reservationsField (rs : list FileReservation)
    : option (list FileReservation) :=
  match rs with [] => None | _ => Some rs end.

(** The record [updateRegistration] writes over the record [reg] it has
    read: model, reservations, session, activity and status message are
    taken from the session object. *)
Definition refreshed (env : Env) (st : MeshState) (reg : AgentRegistration)
    : AgentRegistration :=
  mkRegistration (name reg) (reg_agentType reg) (pid reg) (sessionId reg)
    (cwd reg) (default (reg_model reg) (ctx_model env)) (startedAt reg)
    (reservationsField (reservations st)) (reg_gitBranch reg) (reg_isHuman reg)
    (session st) (activity st) (statusMessage st).

(** [updateRegistration(state, dirs, ctx)] *)
Definition updateRegistration (env : Env) : M unit :=
  st <- gets state ;;
  if negb (registered st) then ret tt
  else
    let regPath := recordFile (agentName st) in
    d <- gets disk ;;
    if negb (recordExists regPath d) then ret tt
    else match readRecord regPath d with
         | None => ret tt
         | Some reg =>
             modify (with_state
                       (set_model (default (reg_model reg) (ctx_model env)))) ;;;
             _ <- writeRecord regPath (refreshed env st reg) ;;
             ret tt
         end.

(** [unregister(state, dirs)] *)
Definition unregister : M unit :=
  st <- gets state ;;
  if negb (registered st) then ret tt
  else
    _ <- unlinkRecord (recordFile (agentName st)) ;;
    modify (with_state (set_registered false)) ;;;
    invalidateAgentsCache.

(** *** Rename *)

Record RenameResult : Type := mkRename {
  success : bool;
  oldName : option string;
  newName : option string;
  error : option string
}.

Definition failure (e : string) : RenameResult := mkRename false None None (Some e).

(** What can go wrong around the write of the new record, for reasons
    outside the process: [writeFileSync] may throw, and between the write
    and the verifying read another process may replace the file
    ([Some (Some f)]) or remove it ([Some None]). *)
Record Faults : Type := mkFaults {
  write_throws : bool;
  racer : option (option (JsonFile AgentRegistration))
}.

Definition interfere (file : string)
    (r : option (option (JsonFile AgentRegistration))) : M unit :=
  match r with
  | None => ret tt
  | Some None => modify (with_disk (with_registry (delete file)))
  | Some (Some f) => modify (with_disk (with_registry (insert file f)))
  end.

(** The caller's identity is as it was: the session object, the cache,
    the record under the old name and the inboxes. *)
Definition identity_kept (s s' : Sys) : Prop :=
  state s' = state s
  /\ agentsCache s' = agentsCache s
  /\ readRecord (recordFile (agentName (state s))) (disk s')
     = readRecord (recordFile (agentName (state s))) (disk s)
  /\ inbox_dir (disk s') = inbox_dir (disk s).

(** [renameAgent(state, dirs, ctx, newName)] *)
Definition renameAgent (env : Env) (faults : Faults) (new : string)
    : M RenameResult :=
  st <- gets state ;;
  if negb (registered st) then ret (failure "not_registered")
  else if negb (isValidAgentName new) then ret (failure "invalid_name")
  else if String.eqb new (agentName st) then ret (failure "same_name")
  else
    let newRegPath := recordFile new in
    d <- gets disk ;;
    let taken :=
      recordExists newRegPath d &&
      match readRecord newRegPath d with
      | Some existing =>
          isProcessAlive env (pid existing)
          && negb (pid existing =? process_pid env)
      | None => false
      end in
    if taken then ret (failure "name_taken")
    else
      let old := agentName st in
      let oldRegPath := recordFile (agentName st) in
      let now := Date_toISOString env in
      let registration :=
        mkRegistration new (agentType st) (process_pid env)
          (ctx_sessionId env) (process_cwd env)
          (default "unknown" (ctx_model env)) now
          (reservationsField (reservations st)) (gitBranch st) (isHuman st)
          (session st) (mkActivity now None None) (statusMessage st) in
      written <- (if write_throws faults then ret false
                  else writeRecord newRegPath registration) ;;
      if negb written then ret (failure "write_failed")
      else
        interfere newRegPath (racer faults) ;;;
        d' <- gets disk ;;
        match readRecord newRegPath d' with
        | None => ret (failure "verify_failed")
        | Some w =>
            if negb (pid w =? process_pid env) then ret (failure "race_lost")
            else
              _ <- unlinkRecord oldRegPath ;;
              ensureInbox new ;;;
              rmdirInbox old ;;;
              modify (with_state (fun s =>
                set_activity (mkActivity now (currentActivity (activity s))
                                (lastToolCall (activity s)))
                  (set_sessionStartedAt now (set_agentName new s)))) ;;;
              invalidateAgentsCache ;;;
              ret (mkRename true (Some old) (Some new) None)
        end.

End Registry.

(** ** reservations.ts *)

Module Reservations.
Import Types Sys.
Local Open Scope sys_scope.

(** [removeAllReservations(state, dirs, ctx)] *)
Definition removeAllReservations (env : Env) : M (list string) :=
  st <- gets state ;;
  let released := pattern <$> reservations st in
  modify (with_state (set_reservations [])) ;;;
  Registry.updateRegistration env ;;;
  forEach released (fun p =>
    Feed.logEvent env (agentName st) release (Some p) None) ;;;
  ret released.

End Reservations.

(** ** messaging.ts: the inbox *)

Module Messaging.
Import Js Types Sys.

(** [processInbox] calls itself, directly after a scan and through the
    delivery callback; a computation that may not return is a partial
    function of the state, cut off by a recursion budget. *)
Definition P (A : Type) : Type := Sys -> option (A * Sys).

Definition lift {A} (m : M A) : P A := fun s => Some (m s).
Definition retP {A} (a : A) : P A := fun s => Some (a, s).
Definition bindP {A B} (m : P A) (k : A -> P B) : P B :=
  fun s => match m s with
           | Some (a, s') => k a s'
           | None => None
           end.

Declare Scope partial_scope.
Delimit Scope partial_scope with partial.
Notation "x <- m ;; k" := (bindP m (fun x => k))
  (at level 100, m at next level, right associativity) : partial_scope.
Notation "m ;;; k" := (bindP m (fun _ => k))
  (at level 100, right associativity) : partial_scope.
Local Open Scope partial_scope.

Fixpoint forEachP {A} (l : list A) (body : A -> P unit) : P unit :=
  match l with
  | [] => retP tt
  | x :: rest => body x ;;; forEachP rest body
  end.

(** [JSON.parse(fs.readFileSync(msgPath, "utf-8"))]; [None] when the
    read or the parse throws. *)
Definition readMessage (owner file : string) (d : Disk) : option MeshMessage :=
  match inbox_dir d !! owner with
  | Some files => match files !! file with Some (Parsed m) => Some m | _ => None end
  | None => None
  end.

(** [fs.unlinkSync(msgPath)]; [false] when it throws. *)
Definition unlinkMessage (owner file : string) : M bool :=
  fun s =>
    match inbox_dir (disk s) !! owner with
    | Some files =>
        match files !! file with
        | Some _ =>
            (true, emit (InboxUnlinked owner file)
                     (with_disk (with_inbox (<[owner := delete file files]>)) s))
        | None => (false, s)
        end
    | None => (false, s)
    end.

(** [history.push(msg); if (history.length > 50) history.shift()] *)
Definition pushHistory (history : list MeshMessage) (msg : MeshMessage)
    : list MeshMessage :=
  let h := history ++ [msg] in
  if 50 <? Z.of_nat (length h) then tail h else h.

(** The bookkeeping for one parsed message: chat history and unread
    counter of its sender. *)
Definition recordMessage (msg : MeshMessage) (st : MeshState) : MeshState :=
  let history := default [] (chatHistory st !! from msg) in
  let st1 :=
    set_chatHistory (<[from msg := pushHistory history msg]> (chatHistory st)) st in
  let current := default 0 (unreadCounts st1 !! from msg) in
  set_unreadCounts (<[from msg := current + 1]> (unreadCounts st1)) st1.

(** [deliverFn(msg)]: the call is logged; the callback may call
    [processInbox] ([reenter]) before it returns; the result is [false]
    when the callback throws. *)
Definition deliver (reenter : P unit) (cb : Callback) (msg : MeshMessage) : P bool :=
  lift (modify (emit (Delivered msg))) ;;;
  (if cb_reenters cb msg then reenter else retP tt) ;;;
  retP (negb (cb_throws cb msg)).

(** The body of the loop over the sorted file names: the [try] block,
    whose result says whether it threw, and the [catch] block. *)
Definition processFile (reenter : P unit) (cb : Callback) (owner file : string)
    : P unit :=
  d <- lift (gets disk) ;;
  thrown <-
    match readMessage owner file d with
    | None => retP true
    | Some msg =>
        lift (modify (with_state (recordMessage msg))) ;;;
        returned <- deliver reenter cb msg ;;
        if negb returned then retP true
        else (unlinked <- lift (unlinkMessage owner file) ;; retP (negb unlinked))
    end ;;
  if thrown then (_ <- lift (unlinkMessage owner file) ;; retP tt)
  else retP tt.

(** [fs.readdirSync(inbox).filter((f) => f.endsWith(".json")).sort()] *)
Definition pendingFiles (files : gmap string (JsonFile MeshMessage)) : list string :=
  merge_sort String.le
    (filter (fun f => endsWith f ".json" = true) (map_to_list files).*1).

(** [processInbox(state, dirs, deliverFn)] with [fuel] nested calls
    allowed; [None] when the budget does not suffice. *)
Fixpoint processInbox (fuel : nat) (cb : Callback) : P unit :=
  match fuel with
  | O => fun _ => None
  | S fuel' =>
      st <- lift (gets state) ;;
      if negb (registered st) then retP tt
      else
        busy <- lift (gets isProcessingMessages) ;;
        if busy then lift (modify (with_pending (Some cb)))
        else
          lift (modify (with_processing true)) ;;;
          d <- lift (gets disk) ;;
          match inbox_dir d !! agentName st with
          | None => retP tt
          | Some files =>
              forEachP (pendingFiles files)
                (processFile (processInbox fuel' cb) cb (agentName st))
          end ;;;
          lift (modify (with_processing false)) ;;;
          pending <- lift (gets pendingProcessArgs) ;;
          match pending with
          | Some args =>
              lift (modify (with_pending None)) ;;;
              processInbox fuel' args
          | None => retP tt
          end
  end.

(** [stopWatcher(state)] *)
Definition stopWatcher : M unit :=
  Sys.bind (gets state) (fun st =>
  Sys.bind (clearTimeout (watcherDebounceTimer st)) (fun _ =>
  Sys.bind (modify (with_state (set_watcherDebounceTimer None))) (fun _ =>
  Sys.bind (clearTimeout (watcherRetryTimer st)) (fun _ =>
  Sys.bind (modify (with_state (set_watcherRetryTimer None))) (fun _ =>
  Sys.bind (match watcher st with
            | Some w => modify (emit (WatcherClosed w))
            | None => ret tt
            end) (fun _ =>
  modify (with_state (set_watcher None)))))))).

End Messaging.

(** ** index.ts: the shutdown handler *)

Module Index.
Import Types Sys.
Local Open Scope sys_scope.

(** [pi.on("session_shutdown", ...)] *)
Definition session_shutdown (env : Env) : M unit :=
  st <- gets state ;;
  (if registered st then
     Feed.logEvent env (agentName st) leave None None ;;;
     if 0 <? Z.of_nat (length (reservations st)) then
       (_ <- Reservations.removeAllReservations env ;; ret tt)
     else ret tt
   else ret tt) ;;;
  st' <- gets state ;;
  clearTimeout (registryFlushTimer st') ;;;
  modify (with_state (set_registryFlushTimer None)) ;;;
  Tracking.cleanup ;;;
  Messaging.stopWatcher ;;;
  Registry.unregister.

(** The second half of the handler, from the flush timer on. *)
Definition shutdown_tail : M unit :=
  st' <- gets state ;;
  clearTimeout (registryFlushTimer st') ;;;
  modify (with_state (set_registryFlushTimer None)) ;;;
  Tracking.cleanup ;;;
  Messaging.stopWatcher ;;;
  Registry.unregister.

(** Every timer the process holds, in the order the handler clears
    them. *)
Definition timers_held (s : Sys) : list TimerId :=
  option_list (registryFlushTimer (state s))
  ++ (map_to_list (pendingEdits s)).*2
  ++ option_list (recentCommitTimer s)
  ++ option_list (recentTestTimer s)
  ++ option_list (recentEditTimer s)
  ++ option_list (watcherDebounceTimer (state s))
  ++ option_list (watcherRetryTimer (state s)).

Definition leave_event (env : Env) (s : Sys) : FeedEvent :=
  mkEvent (Date_toISOString env) (agentName (state s)) leave None None.

Definition release_events (env : Env) (s : Sys) : list FeedEvent :=
  (fun p => mkEvent (Date_toISOString env) (agentName (state s)) release (Some p) None)
    <$> (pattern <$> reservations (state s)).

(** The registry write of the release: only with reservations to
    release and a record that parses. *)
Definition release_write (env : Env) (s : Sys) : list Effect :=
  match reservations (state s),
        Registry.readRecord (Registry.recordFile (agentName (state s))) (disk s) with
  | _ :: _, Some reg =>
      [RegistryWritten (Registry.recordFile (agentName (state s)))
         (Registry.refreshed env (set_reservations [] (state s)) reg)]
  | _, _ => []
  end.

(** The deletion of the record: only when there is one. *)
Definition record_unlink (s : Sys) : list Effect :=
  if Registry.recordExists (Registry.recordFile (agentName (state s))) (disk s)
  then [RegistryUnlinked (Registry.recordFile (agentName (state s)))]
  else [].

End Index.

(** ** A JSON reader

    [readEvents] is stated over any reader for [JSON.parse].  This one
    follows the JSON grammar (RFC 8259) on strings of code units below 256:
    a number is kept as its lexeme, an object as its members in order of
    appearance, and a [\u] escape that names a code unit above 255 is
    refused. *)

Module Json.

#[local] Set Warnings "-register-all".
Inductive Value : Type :=
| JNull
| JBool (b : bool)
| JNumber (lexeme : string)
| JString (s : string)
| JArray (items : list Value)
| JObject (members : list (string * Value)).

Definition is_ws (c : ascii) : bool :=
  let n := Ascii.N_of_ascii c in
  (n =? 32)%N || (n =? 9)%N || (n =? 10)%N || (n =? 13)%N.

Fixpoint skip_ws (s : string) : string :=
  match s with
  | EmptyString => EmptyString
  | String c s' => if is_ws c then skip_ws s' else s
  end.

Definition hex_value (c : ascii) : option N :=
  let n := Ascii.N_of_ascii c in
  if (48 <=? n)%N && (n <=? 57)%N then Some (n - 48)%N
  else if (97 <=? n)%N && (n <=? 102)%N then Some (n - 87)%N
  else if (65 <=? n)%N && (n <=? 70)%N then Some (n - 55)%N
  else None.

Definition simple_escape (c : ascii) : option ascii :=
  let n := Ascii.N_of_ascii c in
  if (n =? 34)%N then Some c
  else if (n =? 92)%N then Some c
  else if (n =? 47)%N then Some c
  else if (n =? 98)%N then Some (Ascii.ascii_of_N 8)
  else if (n =? 102)%N then Some (Ascii.ascii_of_N 12)
  else if (n =? 110)%N then Some (Ascii.ascii_of_N 10)
  else if (n =? 114)%N then Some (Ascii.ascii_of_N 13)
  else if (n =? 116)%N then Some (Ascii.ascii_of_N 9)
  else None.

(** The characters of a string literal after its opening quote: the
    decoded string and what follows the closing quote. *)
Fixpoint read_chars (s : string) : option (string * string) :=
  match s with
  | EmptyString => None
  | String c s' =>
      let n := Ascii.N_of_ascii c in
      if (n =? 34)%N then Some (EmptyString, s')
      else if (n =? 92)%N then
        match s' with
        | EmptyString => None
        | String e s'' =>
            if (Ascii.N_of_ascii e =? 117)%N then
              match s'' with
              | String h1 (String h2 (String h3 (String h4 r))) =>
                  match hex_value h1, hex_value h2, hex_value h3, hex_value h4 with
                  | Some a, Some b, Some c', Some d =>
                      let code := (((a * 16 + b) * 16 + c') * 16 + d)%N in
                      if (code <? 256)%N then
                        match read_chars r with
                        | Some (t, rest) => Some (String (Ascii.ascii_of_N code) t, rest)
                        | None => None
                        end
                      else None
                  | _, _, _, _ => None
                  end
              | _ => None
              end
            else
              match simple_escape e with
              | Some c' =>
                  match read_chars s'' with
                  | Some (t, rest) => Some (String c' t, rest)
                  | None => None
                  end
              | None => None
              end
        end
      else if (n <? 32)%N then None
      else
        match read_chars s' with
        | Some (t, rest) => Some (String c t, rest)
        | None => None
        end
  end.

Definition is_digit (c : ascii) : bool :=
  let n := Ascii.N_of_ascii c in (48 <=? n)%N && (n <=? 57)%N.

(** The longest prefix of digits, and the rest. *)
Fixpoint read_digits (s : string) : string * string :=
  match s with
  | EmptyString => (EmptyString, EmptyString)
  | String c s' =>
      if is_digit c then let (ds, rest) := read_digits s' in (String c ds, rest)
      else (EmptyString, s)
  end.

Definition starts_with_char (n : N) (s : string) : bool :=
  match s with
  | String c _ => (Ascii.N_of_ascii c =? n)%N
  | EmptyString => false
  end.

Definition tail_string (s : string) : string :=
  match s with String _ r => r | EmptyString => EmptyString end.

(** A number: [-? int frac? exp?]; the lexeme and the rest. *)
Definition read_number (s : string) : option (string * string) :=
  let (sign, s1) :=
    if starts_with_char 45 s then ("-", tail_string s) else (EmptyString, s) in
  let (int, s2) := read_digits s1 in
  if String.eqb int EmptyString then None
  else if starts_with_char 48 int && negb (String.eqb int "0") then None
  else
    let (frac, s3) :=
      if starts_with_char 46 s2 then
        let (ds, r) := read_digits (tail_string s2) in ("." +:+ ds, r)
      else (EmptyString, s2) in
    if String.eqb frac "." then None
    else
      let is_e := starts_with_char 101 s3 || starts_with_char 69 s3 in
      if is_e then
        let s4 := tail_string s3 in
        let (esign, s5) :=
          if starts_with_char 43 s4 then ("+", tail_string s4)
          else if starts_with_char 45 s4 then ("-", tail_string s4)
          else (EmptyString, s4) in
        let (ds, r) := read_digits s5 in
        if String.eqb ds EmptyString then None
        else Some (sign +:+ int +:+ frac +:+ Js.string_take 1 s3 +:+ esign +:+ ds, r)
      else Some (sign +:+ int +:+ frac, s3).

(** [read_value fuel s]: one value at the head of [s] (after white
    space) and the rest; [fuel] bounds the number of nested values and of
    members and elements read. *)
Fixpoint read_value (fuel : nat) (s : string) : option (Value * string) :=
  match fuel with
  | O => None
  | S fuel' =>
      match skip_ws s with
      | EmptyString => None
      | String c r =>
          let n := Ascii.N_of_ascii c in
          if (n =? 123)%N then
            if starts_with_char 125 (skip_ws r)
            then Some (JObject [], tail_string (skip_ws r))
            else match read_members fuel' r with
                 | Some (ms, rest) => Some (JObject ms, rest)
                 | None => None
                 end
          else if (n =? 91)%N then
            if starts_with_char 93 (skip_ws r)
            then Some (JArray [], tail_string (skip_ws r))
            else match read_elements fuel' r with
                 | Some (vs, rest) => Some (JArray vs, rest)
                 | None => None
                 end
          else if (n =? 34)%N then
            match read_chars r with
            | Some (t, rest) => Some (JString t, rest)
            | None => None
            end
          else if String.prefix "true" (String c r) then Some (JBool true, Js.string_drop 4 (String c r))
          else if String.prefix "false" (String c r) then Some (JBool false, Js.string_drop 5 (String c r))
          else if String.prefix "null" (String c r) then Some (JNull, Js.string_drop 4 (String c r))
          else match read_number (String c r) with
               | Some (lexeme, rest) => Some (JNumber lexeme, rest)
               | None => None
               end
      end
  end
with read_members (fuel : nat) (s : string)
    : option (list (string * Value) * string) :=
  match fuel with
  | O => None
  | S fuel' =>
      match skip_ws s with
      | EmptyString => None
      | String q r =>
          if negb (Ascii.N_of_ascii q =? 34)%N then None
          else
            match read_chars r with
            | None => None
            | Some (key, r1) =>
                if negb (starts_with_char 58 (skip_ws r1)) then None
                else
                  match read_value fuel' (tail_string (skip_ws r1)) with
                  | None => None
                  | Some (v, r2) =>
                      if starts_with_char 44 (skip_ws r2) then
                        match read_members fuel' (tail_string (skip_ws r2)) with
                        | Some (ms, rest) => Some ((key, v) :: ms, rest)
                        | None => None
                        end
                      else if starts_with_char 125 (skip_ws r2) then
                        Some ([(key, v)], tail_string (skip_ws r2))
                      else None
                  end
            end
      end
  end
with read_elements (fuel : nat) (s : string) : option (list Value * string) :=
  match fuel with
  | O => None
  | S fuel' =>
      match read_value fuel' s with
      | None => None
      | Some (v, r) =>
          if starts_with_char 44 (skip_ws r) then
            match read_elements fuel' (tail_string (skip_ws r)) with
            | Some (vs, rest) => Some (v :: vs, rest)
            | None => None
            end
          else if starts_with_char 93 (skip_ws r) then
            Some ([v], tail_string (skip_ws r))
          else None
      end
  end.

(** [JSON.parse(text)]: one value, white space around it, nothing else. *)
Definition parse (text : string) : option Value :=
  match read_value (S (String.length text)) text with
  | Some (v, rest) =>
      if String.eqb (skip_ws rest) EmptyString then Some v else None
  | None => None
  end.

Import Types.

Definition optional_field (key : string) (v : option string)
    : list (string * Value) :=
  match v with
  | Some x => [(key, JString x)]
  | None => []
  end.

(** The value a feed event is as a JavaScript object: its defined
    fields, in the order [logEvent] gives them. *)
Definition of_event (e : FeedEvent) : Value :=
  JObject
    ([("ts", JString (ts e)); ("agent", JString (agent e));
      ("type", JString (Feed.type_name (type e)))]
     ++ optional_field "target" (target e)
     ++ optional_field "preview" (preview e)).

End Json.

(** ** Concrete states

    The inputs at which the properties below are instantiated. *)

Module Scenario.
Import Types Sys.

(** The session object as index.ts creates it, the two clock readings
    left empty. *)
Definition new_session : MeshState :=
  mkState "" "agent" false None 0 None None [] ∅ ∅ [] "" None false
    (mkSession 0 0 []) (mkActivity "" None None) None false None "".

(** A process that has not joined, on an empty mesh root. *)
Definition fresh : Sys :=
  mkSys new_session None false None ∅ None None None (mkDisk None ∅ None) [].

Definition with_feed_text (raw : string) (s : Sys) : Sys :=
  with_disk (with_feed (Some raw)) s.

Definition reserve_event : FeedEvent :=
  mkEvent "2026-01-01T00:00:00.000Z" "zero-1" reserve (Some "src/auth/")
    (Some "Refactoring auth").

Definition join_event : FeedEvent :=
  mkEvent "2026-01-01T00:00:05.000Z" "zero-2" join None None.

(** A feed whose last line another process has written only in part:
    the first 20 code units of the line for [reserve_event]. *)
Definition torn : Sys :=
  with_feed_text (Js.string_take 20 (Feed.JSON_stringify reserve_event)) fresh.

End Scenario.

(** ** A crowded registry

    Ninety-nine records [a.json-1.json] to [a.json-99.json] and the same
    for the agent type [zero], every one held by the live process 1000
    plus its number. *)

Module Crowd.
Import Types Sys.

Definition record_of (agentType : string) (i : Z) : AgentRegistration :=
  mkRegistration (Registry.numberedName agentType i) agentType (1000 + i)
    "session" "/work" "model" "2026-01-01T00:00:00.000Z" None None true
    (mkSession 0 0 []) (mkActivity "2026-01-01T00:00:00.000Z" None None) None.

Definition crowd (agentType : string) : gmap string (JsonFile AgentRegistration) :=
  list_to_map
    ((fun i => (Registry.recordFile (Registry.numberedName agentType i),
                Parsed (record_of agentType i)))
       <$> seqZ 1 99).

Definition crowded (agentType : string) : Disk :=
  mkDisk (Some (crowd agentType)) ∅ None.

(** The calling process: pid 4242, no explicit name, every pid above
    1000 alive. *)
Definition caller : Env :=
  mkEnv 4242 "/work" "session" None None (fun p => 1000 <? p) 0
    "2026-01-01T00:00:00.000Z".

(** A peer that has died since the cache was filled: its record is
    still in the registry and in a cache that is half a second old. *)
Definition ghost : AgentRegistration := record_of "zero" 2.

Definition after_crash : Env :=
  mkEnv 4242 "/work" "session" None None (fun _ => false) 500
    "2026-01-01T00:00:00.500Z".

Definition stale_cache : Sys :=
  mkSys Scenario.new_session (Some (mkCache [ghost] 0)) false None ∅ None None None
    (mkDisk (Some {[ "zero-2.json" := Parsed ghost ]}) ∅ None) [].

(** The same registry with a file that does not parse, and no cache. *)
Definition cold_start : Sys :=
  mkSys Scenario.new_session None false None ∅ None None None
    (mkDisk (Some (<[ "zero-3.json" := Malformed ]>
                     {[ "zero-2.json" := Parsed ghost ]})) ∅ None) [].

End Crowd.

(** ** A rename

    The agent [zero-1] (process 4242) asks for the name [zero-2], which
    has a record of process 1002. *)

Module RenameCase.
Import Types Sys.

Definition zero1 : MeshState :=
  mkState "zero-1" "zero" true None 0 None None
    [mkReservation "src/auth/" (Some "Refactoring auth") "2026-01-01T00:00:00.000Z"]
    ∅ ∅ [] "model" None false
    (mkSession 3 100 ["a.ts"]) (mkActivity "2026-01-01T00:00:00.000Z" None None)
    None false None "2026-01-01T00:00:00.000Z".

Definition own_record : AgentRegistration :=
  mkRegistration "zero-1" "zero" 4242 "session" "/work" "model"
    "2026-01-01T00:00:00.000Z" None None false
    (mkSession 0 0 []) (mkActivity "2026-01-01T00:00:00.000Z" None None) None.

Definition other_record : AgentRegistration := Crowd.record_of "zero" 2.

Definition two_agents : Sys :=
  mkSys zero1 None false None ∅ None None None
    (mkDisk (Some (<[ "zero-1.json" := Parsed own_record ]>
                     {[ "zero-2.json" := Parsed other_record ]}))
            {[ "zero-1" := ∅ ]} None) [].

(** Process 1002 is alive, or not. *)
Definition peer_alive : Env :=
  mkEnv 4242 "/work" "session" None None (fun p => p =? 1002) 1000
    "2026-01-01T00:10:00.000Z".

Definition peer_dead : Env :=
  mkEnv 4242 "/work" "session" None None (fun _ => false) 1000
    "2026-01-01T00:10:00.000Z".

Definition no_faults : Registry.Faults := Registry.mkFaults false None.

(** Another process writes its own record over ours before we verify. *)
Definition lost_race : Registry.Faults :=
  Registry.mkFaults false (Some (Some (Parsed other_record))).

End RenameCase.

(** ** A shutdown

    The agent [zero-1] of the rename case leaves while it holds the
    reservation [src/auth/], a flush timer (1), an edit debounce timer for
    [a.ts] (4), the recent-edits window timer (3), the watcher debounce
    timer (2) and an open inbox watch (7). *)

Module ShutdownCase.
Import Types Sys.

Definition leaving : Sys :=
  mkSys
    (set_registryFlushTimer (Some 1%nat)
       (set_watcherDebounceTimer (Some 2%nat)
          (set_watcher (Some 7%nat) RenameCase.zero1)))
    None false None {[ "a.ts" := 4%nat ]} None None (Some 3%nat)
    (mkDisk (Some {[ "zero-1.json" := Parsed RenameCase.own_record ]})
            {[ "zero-1" := ∅ ]} None)
    [].

Definition is_leave (e : Effect) : bool :=
  match e with
  | FeedAppended ev => match type ev with leave => true | _ => false end
  | _ => false
  end.

Definition is_release (e : Effect) : bool :=
  match e with
  | FeedAppended ev => match type ev with release => true | _ => false end
  | _ => false
  end.

Definition is_timer_cleared (e : Effect) : bool :=
  match e with TimerCleared _ => true | _ => false end.

Definition is_watcher_closed (e : Effect) : bool :=
  match e with WatcherClosed _ => true | _ => false end.

Definition is_record_unlinked (e : Effect) : bool :=
  match e with RegistryUnlinked _ => true | _ => false end.

(** The positions in a log of the effects of one kind. *)
Fixpoint positions_from (i : nat) (p : Effect -> bool) (log : list Effect)
    : list nat :=
  match log with
  | [] => []
  | e :: rest =>
      if p e then i :: positions_from (S i) p rest
      else positions_from (S i) p rest
  end.

Definition positions (p : Effect -> bool) (log : list Effect) : list nat :=
  positions_from 0 p log.

(** Every position of [xs] is before every position of [ys]. *)
Definition all_before (xs ys : list nat) : bool :=
  forallb (fun x => forallb (fun y => Nat.ltb x y) ys) xs.

(** The order the specification gives for a shutdown: timers, then the
    watch, then the release events, then (or with them) the leave event,
    then the deletion of the record. *)
Definition specified_order (log : list Effect) : bool :=
  all_before (positions is_timer_cleared log) (positions is_watcher_closed log)
  && all_before (positions is_watcher_closed log)
       (positions is_release log ++ positions is_leave log)
  && all_before (positions is_release log) (positions is_leave log)
  && all_before (positions is_release log ++ positions is_leave log)
       (positions is_record_unlinked log).

End ShutdownCase.

(** ** An inbox

    The inbox of [zero-1] holds, by file name: a message of [zero-2], a
    file that does not parse, a message of [zero-3], and a file that is not
    a message file. *)

Module InboxCase.
Import Types Sys.

Definition hello : MeshMessage :=
  mkMessage "id-1" "zero-2" "zero-1" "hello from zero-2"
    "2026-01-01T00:00:01.000Z" false None.

Definition urgent_stop : MeshMessage :=
  mkMessage "id-2" "zero-3" "zero-1" "Stop! Don't touch config.ts"
    "2026-01-01T00:00:03.000Z" true None.

Definition waiting : Sys :=
  mkSys RenameCase.zero1 None false None ∅ None None None
    (mkDisk (Some {[ "zero-1.json" := Parsed RenameCase.own_record ]})
            {[ "zero-1" :=
                 <[ "1767225603000-c3d4e5.json" := Parsed urgent_stop ]>
                   (<[ "1767225602000-zzzzzz.json" := Malformed ]>
                      (<[ "1767225601000-a1b2c3.json" := Parsed hello ]>
                         {[ "notes.txt" := Malformed ]})) ]}
            None)
    [].

Definition fragile : Callback := mkCallback urgent (fun _ => false).
Definition eager : Callback := mkCallback (fun _ => false) (fun _ => true).

End InboxCase.

(** ** What one scan of an inbox amounts to *)

Module Scan.
Import Js Types Sys Messaging.

(** The message a file holds, when it parses. *)
Definition parsed (files : gmap string (JsonFile MeshMessage)) (file : string)
    : option MeshMessage :=
  match files !! file with
  | Some (Parsed m) => Some m
  | _ => None
  end.

(** The effects of the loop body on one pending file: a message is
    delivered and its file deleted; any other file is only deleted. *)
Definition file_effects (owner : string)
    (files : gmap string (JsonFile MeshMessage)) (file : string) : list Effect :=
  match parsed files file with
  | Some m => [Delivered m; InboxUnlinked owner file]
  | None => [InboxUnlinked owner file]
  end.

(** The files a scan leaves behind. *)
Definition remove_all (names : list string)
    (files : gmap string (JsonFile MeshMessage))
    : gmap string (JsonFile MeshMessage) :=
  foldl (fun c f => delete f c) files names.

(** The messages of one sender, and the bookkeeping for a list of
    messages in order. *)
Definition from_sender (sender : string) (msgs : list MeshMessage)
    : list MeshMessage :=
  filter (fun m => from m = sender) msgs.

Definition record_all (msgs : list MeshMessage) (st : MeshState) : MeshState :=
  foldl (fun st m => recordMessage m st) st msgs.

End Scan.

(** ** More string primitives: slashes, separators, slices *)

Module JsText.
Import Js.

(** [s.replace(/\/+$/, "")]: the text without its trailing slashes. *)
Fixpoint stripTrailingSlashes (s : string) : string :=
  match s with
  | EmptyString => EmptyString
  | String c s' =>
      match stripTrailingSlashes s' with
      | EmptyString => if Ascii.eqb c "/" then EmptyString else String c EmptyString
      | r => String c r
      end
  end.

(** [s.split(sep)] for a separator of one code unit. *)
Fixpoint split (sep : ascii) (s : string) : list string :=
  match s with
  | EmptyString => [EmptyString]
  | String c s' =>
      if Ascii.eqb c sep then EmptyString :: split sep s'
      else match split sep s' with
           | part :: rest => String c part :: rest
           | [] => [String c EmptyString]
           end
  end.

(** A text without the separator. *)
Definition no_sep (sep : ascii) (s : string) : bool :=
  all_chars (fun c => negb (Ascii.eqb c sep)) s.

(** [parts.join(sep)] *)
Fixpoint join (sep : string) (parts : list string) : string :=
  match parts with
  | [] => EmptyString
  | [p] => p
  | p :: rest => p +:+ sep +:+ join sep rest
  end.

(** [s.slice(0, -n)] for [n > 0]: the text without its last [n] code
    units, empty when it has no more than [n]. *)
Definition drop_end (n : nat) (s : string) : string :=
  string_take (String.length s - n) s.

(** A template literal's double-quoted part: ["${s}"]. *)
Definition quoted (s : string) : string :=
  String (Ascii.ascii_of_nat 34) (s +:+ String (Ascii.ascii_of_nat 34) EmptyString).

End JsText.

(** ** reservations.ts: validation, reserve and release *)

Module ReservationOps.
Import Js JsText Types Sys.
Local Open Scope sys_scope.

Record ValidationResult : Type := mkValidation {
  valid : bool;
  warning : option string
}.

Definition BROAD_PATTERNS : list string := ["."; "/"; "./"; ".."; "../"; EmptyString].

Definition is_broad (s : string) : bool := bool_decide (s ∈ BROAD_PATTERNS).

(** [segments]: the non-empty parts of the pattern between slashes. *)
Definition segments (pattern : string) : list string :=
  filter (fun part => part <> EmptyString) (split "/" (stripTrailingSlashes pattern)).

(** [validateReservation(pattern)] *)
Definition validateReservation (pattern : string) : ValidationResult :=
  if String.eqb pattern EmptyString || String.eqb (Feed.trim pattern) EmptyString
  then mkValidation false None
  else if is_broad (stripTrailingSlashes pattern) || is_broad pattern then
    mkValidation true
      (Some (quoted pattern
             +:+ " is very broad and will block most file operations for other agents."))
  else if (length (segments pattern) =? 1)%nat && endsWith pattern "/" then
    mkValidation true
      (Some (quoted pattern
             +:+ " covers an entire top-level directory. Consider reserving a more specific path."))
  else mkValidation true None.

(** [state.reservations.filter((r) => r.pattern !== pattern)] *)
Definition others (pattern : string) (rs : list FileReservation) : list FileReservation :=
  filter (fun r => Types.pattern r <> pattern) rs.

(** The list after [filter] and [push] in [addReservation]. *)
Definition reserved (env : Env) (pattern : string) (reason : option string)
    (rs : list FileReservation) : list FileReservation :=
  others pattern rs ++ [mkReservation pattern reason (Date_toISOString env)].

(** [addReservation(state, dirs, ctx, pattern, reason)] *)
Definition addReservation (env : Env) (pattern : string) (reason : option string)
    : M ValidationResult :=
  let validation := validateReservation pattern in
  if negb (valid validation) then ret validation
  else
    modify (with_state (fun st =>
      set_reservations (reserved env pattern reason (reservations st)) st)) ;;;
    Registry.updateRegistration env ;;;
    st <- gets state ;;
    Feed.logEvent env (agentName st) reserve (Some pattern) reason ;;;
    ret validation.

(** [removeReservation(state, dirs, ctx, pattern)] *)
Definition removeReservation (env : Env) (pattern : string) : M bool :=
  st <- gets state ;;
  let before := length (reservations st) in
  modify (with_state (set_reservations (others pattern (reservations st)))) ;;;
  st' <- gets state ;;
  if (length (reservations st') <? before)%nat then
    Registry.updateRegistration env ;;;
    st'' <- gets state ;;
    Feed.logEvent env (agentName st'') release (Some pattern) None ;;;
    ret true
  else ret false.

(** One reservation operation of a session, as the tools [mesh_reserve]
    and [mesh_release] issue them. *)
Inductive Op : Type :=
| Reserve (pattern : string) (reason : option string)
| Release (pattern : string)
| ReleaseAll.

Definition run_op (env : Env) (op : Op) : M unit :=
  match op with
  | Reserve pattern reason => _ <- addReservation env pattern reason ;; ret tt
  | Release pattern => _ <- removeReservation env pattern ;; ret tt
  | ReleaseAll => _ <- Reservations.removeAllReservations env ;; ret tt
  end.

(** A run of operations, in order. *)
Definition run_ops (env : Env) (ops : list Op) : M unit :=
  forEach ops (run_op env).

(** The disk after [updateRegistration] by a session in state [st]. *)
Definition synced (env : Env) (st : MeshState) (d : Disk) : Disk :=
  if registered st then
    match Registry.readRecord (Registry.recordFile (agentName st)) d with
    | Some reg =>
        with_registry
          (insert (Registry.recordFile (agentName st))
             (Parsed (Registry.refreshed env st reg))) d
    | None => d
    end
  else d.

(** What [updateRegistration] adds to the log for a session in state
    [st]. *)
Definition sync_write (env : Env) (st : MeshState) (d : Disk) : list Effect :=
  if registered st then
    match Registry.readRecord (Registry.recordFile (agentName st)) d with
    | Some reg => [RegistryWritten (Registry.recordFile (agentName st))
                     (Registry.refreshed env st reg)]
    | None => []
    end
  else [].

(** The patterns a session holds. *)
Definition held (st : MeshState) : list string := Types.pattern <$> reservations st.

(** The registry record of the session, when there is one that parses,
    lists exactly the reservations the session holds. *)
Definition in_sync (s : Sys) : Prop :=
  forall reg,
    Registry.readRecord (Registry.recordFile (agentName (state s))) (disk s) = Some reg ->
    reg_reservations reg = Registry.reservationsField (reservations (state s)).

End ReservationOps.

(** ** registry.ts: joining, listing, flushing, conflicts *)

Module RegistryOps.
Import Js Types Sys Registry Reservation.
Local Open Scope sys_scope.

Definition set_gitBranch (v : option string) (s : MeshState) : MeshState :=
  mkState (agentName s) (agentType s) (registered s) (watcher s) (watcherRetries s)
    (watcherRetryTimer s) (watcherDebounceTimer s) (reservations s)
    (chatHistory s) (unreadCounts s) (broadcastHistory s) (model s)
    v (isHuman s) (session s) (activity s) (statusMessage s)
    (customStatus s) (registryFlushTimer s) (sessionStartedAt s).

(** The directory tree after [ensureDataDirs(dirs)]: the registry
    directory is created when it is missing; the inbox root of the model is
    always there. *)
Definition ensured (d : Disk) : Disk :=
  match registry_dir d with
  | Some _ => d
  | None => mkDisk (Some ∅) (inbox_dir d) (feed_file d)
  end.

Definition ensureDataDirs : M unit := modify (with_disk ensured).

(** The file holds a record that parses and belongs to a live process
    other than the caller. *)
Definition heldByOther (env : Env) (file : string) (d : Disk) : bool :=
  recordExists file d &&
  match readRecord file d with
  | Some existing =>
      isProcessAlive env (pid existing) && negb (pid existing =? process_pid env)
  | None => false
  end.

(** The record [register] writes; [gitBranch] is what [getGitBranch]
    has found. *)
Definition registration (env : Env) (gitBranch : option string) (st : MeshState)
    (name : string) : AgentRegistration :=
  let now := Date_toISOString env in
  mkRegistration name (agentType st) (process_pid env) (ctx_sessionId env)
    (process_cwd env) (default "unknown" (ctx_model env)) now None gitBranch
    (isHuman st) (session st) (mkActivity now None None) None.

(** [register(state, dirs, ctx)].  [gitBranch] is the result of
    [getGitBranch(process.cwd())]; [faults] says what happens around the
    write, as for [renameAgent]. *)
Definition register (env : Env) (faults : Faults) (gitBranch : option string)
    : M bool :=
  st <- gets state ;;
  if registered st then ret true
  else
    ensureDataDirs ;;;
    d <- gets disk ;;
    let name := generateName env (agentType st) d in
    if negb (isValidAgentName name) then ret false
    else
      modify (with_state (set_agentName name)) ;;;
      let regPath := recordFile name in
      if heldByOther env regPath d then ret false
      else
        ensureInbox name ;;;
        let now := Date_toISOString env in
        written <- (if write_throws faults then ret false
                    else writeRecord regPath (registration env gitBranch st name)) ;;
        if negb written then ret false
        else
          interfere regPath (racer faults) ;;;
          d' <- gets disk ;;
          match readRecord regPath d' with
          | None => ret false
          | Some w =>
              if negb (pid w =? process_pid env) then ret false
              else
                modify (with_state (fun s =>
                  set_activity (mkActivity now (currentActivity (activity s))
                                  (lastToolCall (activity s)))
                    (set_gitBranch gitBranch
                       (set_model (default "unknown" (ctx_model env))
                          (set_registered true s))))) ;;;
                invalidateAgentsCache ;;;
                ret true
          end.

(** The entry [getAllAgents] builds for the caller from the session
    object. *)
Definition selfRegistration (env : Env) (st : MeshState) : AgentRegistration :=
  mkRegistration (agentName st) (agentType st) (process_pid env) EmptyString
    (process_cwd env) (model st) (sessionStartedAt st)
    (reservationsField (reservations st)) (gitBranch st) (isHuman st)
    (session st) (activity st) (statusMessage st).

(** [getAllAgents(state, dirs)] *)
Definition getAllAgents (env : Env) : M (list AgentRegistration) :=
  peers <- getActiveAgents env 1000 ;;
  st <- gets state ;;
  ret (selfRegistration env st :: peers).

(** The record [flushActivityToRegistry] writes over the record [reg] it
    has read: as [refreshed], but the reservations stay as the file has
    them. *)
Definition flushed (env : Env) (st : MeshState) (reg : AgentRegistration)
    : AgentRegistration :=
  mkRegistration (name reg) (reg_agentType reg) (pid reg) (sessionId reg)
    (cwd reg) (default (reg_model reg) (ctx_model env)) (startedAt reg)
    (reg_reservations reg) (reg_gitBranch reg) (reg_isHuman reg)
    (session st) (activity st) (statusMessage st).

(** [flushActivityToRegistry(state, dirs, ctx)] *)
Definition flushActivityToRegistry (env : Env) : M unit :=
  st <- gets state ;;
  if negb (registered st) then ret tt
  else
    let regPath := recordFile (agentName st) in
    d <- gets disk ;;
    if negb (recordExists regPath d) then ret tt
    else match readRecord regPath d with
         | None => ret tt
         | Some reg =>
             modify (with_state
                       (set_model (default (reg_model reg) (ctx_model env)))) ;;;
             _ <- writeRecord regPath (flushed env st reg) ;;
             ret tt
         end.

(** The content of a file of the registry directory, if both exist. *)
Definition fileAt (file : string) (d : Disk) : option (JsonFile AgentRegistration) :=
  registry_dir d ≫= (fun m => m !! file).

(** Two records agree on who owns them: name, agent type, process,
    session, working directory, start time, branch and kind. *)
Definition same_owner (r r' : AgentRegistration) : Prop :=
  name r' = name r /\ reg_agentType r' = reg_agentType r /\ pid r' = pid r
  /\ sessionId r' = sessionId r /\ cwd r' = cwd r /\ startedAt r' = startedAt r
  /\ reg_gitBranch r' = reg_gitBranch r /\ reg_isHuman r' = reg_isHuman r.

(** A record shows the session as it is now. *)
Definition shows (st : MeshState) (r : AgentRegistration) : Prop :=
  reg_session r = session st /\ reg_activity r = activity st
  /\ reg_statusMessage r = statusMessage st.

Record ReservationConflict : Type := mkConflict {
  conflict_path : string;
  conflict_agent : string;
  conflict_pattern : string;
  conflict_reason : option string;
  conflict_registration : AgentRegistration
}.

(** The conflicts one agent's record contributes for [filePath]. *)
Definition conflictsOf (filePath : string) (a : AgentRegistration)
    : list ReservationConflict :=
  match reg_reservations a with
  | None => []
  | Some rs =>
      (fun res => mkConflict filePath (name a) (pattern res) (reason res) a)
        <$> filter (fun res => pathMatchesReservation filePath (pattern res) = true) rs
  end.

(** [getConflicts(filePath, state, dirs)] *)
Definition getConflicts (env : Env) (filePath : string)
    : M (list ReservationConflict) :=
  agents <- getActiveAgents env 1000 ;;
  ret (agents ≫= conflictsOf filePath).

End RegistryOps.

(** ** messaging.ts: sending *)

Module Send.
Import Js Types Sys Registry.
Local Open Scope sys_scope.

Record RecipientCheck : Type := mkCheck {
  check_valid : bool;
  check_error : option string
}.

(** [validateRecipient(name, dirs)] *)
Definition validateRecipient (env : Env) (name : string) : M RecipientCheck :=
  let regPath := recordFile name in
  d <- gets disk ;;
  if negb (recordExists regPath d) then ret (mkCheck false (Some "not_found"))
  else
    match readRecord regPath d with
    | None => ret (mkCheck false (Some "invalid_registration"))
    | Some reg =>
        if negb (isProcessAlive env (pid reg)) then
          _ <- unlinkRecord regPath ;;
          ret (mkCheck false (Some "not_active"))
        else ret (mkCheck true None)
    end.

(** What [sendMessage] draws from outside for one message: the result of
    [randomUUID()], the characters of
    [Math.random().toString(36).substring(2, 8)], and whether
    [fs.writeFileSync] throws. *)
Record Draw : Type := mkDraw {
  uuid : string;
  suffix : string;
  write_fails : bool
}.

(** The name of the message file: [`${Date.now()}-${random}.json`]. *)
Definition messageFile (env : Env) (draw : Draw) : string :=
  showZ (Date_now env) +:+ "-" +:+ suffix draw +:+ ".json".

(** [fs.writeFileSync(msgFile, JSON.stringify(msg, null, 2))] into the
    inbox of [owner]. *)
Definition writeMessage (owner file : string) (msg : MeshMessage) : M unit :=
  modify (with_disk (with_inbox (fun m =>
    <[owner := <[file := Parsed msg]> (default ∅ (m !! owner))]> m))).

(** [sendMessage(state, dirs, to, text, urgent, replyTo)]; [None] when it
    throws, which it does when the write fails. *)
Definition sendMessage (env : Env) (draw : Draw) (to text : string)
    (urgent : bool) (replyTo : option string) : M (option MeshMessage) :=
  ensureInbox to ;;;
  st <- gets state ;;
  let msg :=
    mkMessage (uuid draw) (agentName st) to text (Date_toISOString env) urgent replyTo in
  if write_fails draw then ret None
  else
    writeMessage to (messageFile env draw) msg ;;;
    ret (Some msg).

(** The inbox of [to] holds a message file with this sender, text and
    urgency that is no reply. *)
Definition carries (inbox : gmap string (gmap string (JsonFile MeshMessage)))
    (sender to text : string) (urgent : bool) : Prop :=
  exists files file msg,
    inbox !! to = Some files /\ files !! file = Some (Parsed msg)
    /\ from msg = sender /\ Types.to msg = to /\ Types.text msg = text
    /\ Types.urgent msg = urgent /\ replyTo msg = None.

(** The loop of [broadcastMessage] over the agents, [draws] giving the
    draw of each call in turn; [None] when a call throws (or the draws run
    out). *)
Fixpoint broadcast_loop (env : Env) (draws : list Draw) (text : string)
    (urgent : bool) (agents : list AgentRegistration) (messages : list MeshMessage)
    : M (option (list MeshMessage)) :=
  match agents, draws with
  | [], _ => ret (Some messages)
  | agent :: rest, draw :: draws' =>
      sent <- sendMessage env draw (name agent) text urgent None ;;
      match sent with
      | Some msg => broadcast_loop env draws' text urgent rest (messages ++ [msg])
      | None => ret None
      end
  | _ :: _, [] => ret None
  end.

(** [broadcastMessage(state, dirs, text, urgent)] *)
Definition broadcastMessage (env : Env) (draws : list Draw) (text : string)
    (urgent : bool) : M (option (list MeshMessage)) :=
  agents <- getActiveAgents env 1000 ;;
  broadcast_loop env draws text urgent agents [].

End Send.

(** ** config.ts: the auto-register paths *)

Module Config.
Import Js JsText.

Section AutoRegister.

(** [join(homedir(), rest)] of node:path, for the home directory of the
    process. *)
Variable join_home : string -> string.

(** [expandHome(p)] *)
Definition expandHome (p : string) : string :=
  if startsWith p "~/" then join_home (string_drop 2 p) else p.

(** The body of the loop of [matchesAutoRegisterPath] for one pattern. *)
Definition matchesPattern (normalized pattern : string) : bool :=
  let expanded := stripTrailingSlashes (expandHome pattern) in
  if endsWith expanded "/*" then
    let base := drop_end 2 expanded in
    String.eqb normalized base || startsWith normalized (base +:+ "/")
  else if endsWith expanded "*" then
    startsWith normalized (drop_end 1 expanded)
  else String.eqb normalized expanded.

(** [matchesAutoRegisterPath(cwd, paths)] *)
Definition matchesAutoRegisterPath (cwd : string) (paths : list string) : bool :=
  existsb (matchesPattern (stripTrailingSlashes cwd)) paths.

End AutoRegister.

End Config.

(** ** tracking.ts: path display *)

Module TrackingOps.
Import Js JsText.

(** [shortenPath(filePath)] *)
Definition shortenPath (filePath : string) : string :=
  let parts := split "/" filePath in
  if (2 <? length parts)%nat then join "/" (Feed.slice_from (-2) parts)
  else filePath.

End TrackingOps.

(** ** Two agents and a reservation

    The agents [zero-1] (process 4242) and [zero-2] (process 1002) of the
    rename case, [zero-1] holding nothing yet, and the process of [zero-2]
    looking at the same directory tree. *)

Module ReserveCase.
Import Types Sys.

Definition settled : Sys :=
  mkSys (set_reservations [] RenameCase.zero1) None false None ∅ None None None
    (disk RenameCase.two_agents) [].

Definition zero2 : MeshState :=
  mkState "zero-2" "zero" true None 0 None None [] ∅ ∅ [] "model" None false
    (mkSession 0 0 []) (mkActivity "2026-01-01T00:00:00.000Z" None None)
    None false None "2026-01-01T00:00:00.000Z".

(** The process of [zero-2], with no cache, on the directory tree [d]. *)
Definition peer_on (d : Disk) : Sys :=
  mkSys zero2 None false None ∅ None None None d [].

(** What [zero-2] sees: its own process is 1002, and 4242 is alive. *)
Definition peer_view : Env :=
  mkEnv 1002 "/work" "session-2" None None (fun p => (p =? 4242) || (p =? 1002)) 2000
    "2026-01-01T00:10:01.000Z".

End ReserveCase.

(** ** feed.ts: a feed that only [appendEvent] has written *)

Module FeedText.
Import Types Sys Feed.

(** The text [appendEvent] appends for a list of events, in order. *)
Fixpoint lines_text (events : list FeedEvent) : string :=
  match events with
  | [] => EmptyString
  | e :: rest => JSON_stringify e +:+ newline +:+ lines_text rest
  end.

(** No feed yet: the file is missing or empty. *)
Definition blank (d : Disk) : Prop :=
  feed_file d = None \/ feed_file d = Some EmptyString.

End FeedText.

(** * Properties *)

(** ** Strings *)

Module JsFacts.
Import Js.
#[local] Arguments String.append !s1 s2 : simpl nomatch.

Lemma prefix_app (p s : string) :
  String.prefix p s = true <-> exists rest, s = p +:+ rest.
Proof.
  revert s. induction p as [|c p IH]; intros s; simpl.
  - destruct s; simpl; split; eauto.
  - destruct s as [|d s]; simpl.
    + split; [discriminate | intros [rest H]; discriminate].
    + destruct (Ascii.ascii_dec c d) as [->|Hne].
      * rewrite IH. split; intros [rest H]; exists rest; simpl in *; congruence.
      * split; [discriminate | intros [rest H]; congruence].
Qed.

Lemma str_app_cons (c : ascii) (a b : string) : String c a +:+ b = String c (a +:+ b).
Proof. reflexivity. Qed.

Lemma all_chars_app (p : ascii -> bool) (a b : string) :
  all_chars p (a +:+ b) = all_chars p a && all_chars p b.
Proof. induction a as [|c a IH]; simpl; [reflexivity|]. by rewrite IH, andb_assoc. Qed.

Lemma str_app_nil_r (s : string) : s +:+ EmptyString = s.
Proof. induction s; simpl; congruence. Qed.

Lemma str_app_assoc (a b c : string) : (a +:+ b) +:+ c = a +:+ (b +:+ c).
Proof. induction a; simpl; congruence. Qed.

Lemma str_app_length (a b : string) :
  String.length (a +:+ b) = (String.length a + String.length b)%nat.
Proof. induction a; simpl; congruence. Qed.

Lemma str_app_inv_tail (a b c : string) : a +:+ c = b +:+ c -> a = b.
Proof.
  revert b. induction a as [|x a IH]; intros [|y b] H; simpl in *.
  - reflexivity.
  - apply (f_equal String.length) in H. simpl in H. rewrite str_app_length in H. lia.
  - apply (f_equal String.length) in H. simpl in H. rewrite str_app_length in H. lia.
  - injection H as -> H. f_equal. auto.
Qed.

Lemma endsWith_nil (p : string) :
  endsWith EmptyString p = String.eqb EmptyString p.
Proof. simpl. destruct p; reflexivity. Qed.

Lemma endsWith_cons (c : ascii) (s p : string) :
  endsWith (String c s) p = String.eqb (String c s) p || endsWith s p.
Proof.
  change (endsWith (String c s) p)
    with (if String.eqb (String c s) p then true else endsWith s p).
  destruct (String.eqb (String c s) p); reflexivity.
Qed.

Lemma endsWith_app (s p : string) :
  endsWith s p = true <-> exists pre, s = pre +:+ p.
Proof.
  induction s as [|c s IH].
  - rewrite endsWith_nil, String.eqb_eq. split.
    + intros <-. exists EmptyString. reflexivity.
    + intros [[|x pre] H]; simpl in H; congruence.
  - rewrite endsWith_cons, orb_true_iff, String.eqb_eq, IH. split.
    + intros [<-|[pre ->]]; [exists EmptyString | exists (String c pre)]; reflexivity.
    + intros [[|x pre] H]; simpl in H; [left; congruence|].
      injection H as -> ->. eauto.
Qed.

End JsFacts.

(** ** computeStatus *)

Module StatusFacts.
Import Js Status.

Ltac status_cases :=
  repeat match goal with
    | |- context [Z.ltb ?a ?b] => destruct (Z.ltb_spec a b); simpl; try lia
    | |- context [Z.leb ?a ?b] => destruct (Z.leb_spec a b); simpl; try lia
    end.

(** C2. [computeStatus] by elapsed time [e = now - getTime(lastActivityAt)]:
    active below 30 s; idle from 30 s and below 5 min; from 5 min on, away
    without a reservation, stuck with a reservation once [e] reaches the
    threshold, idle with a reservation otherwise; active, with no
    [idleFor], when the elapsed time is [NaN] or negative. *)
Theorem computeStatus_thresholds (getTime : string -> JsNum) (now : Z)
    (lastActivityAt : string) (hasReservation : bool) (thresholdMs : JsNum) :
  let cs := computeStatus getTime now lastActivityAt hasReservation thresholdMs in
  (getTime lastActivityAt = NaN -> cs = mkComputed active None) /\
  (forall t, getTime lastActivityAt = Num t ->
     let e := now - t in
     (e < 0 -> cs = mkComputed active None) /\
     (e < 30000 -> status cs = active) /\
     (30000 <= e < 300000 -> status cs = idle) /\
     (300000 <= e -> hasReservation = false -> status cs = away) /\
     (300000 <= e -> hasReservation = true ->
        (exists th, thresholdMs = Num th /\ th <= e) -> status cs = stuck) /\
     (300000 <= e -> hasReservation = true ->
        ~ (exists th, thresholdMs = Num th /\ th <= e) -> status cs = idle)).
Proof.
  unfold computeStatus, ACTIVE_MS, IDLE_MS. split.
  - intros ->. reflexivity.
  - intros t ->. cbv zeta. simpl sub. simpl isNaN. simpl lt. simpl orb.
    repeat split.
    + intros He. status_cases; reflexivity.
    + intros He. status_cases; reflexivity.
    + intros He. status_cases; reflexivity.
    + intros He ->. status_cases; reflexivity.
    + intros He -> (th & -> & Hth). status_cases; reflexivity.
    + intros He -> Hth. status_cases.
      destruct thresholdMs as [|th]; simpl; [reflexivity|].
      status_cases; [|reflexivity]. exfalso. apply Hth. eauto.
Qed.

Lemma computeStatus_thresholds_witness :
  status (computeStatus (fun _ => Num 0) 1200000 "t" true (Num 900000)) = stuck
  /\ computeStatus (fun _ => NaN) 1200000 "t" true (Num 900000)
     = mkComputed active None.
Proof.
  split.
  - destruct (computeStatus_thresholds (fun _ => Num 0) 1200000 "t" true (Num 900000))
      as [_ H].
    destruct (H 0 eq_refl) as (_ & _ & _ & _ & Hs & _).
    apply Hs; [simpl; lia | reflexivity |].
    exists 900000. split; [reflexivity | simpl; lia].
  - destruct (computeStatus_thresholds (fun _ => NaN) 1200000 "t" true (Num 900000))
      as [H _].
    apply H. reflexivity.
Defined.

(** C3, as the specification has it, fails in its second case: at 200 s
    without a reservation the status is idle, not away. *)
Lemma computeStatus_200s_not_away :
  computeStatus (fun _ => Num 0) 200000 "t" false (Num 900000)
  = mkComputed idle (Some "3m 20s")
  /\ status (computeStatus (fun _ => Num 0) 200000 "t" false (Num 900000)) <> away.
Proof. split; [vm_compute; reflexivity | vm_compute; discriminate]. Qed.

(** C3 (amended). Elapsed 10 s gives active; elapsed 200 s without a
    reservation gives idle with [idleFor] "3m 20s"; elapsed 20 min with a
    reservation and a threshold of 900 s gives stuck (with [idleFor]
    "20m 0s"). *)
Theorem computeStatus_examples (getTime : string -> JsNum) (now t : Z)
    (lastActivityAt : string) :
  getTime lastActivityAt = Num t ->
  (now - t = 10000 ->
     forall hasReservation thresholdMs,
       computeStatus getTime now lastActivityAt hasReservation thresholdMs
       = mkComputed active None) /\
  (now - t = 200000 ->
     forall thresholdMs,
       computeStatus getTime now lastActivityAt false thresholdMs
       = mkComputed idle (Some "3m 20s")) /\
  (now - t = 1200000 ->
     computeStatus getTime now lastActivityAt true (Num 900000)
     = mkComputed stuck (Some "20m 0s")).
Proof.
  intros Ht. unfold computeStatus. rewrite Ht. simpl sub.
  repeat split; intros ->; intros; reflexivity.
Qed.

Lemma computeStatus_examples_witness :
  computeStatus (fun _ => Num 5000) 15000 "t" false NaN = mkComputed active None
  /\ computeStatus (fun _ => Num 5000) 205000 "t" false NaN
     = mkComputed idle (Some "3m 20s")
  /\ computeStatus (fun _ => Num 5000) 1205000 "t" true (Num 900000)
     = mkComputed stuck (Some "20m 0s").
Proof.
  split; [|split].
  - apply (computeStatus_examples (fun _ => Num 5000) 15000 5000 "t" eq_refl);
      reflexivity.
  - apply (computeStatus_examples (fun _ => Num 5000) 205000 5000 "t" eq_refl);
      reflexivity.
  - apply (computeStatus_examples (fun _ => Num 5000) 1205000 5000 "t" eq_refl);
      reflexivity.
Defined.

End StatusFacts.

(** ** pathMatchesReservation *)

Module ReservationFacts.
Import Js Reservation JsFacts.
#[local] Arguments String.append !s1 s2 : simpl nomatch.

Lemma matches_file (filePath pattern : string) :
  endsWith pattern "/" = false ->
  pathMatchesReservation filePath pattern = true <-> filePath = pattern.
Proof.
  intros H. unfold pathMatchesReservation. rewrite H. apply String.eqb_eq.
Qed.

Lemma matches_directory (filePath dir : string) :
  pathMatchesReservation filePath (dir +:+ "/") = true
  <-> (exists rest, filePath = dir +:+ "/" +:+ rest) \/ filePath = dir.
Proof.
  unfold pathMatchesReservation, startsWith.
  assert (endsWith (dir +:+ "/") "/" = true) as ->
    by (apply endsWith_app; eauto).
  rewrite orb_true_iff, prefix_app, String.eqb_eq.
  split; intros [[rest H]|H]; [left|right|left|right].
  - exists rest. rewrite H. apply str_app_assoc.
  - eapply str_app_inv_tail, H.
  - exists rest. rewrite H. symmetry. apply str_app_assoc.
  - congruence.
Qed.

(** C4. A pattern without a trailing slash matches exactly the equal
    path; a pattern [dir/] matches the paths that start with [dir/] and
    the path [dir] itself.  So "src/auth/" matches "src/auth/x.ts" and
    "src/auth" but not "src/authorization/x.ts", and "pkg.json" matches
    "pkg.json" only, in particular not "pkg-lock.json". *)
Theorem pathMatchesReservation_spec :
  (forall filePath pattern,
     (endsWith pattern "/" = true <-> exists dir, pattern = dir +:+ "/") /\
     (endsWith pattern "/" = false ->
        (pathMatchesReservation filePath pattern = true <-> filePath = pattern))) /\
  (forall filePath dir,
     pathMatchesReservation filePath (dir +:+ "/") = true
     <-> (exists rest, filePath = dir +:+ "/" +:+ rest) \/ filePath = dir) /\
  pathMatchesReservation "src/auth/x.ts" "src/auth/" = true /\
  pathMatchesReservation "src/auth" "src/auth/" = true /\
  pathMatchesReservation "src/authorization/x.ts" "src/auth/" = false /\
  (forall filePath,
     pathMatchesReservation filePath "pkg.json" = true <-> filePath = "pkg.json") /\
  pathMatchesReservation "pkg-lock.json" "pkg.json" = false.
Proof.
  split; [|split; [|repeat split; try reflexivity]].
  - intros filePath pattern. split; [apply endsWith_app | apply matches_file].
  - apply matches_directory.
  - intros H. apply matches_file in H; [exact H | reflexivity].
  - intros ->. reflexivity.
Qed.

Lemma pathMatchesReservation_spec_witness :
  pathMatchesReservation "package.json" "package.json" = true.
Proof.
  destruct pathMatchesReservation_spec as [H _].
  destruct (H "package.json" "package.json") as [_ Hfile].
  apply Hfile; reflexivity.
Defined.

End ReservationFacts.

(** ** addModifiedFile *)

Module TrackingFacts.
Import Types Tracking Scenario.

Lemma indexOf_absent (files : list string) (x : string) :
  indexOf files x = -1 <-> x ∉ files.
Proof.
  induction files as [|y files IH]; simpl.
  - split; [intros _; apply not_elem_of_nil | reflexivity].
  - rewrite not_elem_of_cons.
    destruct (String.eqb_spec y x) as [->|Hne].
    + split; [discriminate | intros [? _]; congruence].
    + destruct (Z.eqb_spec (indexOf files x) (-1)) as [He|He].
      * split; [intros _; split; [congruence | apply IH, He] | reflexivity].
      * split; [intros H|intros [_ H%IH]; contradiction].
        assert (0 <= indexOf files x \/ indexOf files x = -1) as [?|?]; [|lia|lia].
        clear. induction files as [|z files IH]; simpl; [lia|].
        destruct (String.eqb z x); [lia|].
        destruct (Z.eqb_spec (indexOf files x) (-1)); lia.
Qed.

Lemma indexOf_range (files : list string) (x : string) :
  -1 <= indexOf files x < Z.of_nat (length files).
Proof.
  induction files as [|z files IH]; simpl; [lia|].
  destruct (String.eqb z x); [lia|].
  destruct (Z.eqb_spec (indexOf files x) (-1)); lia.
Qed.

Lemma filter_ne_absent (files : list string) (x : string) :
  x ∉ files -> filter (fun y => y <> x) files = files.
Proof.
  induction files as [|y files IH]; [reflexivity|].
  rewrite not_elem_of_cons. intros [Hne Hx].
  rewrite filter_cons_True by congruence. f_equal. auto.
Qed.

(** Removing the first occurrence from a list without duplicates removes
    the element. *)
Lemma delete_indexOf (files : list string) (x : string) :
  NoDup files -> indexOf files x <> -1 ->
  delete (Z.to_nat (indexOf files x)) files = filter (fun y => y <> x) files.
Proof.
  induction 1 as [|y files Hy Hnd IH]; simpl; [congruence|].
  destruct (String.eqb_spec y x) as [->|Hne]; intros Hi.
  - simpl. rewrite filter_cons_False by (intros ?; congruence).
    symmetry. apply filter_ne_absent, Hy.
  - destruct (Z.eqb_spec (indexOf files x) (-1)) as [He|He]; [congruence|].
    pose proof (indexOf_range files x).
    replace (Z.to_nat (indexOf files x + 1)) with (S (Z.to_nat (indexOf files x)))
      by lia.
    simpl. rewrite filter_cons_True by congruence. f_equal. auto.
Qed.

(** What [addModifiedFile] does to a list without duplicates: the path
    is taken out, put at the end, and the oldest entry is dropped when
    that makes 21. *)
Lemma addModifiedFile_files_eq (filePath : string) (files : list string) :
  NoDup files ->
  addModifiedFile_files filePath files =
    let moved := filter (fun y => y <> filePath) files ++ [filePath] in
    if 20 <? Z.of_nat (length moved) then tail moved else moved.
Proof.
  intros Hnd. unfold addModifiedFile_files.
  destruct (Z.eqb_spec (indexOf files filePath) (-1)) as [He|He]; simpl negb; cbv iota.
  - apply indexOf_absent in He. rewrite (filter_ne_absent files filePath He). reflexivity.
  - rewrite (delete_indexOf files filePath Hnd He). reflexivity.
Qed.

Lemma NoDup_moved (filePath : string) (files : list string) :
  NoDup files -> NoDup (filter (fun y => y <> filePath) files ++ [filePath]).
Proof.
  intros Hnd. apply NoDup_app. split; [by apply NoDup_filter|]. split.
  - intros y [Hy _]%list_elem_of_filter ->%list_elem_of_singleton. done.
  - apply NoDup_singleton.
Qed.

Lemma addModifiedFile_files_inv (filePath : string) (files : list string) :
  NoDup files -> (length files <= 20)%nat ->
  let files' := addModifiedFile_files filePath files in
  NoDup files' /\ (length files' <= 20)%nat /\ last files' = Some filePath.
Proof.
  intros Hnd Hlen. cbv zeta. rewrite addModifiedFile_files_eq by done. cbv zeta.
  pose proof (NoDup_moved filePath files Hnd) as Hm.
  pose proof (length_filter (fun y => y <> filePath) files) as Hf.
  set (kept := filter (fun y => y <> filePath) files) in *.
  assert (length (kept ++ [filePath]) = S (length kept)) as Hl
    by (rewrite length_app; simpl; lia).
  destruct (Z.ltb_spec 20 (Z.of_nat (length (kept ++ [filePath])))) as [Hbig|Hsmall].
  - destruct kept as [|k kept']; simpl in *; [lia|].
    split; [by apply NoDup_cons in Hm as [_ ?]|].
    split; [rewrite length_app in *; simpl in *; lia|].
    apply last_snoc.
  - split; [done|]. split; [lia|]. apply last_snoc.
Qed.

Lemma recordAll_snoc paths p state :
  recordAll (paths ++ [p]) state = addModifiedFile p (recordAll paths state).
Proof. unfold recordAll. by rewrite foldl_app. Qed.

(** C9. From a list that holds at most 20 distinct paths (the empty list
    of a new session, in particular), after any sequence of recorded
    modifications the list holds at most 20 entries and no path twice, and
    its last entry is the path recorded last; recording a path that is
    already in the list moves it to the end and leaves the length as it
    was. *)
Theorem modifiedFiles_ring (state : MeshState) (paths : list string) :
  NoDup (filesModified (session state)) ->
  (length (filesModified (session state)) <= 20)%nat ->
  let files' := filesModified (session (recordAll paths state)) in
  (length files' <= 20)%nat /\
  NoDup files' /\
  (forall p, last paths = Some p -> last files' = Some p) /\
  (forall p, p ∈ files' ->
     let again := filesModified (session (addModifiedFile p (recordAll paths state))) in
     again = filter (fun y => y <> p) files' ++ [p] /\
     length again = length files').
Proof.
  intros Hnd Hlen. cbv zeta.
  assert (forall paths,
    NoDup (filesModified (session (recordAll paths state))) /\
    (length (filesModified (session (recordAll paths state))) <= 20)%nat /\
    (forall p, last paths = Some p ->
       last (filesModified (session (recordAll paths state))) = Some p)) as Hinv.
  { clear paths. induction paths as [|p paths IH] using rev_ind.
    - simpl. split; [done|]. split; [done|]. intros p; discriminate.
    - destruct IH as (IH1 & IH2 & _). rewrite recordAll_snoc.
      unfold addModifiedFile at 1 2 3. simpl.
      destruct (addModifiedFile_files_inv p _ IH1 IH2) as (H1 & H2 & H3).
      split; [done|]. split; [done|].
      intros q. rewrite last_snoc. intros [= <-]. done. }
  destruct (Hinv paths) as (H1 & H2 & H3).
  split; [done|]. split; [done|]. split; [done|].
  intros p Hp. unfold addModifiedFile. simpl.
  rewrite addModifiedFile_files_eq by done. cbv zeta.
  set (files' := filesModified (session (recordAll paths state))) in *.
  assert (length (filter (fun y => y <> p) files' ++ [p]) = length files') as Hl.
  { clear -H1 Hp. induction files' as [|y files IH]; [by apply elem_of_nil in Hp|].
    apply NoDup_cons in H1 as [Hy Hnd].
    destruct (decide (y = p)) as [->|Hne].
    - rewrite filter_cons_False by (intros ?; congruence).
      rewrite (filter_ne_absent files p Hy). rewrite length_app. simpl. lia.
    - rewrite filter_cons_True by done. simpl. f_equal.
      apply IH; first [done | apply elem_of_cons in Hp as [?|?]; [congruence|done]]. }
  rewrite Hl.
  destruct (Z.ltb_spec 20 (Z.of_nat (length files'))); [lia|]. done.
Qed.

Lemma modifiedFiles_ring_witness :
  let paths := ["a.ts"; "b.ts"; "a.ts"] in
  filesModified (session (recordAll paths new_session)) = ["b.ts"; "a.ts"]
  /\ (length (filesModified (session (recordAll paths new_session))) <= 20)%nat.
Proof.
  split; [reflexivity|].
  apply (modifiedFiles_ring new_session ["a.ts"; "b.ts"; "a.ts"]).
  - apply NoDup_nil_2.
  - simpl. lia.
Defined.

End TrackingFacts.

(** ** The JSON reader on serialized events *)

Module JsonFacts.
Import Js Types Sys Feed Json JsFacts.
#[local] Arguments String.append !s1 s2 : simpl nomatch.

Lemma read_quote_char (c : ascii) (x t r : string) :
  read_chars x = Some (t, r) ->
  read_chars (quote_char c +:+ x) = Some (String c t, r).
Proof.
  intros H.
  destruct c as [[] [] [] [] [] [] [] []]; simpl; rewrite H; reflexivity.
Qed.

Lemma read_quote_chars (s rest : string) :
  read_chars (quote_chars s +:+ String char_quote rest) = Some (s, rest).
Proof.
  induction s as [|c s IH]; [reflexivity|].
  simpl quote_chars. rewrite str_app_assoc. by apply read_quote_char.
Qed.

Lemma stringify_string_app (v rest : string) :
  JSON_stringify_string v +:+ rest
  = String char_quote (quote_chars v +:+ String char_quote rest).
Proof. unfold JSON_stringify_string. simpl. by rewrite str_app_assoc. Qed.

Lemma read_string_value (fuel : nat) (v rest : string) :
  read_value (S fuel) (JSON_stringify_string v +:+ rest) = Some (JString v, rest).
Proof.
  rewrite stringify_string_app. simpl. by rewrite read_quote_chars.
Qed.

Lemma member_app (k v rest : string) :
  member k v +:+ rest
  = String char_quote
      (quote_chars k +:+ String char_quote
         (String ":" (JSON_stringify_string v +:+ rest))).
Proof.
  unfold member. rewrite !str_app_assoc, stringify_string_app. reflexivity.
Qed.

Lemma read_members_key (fuel : nat) (x : string) :
  read_members (S fuel) (String char_quote x)
  = match read_chars x with
    | None => None
    | Some (key, r1) =>
        if negb (starts_with_char 58 (skip_ws r1)) then None
        else
          match read_value fuel (tail_string (skip_ws r1)) with
          | None => None
          | Some (v, r2) =>
              if starts_with_char 44 (skip_ws r2) then
                match read_members fuel (tail_string (skip_ws r2)) with
                | Some (ms, rest) => Some ((key, v) :: ms, rest)
                | None => None
                end
              else if starts_with_char 125 (skip_ws r2) then
                Some ([(key, v)], tail_string (skip_ws r2))
              else None
          end
    end.
Proof. reflexivity. Qed.

Lemma read_value_object (fuel : nat) (x : string) :
  read_value (S fuel) (String "{" (String char_quote x))
  = match read_members fuel (String char_quote x) with
    | Some (ms, rest) => Some (JObject ms, rest)
    | None => None
    end.
Proof. reflexivity. Qed.

Lemma read_value_members (fuel : nat) (k v rest : string) :
  read_value (S fuel) (String "{" (member k v +:+ rest))
  = match read_members fuel (member k v +:+ rest) with
    | Some (ms, rest) => Some (JObject ms, rest)
    | None => None
    end.
Proof. rewrite member_app. apply read_value_object. Qed.

Lemma read_member_more (fuel : nat) (k v rest : string)
    (ms : list (string * Value)) (rest' : string) :
  read_members (S fuel) rest = Some (ms, rest') ->
  read_members (S (S fuel)) (member k v +:+ String "," rest)
  = Some ((k, JString v) :: ms, rest').
Proof.
  intros H. rewrite member_app, read_members_key, read_quote_chars.
  change (skip_ws (String ":" ?x)) with (String ":" x).
  cbn [tail_string]. change (negb (starts_with_char 58 (String ":" ?x))) with false.
  cbv iota. rewrite read_string_value.
  change (skip_ws (String "," rest)) with (String "," rest).
  change (starts_with_char 44 (String "," rest)) with true.
  cbn [tail_string]. by rewrite H.
Qed.

Lemma read_member_last (fuel : nat) (k v rest : string) :
  read_members (S (S fuel)) (member k v +:+ String "}" rest)
  = Some ([(k, JString v)], rest).
Proof.
  rewrite member_app, read_members_key, read_quote_chars.
  change (skip_ws (String ":" ?x)) with (String ":" x).
  cbn [tail_string]. change (negb (starts_with_char 58 (String ":" ?x))) with false.
  cbv iota. rewrite read_string_value. reflexivity.
Qed.

Lemma stringify_shape (e : FeedEvent) :
  exists rest,
    JSON_stringify e
    = String "{" (member "ts" (ts e) +:+ String ","
                    (member "agent" (agent e) +:+ String ","
                       (member "type" (type_name (type e)) +:+ rest)))
    /\ rest = match target e, preview e with
              | Some t, Some p =>
                  String "," (member "target" t +:+ String ","
                                (member "preview" p +:+ "}"))
              | Some t, None => String "," (member "target" t +:+ "}")
              | None, Some p => String "," (member "preview" p +:+ "}")
              | None, None => "}"
              end.
Proof.
  eexists. split; [reflexivity|].
  destruct (target e), (preview e); simpl optional_member;
    rewrite ?str_app_assoc; reflexivity.
Qed.

(** The reader gives back the fields of every serialized event. *)
Lemma parse_stringify (e : FeedEvent) :
  parse (JSON_stringify e) = Some (of_event e).
Proof.
  destruct (stringify_shape e) as (rest & He & Hrest).
  unfold parse.
  assert (exists n, String.length (JSON_stringify e) = (6 + n)%nat) as [n ->].
  { rewrite He, member_app. simpl. eauto. }
  rewrite He, read_value_members.
  assert (exists ms,
    read_members (S (S (S (S n)))) (member "type" (type_name (type e)) +:+ rest)
    = Some (("type", JString (type_name (type e))) :: ms, EmptyString)
    /\ ms = Json.optional_field "target" (target e)
            ++ Json.optional_field "preview" (preview e)) as (ms & Hms & ->).
  { eexists. split; [|reflexivity]. subst rest.
    destruct (target e), (preview e); simpl Json.optional_field.
    - apply read_member_more, read_member_more, read_member_last.
    - apply read_member_more, read_member_last.
    - apply read_member_more, read_member_last.
    - apply read_member_last. }
  rewrite (read_member_more _ _ _ _ _ _
             (read_member_more _ _ _ _ _ _ Hms)).
  reflexivity.
Qed.

End JsonFacts.

(** ** The feed round trip *)

Module FeedFacts.
Import Js Types Sys Feed JsFacts Scenario.
#[local] Arguments String.append !s1 s2 : simpl nomatch.

(** *** Serialized events are single lines between braces *)

Lemma single_line_app (a b : string) :
  single_line (a +:+ b) = single_line a && single_line b.
Proof. apply all_chars_app. Qed.

Lemma quote_char_single_line (c : ascii) : single_line (quote_char c) = true.
Proof.
  destruct c as [[] [] [] [] [] [] [] []]; vm_compute; reflexivity.
Qed.

Lemma quote_chars_single_line (s : string) : single_line (quote_chars s) = true.
Proof.
  induction s as [|c s IH]; simpl; [reflexivity|].
  by rewrite single_line_app, quote_char_single_line, IH.
Qed.

Lemma stringify_string_single_line (s : string) :
  single_line (JSON_stringify_string s) = true.
Proof.
  unfold JSON_stringify_string.
  change (String char_quote ?x) with (String char_quote EmptyString +:+ x).
  by rewrite !single_line_app, quote_chars_single_line.
Qed.

Lemma member_single_line (k v : string) : single_line (member k v) = true.
Proof.
  unfold member. by rewrite !single_line_app, !stringify_string_single_line.
Qed.

Lemma optional_member_single_line (k : string) (v : option string) :
  single_line (optional_member k v) = true.
Proof.
  destruct v; simpl; [|reflexivity].
  change (single_line ("," +:+ member k s) = true).
  by rewrite single_line_app, member_single_line.
Qed.

Lemma stringify_single_line (e : FeedEvent) : single_line (JSON_stringify e) = true.
Proof.
  unfold JSON_stringify.
  by rewrite !single_line_app, !member_single_line, !optional_member_single_line.
Qed.

Lemma stringify_braces (e : FeedEvent) :
  exists body, JSON_stringify e = String "{" (body +:+ "}").
Proof.
  exists (member "ts" (ts e)
          +:+ "," +:+ member "agent" (agent e)
          +:+ "," +:+ member "type" (type_name (type e))
          +:+ optional_member "target" (target e)
          +:+ optional_member "preview" (preview e)).
  unfold JSON_stringify. rewrite !str_app_assoc. reflexivity.
Qed.

(** *** Trimming and splitting *)

Lemma trimEnd_cons (c : ascii) (s : string) :
  trimEnd s <> EmptyString -> trimEnd (String c s) = String c (trimEnd s).
Proof. simpl. destruct (trimEnd s); congruence. Qed.

Lemma trimEnd_last (l : string) (c : ascii) :
  is_space c = false ->
  trimEnd (l +:+ String c newline) = l +:+ String c EmptyString.
Proof.
  intros Hc. induction l as [|x l IH].
  - simpl. rewrite Hc. reflexivity.
  - rewrite str_app_cons, trimEnd_cons; rewrite IH; [reflexivity|].
    destruct l; discriminate.
Qed.

Lemma trimEnd_app (a b : string) :
  trimEnd b <> EmptyString -> trimEnd (a +:+ b) = a +:+ trimEnd b.
Proof.
  intros Hb. induction a as [|x a IH]; [reflexivity|].
  rewrite str_app_cons, trimEnd_cons; rewrite IH; [reflexivity|].
  destruct a; simpl; [done | discriminate].
Qed.

Lemma terminated_tail (c : ascii) (s : string) :
  terminated (String c s) -> terminated s.
Proof.
  intros [H|[[|x s'] H]]; [discriminate| |]; simpl in H; injection H as -> ->.
  - by left.
  - right. eauto.
Qed.

Lemma trimStart_app (prev rest : string) (c : ascii) :
  is_space c = false -> terminated prev ->
  exists prev', terminated prev' /\
    trimStart (prev +:+ String c rest) = prev' +:+ String c rest.
Proof.
  intros Hc. induction prev as [|x prev IH]; intros Hp.
  - exists EmptyString. split; [by left|]. simpl. by rewrite Hc.
  - simpl. destruct (is_space x).
    + apply IH. eapply terminated_tail, Hp.
    + exists (String x prev). done.
Qed.

Lemma split_lines_single (line : string) :
  single_line line = true -> split_lines line = [line].
Proof.
  induction line as [|c line IH]; [reflexivity|].
  unfold single_line. simpl. intros [Hc Hl]%andb_true_iff.
  apply negb_true_iff in Hc. rewrite Hc. unfold single_line in IH.
  by rewrite IH.
Qed.

Lemma split_lines_last (prev line : string) :
  single_line line = true -> terminated prev ->
  exists before, split_lines (prev +:+ line) = before ++ [line].
Proof.
  intros Hl Hp. destruct Hp as [->|[s' ->]].
  { exists []. by apply split_lines_single. }
  enough (exists h t, split_lines ((s' +:+ newline) +:+ line) = (h :: t) ++ [line])
    as (h & t & ->) by eauto.
  induction s' as [|c s' (h & t & IH)].
  - exists EmptyString, []. simpl. by rewrite split_lines_single.
  - rewrite !str_app_cons. simpl split_lines. rewrite IH.
    destruct (Ascii.eqb c char_newline); simpl; [by exists EmptyString, (h :: t) | eauto].
Qed.

Lemma last_slice_from {A} (k : Z) (xs : list A) (x : A) :
  k <= 0 -> last xs = Some x -> last (slice_from k xs) = Some x.
Proof.
  intros Hk Hx. unfold slice_from.
  destruct xs as [|y xs _] using rev_ind; [discriminate|].
  rewrite last_snoc in Hx. injection Hx as ->.
  rewrite length_app. simpl length.
  set (n := if k <? 0 then _ else _).
  assert (0 <= n <= Z.of_nat (length xs)) as Hn.
  { subst n. destruct (Z.ltb_spec k 0); lia. }
  rewrite drop_app_le by lia. apply last_snoc.
Qed.

Lemma feed_after_append (e : FeedEvent) (s : Sys) :
  feed_file (disk (appendEvent e s).2)
  = Some (default EmptyString (feed_file (disk s)) +:+ JSON_stringify e +:+ newline).
Proof. reflexivity. Qed.

(** The framing of the feed: after a complete feed, the line appended
    for [e] is the last line [readEvents] splits off, whatever the
    reader makes of the lines before it. *)
Lemma read_after_append {V : Type} (parse : string -> option V)
    (e : FeedEvent) (v : V) (limit : Z) (s : Sys) :
  complete_lines (disk s) = true ->
  parse (JSON_stringify e) = Some v ->
  0 <= limit ->
  last (readEvents V parse limit (disk (appendEvent e s).2)) = Some v.
Proof.
  intros Hc Hv Hlimit. unfold readEvents. rewrite feed_after_append.
  set (prev := default EmptyString (feed_file (disk s))).
  assert (terminated prev) as Hp.
  { subst prev. unfold complete_lines in Hc.
    destruct (feed_file (disk s)) as [raw|]; simpl; [|by left].
    apply orb_true_iff in Hc as [?%String.eqb_eq|?%endsWith_app]; [by left|by right]. }
  destruct (stringify_braces e) as [body Hb].
  pose proof (stringify_single_line e) as Hsl.
  destruct (trimStart_app prev (body +:+ "}" +:+ newline) "{" eq_refl Hp)
    as (prev' & Hp' & Ht).
  assert (trim (prev +:+ JSON_stringify e +:+ newline) = prev' +:+ JSON_stringify e)
    as Htrim.
  { unfold trim. rewrite Hb, str_app_cons, str_app_assoc, Ht.
    assert (trimEnd (String "{" (body +:+ "}" +:+ newline))
            = String "{" (body +:+ "}")) as Hend
      by apply (trimEnd_last (String "{" body) "}" eq_refl).
    rewrite trimEnd_app; rewrite Hend; [reflexivity | discriminate]. }
  rewrite Htrim.
  destruct (String.eqb_spec (prev' +:+ JSON_stringify e) EmptyString) as [He|_].
  { rewrite Hb in He. destruct prev'; discriminate. }
  destruct (split_lines_last prev' (JSON_stringify e) Hsl Hp') as [before ->].
  apply last_slice_from; [lia|].
  rewrite omap_app. simpl. rewrite Hv. apply last_snoc.
Qed.

Lemma appendEvent_complete (e : FeedEvent) (s : Sys) :
  complete_lines (disk (appendEvent e s).2) = true.
Proof.
  unfold complete_lines. rewrite feed_after_append.
  apply orb_true_iff. right. apply endsWith_app.
  exists (default EmptyString (feed_file (disk s)) +:+ JSON_stringify e).
  by rewrite str_app_assoc.
Qed.

Lemma pruneFeed_complete (maxEvents : Z) (s : Sys) :
  complete_lines (disk s) = true ->
  complete_lines (disk (pruneFeed maxEvents s).2) = true.
Proof.
  intros Hc. unfold pruneFeed, modify, with_disk. cbn [snd disk].
  destruct (feed_file (disk s)) as [raw|] eqn:Hraw; [|done].
  destruct (String.eqb (trim raw) EmptyString); [done|].
  destruct (Z.of_nat (length (split_lines (trim raw))) <=? maxEvents); [done|].
  unfold complete_lines, with_feed. cbn [feed_file].
  apply orb_true_iff. right. apply endsWith_app. eauto.
Qed.

(** C8, as stated for every feed state, fails: after a line that was
    written only in part, the appended event is glued to it and lost. *)
Lemma torn_line_loses_event :
  complete_lines (disk torn) = false
  /\ readEvents Json.Value Json.parse 100 (disk (appendEvent join_event torn).2) = []
  /\ last (readEvents Json.Value Json.parse 100 (disk (appendEvent join_event torn).2))
     <> Some (Json.of_event join_event).
Proof. split; [|split]; [vm_compute; reflexivity.. | vm_compute; discriminate]. Qed.

(** C8 (amended). When the feed holds complete lines only (it is missing
    or empty, or its text ends with a line break), then for every event
    [e] and every limit from 0 on, the list [readEvents] returns after
    [appendEvent e] ends with the value read from the line written for
    [e]: with any reader that accepts that line, and with the JSON reader
    of this development that value has exactly the fields of [e]. *)
Theorem feed_round_trip (e : FeedEvent) (limit : Z) (s : Sys) :
  complete_lines (disk s) = true ->
  0 <= limit ->
  (forall (V : Type) (parse : string -> option V) (v : V),
     parse (JSON_stringify e) = Some v ->
     last (readEvents V parse limit (disk (appendEvent e s).2)) = Some v) /\
  last (readEvents Json.Value Json.parse limit (disk (appendEvent e s).2))
  = Some (Json.of_event e).
Proof.
  intros Hc Hlimit. split.
  - intros V parse v Hv. by apply read_after_append.
  - apply read_after_append; [done | apply JsonFacts.parse_stringify | done].
Qed.

Lemma feed_round_trip_witness :
  last (readEvents Json.Value Json.parse 20
          (disk (appendEvent join_event (appendEvent reserve_event fresh).2).2))
  = Some (Json.of_event join_event).
Proof.
  apply (feed_round_trip join_event 20 (appendEvent reserve_event fresh).2).
  - vm_compute; reflexivity.
  - lia.
Defined.

End FeedFacts.

(** ** generateName *)

Module GenerateNameFacts.
Import Js Types Sys Registry JsFacts Crowd.
#[local] Arguments String.append !s1 s2 : simpl nomatch.

Lemma all_taken_check env agentType m :
  forallb (taken_at env agentType m) (seqZ 1 99) = true ->
  all_taken env agentType m.
Proof.
  intros H i Hi. rewrite forallb_forall in H.
  specialize (H i). unfold taken_at in H.
  destruct (m !! recordFile (numberedName agentType i)) as [[|r]|];
    try (discriminate H; apply list_elem_of_In, elem_of_seqZ; lia).
  exists r. split; [done|]. apply H, list_elem_of_In, elem_of_seqZ. lia.
Qed.

(** Why the agent type or the directory is restricted below.  With an
    agent type that contains ".json" and a directory of ninety-nine files
    [a.json-N.json] (names that are not valid, so no [register] and no
    [renameAgent] has written them), [generateName] stops at the first
    name: [replace] takes the first ".json" out of the file name, not the
    extension. *)
Lemma generateName_json_in_type :
  PI_AGENT_NAME caller = None /\
  registry_dir (crowded "a.json") = Some (crowd "a.json") /\
  all_taken caller "a.json" (crowd "a.json") /\
  generateName caller "a.json" (crowded "a.json") = "a.json-1" /\
  numberedName "a.json" (process_pid caller) = "a.json-4242".
Proof.
  split; [reflexivity|]. split; [reflexivity|]. split.
  - apply all_taken_check. vm_compute. reflexivity.
  - split; vm_compute; reflexivity.
Qed.

(** *** The fallback, for agent types without a dot *)

Lemma prefix_cons_ne (a c : ascii) (p s : string) :
  a <> c -> String.prefix (String a p) (String c s) = false.
Proof.
  intros Hne.
  change (String.prefix (String a p) (String c s))
    with (if ascii_dec a c then String.prefix p s else false).
  by destruct (ascii_dec a c).
Qed.

Lemma replace_cons_ne (a c : ascii) (p s r : string) :
  a <> c ->
  replace (String c s) (String a p) r = String c (replace s (String a p) r).
Proof.
  intros Hne.
  change (replace (String c s) (String a p) r)
    with (if String.prefix (String a p) (String c s)
          then r +:+ string_drop (String.length (String a p)) (String c s)
          else String c (replace s (String a p) r)).
  by rewrite prefix_cons_ne.
Qed.

Lemma replace_extension (name : string) :
  no_dot name = true -> replace (recordFile name) ".json" EmptyString = name.
Proof.
  unfold recordFile, no_dot.
  induction name as [|c name IH]; [reflexivity|].
  simpl all_chars. intros [Hc Hn]%andb_true_iff.
  apply negb_true_iff, Ascii.eqb_neq in Hc.
  rewrite str_app_cons, replace_cons_ne by congruence.
  f_equal. by apply IH.
Qed.

Lemma digits_no_dot (i : Z) : 1 <= i <= 99 -> no_dot (showZ i) = true.
Proof.
  intros Hi.
  assert (forallb (fun i => no_dot (showZ i)) (seqZ 1 99) = true) as H
    by (vm_compute; reflexivity).
  rewrite forallb_forall in H. apply H, list_elem_of_In, elem_of_seqZ. lia.
Qed.

Lemma numberedName_no_dot (agentType : string) (i : Z) :
  no_dot agentType = true -> 1 <= i <= 99 ->
  no_dot (numberedName agentType i) = true.
Proof.
  intros Ha Hi. unfold numberedName, no_dot.
  rewrite !all_chars_app.
  fold (no_dot agentType). fold (no_dot (showZ i)).
  by rewrite Ha, digits_no_dot.
Qed.

Lemma existing_has (m : gmap string (JsonFile AgentRegistration))
    (name : string) (f : JsonFile AgentRegistration) :
  no_dot name = true -> m !! recordFile name = Some f ->
  name ∈ existingNames (readdir m).
Proof.
  intros Hn Hm. unfold existingNames, readdir.
  apply elem_of_list_to_set, list_elem_of_fmap.
  exists (recordFile name). split; [by rewrite replace_extension|].
  apply list_elem_of_filter. split.
  - apply endsWith_app. by exists name.
  - apply list_elem_of_fmap. exists (recordFile name, f).
    split; [done|]. by apply elem_of_map_to_list.
Qed.

Lemma generateName_loop_fallback (env : Env) (agentType : string)
    (m : gmap string (JsonFile AgentRegistration)) (d : Disk)
    (count : nat) (i : Z) :
  registry_dir d = Some m ->
  no_dot agentType = true ->
  all_taken env agentType m ->
  1 <= i -> i + Z.of_nat count = 100 ->
  generateName_loop env agentType (existingNames (readdir m)) d count i
  = numberedName agentType (process_pid env).
Proof.
  intros Hd Ha Hall. revert i.
  induction count as [|count IH]; intros i Hi Hc; [reflexivity|].
  destruct (Hall i) as (r & Hr & Halive); [lia|].
  simpl. rewrite bool_decide_eq_true_2.
  2: { eapply existing_has; [|done]. apply numberedName_no_dot; [done | lia]. }
  simpl. unfold readRecord. rewrite Hd, Hr, Halive. simpl.
  apply IH; lia.
Qed.

(** With an agent type that has no dot in it: no explicit name,
    ninety-nine live well-formed records, and the result is the fallback
    built from the caller's process identifier. *)
Lemma generateName_fallback (env : Env) (agentType : string)
    (m : gmap string (JsonFile AgentRegistration)) (d : Disk) :
  PI_AGENT_NAME env = None \/ PI_AGENT_NAME env = Some EmptyString ->
  registry_dir d = Some m ->
  no_dot agentType = true ->
  all_taken env agentType m ->
  generateName env agentType d = numberedName agentType (process_pid env).
Proof.
  intros Hname Hd Ha Hall. unfold generateName. rewrite Hd.
  rewrite (generateName_loop_fallback env agentType m d 99 1) by (done || lia).
  destruct Hname as [-> | ->]; reflexivity.
Qed.

(** *** The fallback, for a directory the mesh has written *)

Lemma name_char_no_dot (c : ascii) :
  is_name_char c = true -> negb (Ascii.eqb c ".") = true.
Proof. destruct c as [[] [] [] [] [] [] [] []]; vm_compute; congruence. Qed.

Lemma valid_no_dot (name : string) : isValidAgentName name = true -> no_dot name = true.
Proof.
  unfold isValidAgentName, no_dot. destruct name as [|c rest]; [done|].
  destruct (50 <? String.length (String c rest))%nat; [done|].
  intros [Hc Hrest]%andb_true_iff. simpl. apply andb_true_iff. split.
  - apply name_char_no_dot. unfold is_name_char. by rewrite Hc.
  - clear Hc. induction rest as [|x rest IH]; [done|]. simpl in *.
    apply andb_true_iff in Hrest as [Hx Hrest].
    by rewrite (name_char_no_dot x Hx), IH.
Qed.

Lemma records_named_empty : records_named ∅.
Proof. intros file [c Hc]. by rewrite lookup_empty in Hc. Qed.

(** [register] and [renameAgent] keep the directory so: the file they
    write is the record of a name they have validated. *)
Lemma records_named_insert (m : gmap string (JsonFile AgentRegistration))
    (name : string) (c : JsonFile AgentRegistration) :
  records_named m -> isValidAgentName name = true ->
  records_named (<[recordFile name := c]> m).
Proof.
  intros Hm Hvalid file Hfile Hjson.
  destruct (decide (file = recordFile name)) as [->|Hne]; [by exists name|].
  rewrite lookup_insert_ne in Hfile by done. by apply Hm.
Qed.

(** In such a directory only an agent type without a dot can have its
    numbered names taken. *)
Lemma taken_type_no_dot (env : Env) (agentType : string)
    (m : gmap string (JsonFile AgentRegistration)) :
  records_named m -> all_taken env agentType m -> no_dot agentType = true.
Proof.
  intros Hm Hall. destruct (Hall 1) as (r & Hr & _); [lia|].
  destruct (Hm (recordFile (numberedName agentType 1))) as (name & Hvalid & Hfile).
  { by rewrite Hr. }
  { apply endsWith_app. by exists (numberedName agentType 1). }
  apply str_app_inv_tail in Hfile. apply valid_no_dot in Hvalid.
  rewrite <- Hfile in Hvalid. unfold numberedName, no_dot in *.
  rewrite all_chars_app in Hvalid. by apply andb_true_iff in Hvalid as [? _].
Qed.

(** The crowded directory of the agent type [zero] is one. *)
Lemma crowd_named : records_named (crowd "zero").
Proof.
  intros file [c Hc] _. unfold crowd in Hc.
  apply elem_of_list_to_map_2, list_elem_of_fmap in Hc as (i & [= -> _] & Hi).
  exists (numberedName "zero" i). split; [|done].
  assert (forallb (fun i => isValidAgentName (numberedName "zero" i)) (seqZ 1 99) = true)
    as H by (vm_compute; reflexivity).
  rewrite forallb_forall in H. by apply H, list_elem_of_In.
Qed.

(** C10. When no explicit name is set (or it is empty), the registry
    directory exists and every name [type-1] to [type-99] has a record in
    it that parses and whose process is alive, [generateName] returns
    [type-pid], the name built from the caller's own process identifier.
    This holds for every agent type when the [.json] files of the directory
    are records under valid names, as [register] and [renameAgent] write
    them, and for every directory when the agent type has no dot. *)
Theorem generateName_all_taken (env : Env) (agentType : string)
    (m : gmap string (JsonFile AgentRegistration)) (d : Disk) :
  PI_AGENT_NAME env = None \/ PI_AGENT_NAME env = Some EmptyString ->
  registry_dir d = Some m ->
  records_named m \/ no_dot agentType = true ->
  all_taken env agentType m ->
  generateName env agentType d = numberedName agentType (process_pid env).
Proof.
  intros Hname Hd Hstore Hall. apply (generateName_fallback env agentType m d); try done.
  destruct Hstore as [Hm|Hdot]; [|done]. by apply (taken_type_no_dot env agentType m).
Qed.

Lemma generateName_all_taken_witness :
  generateName caller "zero" (crowded "zero") = "zero-4242".
Proof.
  apply (generateName_all_taken caller "zero" (crowd "zero") (crowded "zero")).
  - by left.
  - reflexivity.
  - left. apply crowd_named.
  - apply all_taken_check. vm_compute. reflexivity.
Defined.

End GenerateNameFacts.

(** ** getActiveAgents *)

Module ActiveAgentsFacts.
Import Js Types Sys Registry JsFacts Crowd.

Lemma step_spec (env : Env) (file : string) (acc : list AgentRegistration)
    (s : Sys) (m : gmap string (JsonFile AgentRegistration)) :
  registry_dir (disk s) = Some m ->
  exists s',
    getActiveAgents_step env file acc s
    = (acc ++ option_list (live_record env m file), s')
    /\ registry_dir (disk s') = Some (swept env file m)
    /\ same_session s s'.
Proof.
  intros Hm. unfold getActiveAgents_step, swept, dead_record, live_record.
  destruct (endsWith file ".json"); simpl.
  2: { exists s. by rewrite app_nil_r. }
  unfold Sys.bind, gets, readRecord. rewrite Hm.
  destruct (m !! file) as [[|r]|] eqn:Hf; simpl.
  1, 3: exists s; by rewrite app_nil_r.
  destruct (isProcessAlive env (pid r)); simpl.
  { by exists s. }
  unfold unlinkRecord, recordExists. rewrite Hm, Hf.
  eexists. split; [by rewrite app_nil_r|]. split; [|done].
  simpl. by rewrite Hm.
Qed.

Lemma same_session_trans (s1 s2 s3 : Sys) :
  same_session s1 s2 -> same_session s2 s3 -> same_session s1 s3.
Proof. unfold same_session. intros (? & ? & ?) (? & ? & ?). split_and!; congruence. Qed.

Lemma live_record_swept (env : Env) (file g : string)
    (m : gmap string (JsonFile AgentRegistration)) :
  live_record env (swept env file m) g = live_record env m g.
Proof.
  unfold live_record, swept, dead_record.
  destruct (endsWith g ".json"); [|done].
  destruct (endsWith file ".json") eqn:Hj; simpl; [|done].
  destruct (m !! file) as [[|r]|] eqn:Hf; try done.
  destruct (isProcessAlive env (pid r)) eqn:Ha; simpl; [done|].
  destruct (decide (file = g)) as [<-|Hne].
  - by rewrite lookup_delete_eq, Hf, Ha.
  - by rewrite lookup_delete_ne.
Qed.

Lemma omap_live_swept (env : Env) (file : string) (files : list string)
    (m : gmap string (JsonFile AgentRegistration)) :
  omap (live_record env (swept env file m)) files
  = omap (live_record env m) files.
Proof.
  induction files as [|g files IH]; [done|].
  cbn. by rewrite live_record_swept, IH.
Qed.

(** The loop over a listing [files], from a directory [m]: the live
    records are collected in the order of the listing, and the directory
    loses exactly the listed records of dead processes. *)
Lemma loop_spec (env : Env) (files : list string) :
  forall (acc : list AgentRegistration) (s : Sys)
         (m : gmap string (JsonFile AgentRegistration)),
  registry_dir (disk s) = Some m ->
  exists s' m',
    getActiveAgents_loop env files acc s
    = (acc ++ omap (live_record env m) files, s')
    /\ registry_dir (disk s') = Some m'
    /\ same_session s s'
    /\ forall g, m' !! g =
         if decide (g ∈ files /\ dead_record env g (m !! g) = true)
         then None else m !! g.
Proof.
  induction files as [|file files IH]; intros acc s m Hm.
  - exists s, m. simpl. rewrite app_nil_r. split_and!; try done.
  - destruct (step_spec env file acc s m Hm) as (s1 & Hstep & Hm1 & Hss1).
    destruct (IH (acc ++ option_list (live_record env m file)) s1 _ Hm1)
      as (s' & m' & Hloop & Hm' & Hss & Hlook).
    exists s', m'. split_and!.
    + simpl. unfold Sys.bind. rewrite Hstep, Hloop. f_equal.
      rewrite <- app_assoc. f_equal.
      rewrite omap_live_swept.
      by destruct (live_record env m file).
    + done.
    + by eapply same_session_trans.
    + intros g. rewrite Hlook. unfold swept.
      destruct (decide (g = file)) as [->|Hne].
      * destruct (dead_record env file (m !! file)) eqn:Hd.
        -- rewrite lookup_delete_eq.
           rewrite (decide_True (P := file ∈ file :: files /\ _))
             by (split; [apply elem_of_cons; by left | done]).
           by case_decide.
        -- rewrite Hd, !decide_False; [done | | ]; intros [_ ?]; discriminate.
      * assert ((if dead_record env file (m !! file)
                 then delete file m else m) !! g = m !! g) as Hg.
        { destruct (dead_record env file (m !! file)); [|done].
          by rewrite lookup_delete_ne. }
        rewrite Hg.
        destruct (dead_record env g (m !! g)) eqn:Hdg.
        -- destruct (decide (g ∈ files)) as [Hin|Hin].
           ++ rewrite !decide_True; [done | | done].
              split; [by apply elem_of_cons; right | done].
           ++ rewrite !decide_False; [done | | tauto].
              intros [[?|?]%elem_of_cons _]; done.
        -- rewrite !decide_False; [done | | ]; intros [_ ?]; discriminate.
Qed.

Lemma elem_of_readdir (m : gmap string (JsonFile AgentRegistration)) (f : string) :
  f ∈ readdir m <-> is_Some (m !! f).
Proof.
  unfold readdir. rewrite list_elem_of_fmap. split.
  - intros [[g c] [-> H%elem_of_map_to_list]]. by exists c.
  - intros [c H]. exists (f, c). split; [done|]. by apply elem_of_map_to_list.
Qed.

Lemma getActiveAgents_miss (env : Env) (cacheTtl : Z) (s : Sys)
    (m : gmap string (JsonFile AgentRegistration)) :
  cache_miss env cacheTtl s ->
  registry_dir (disk s) = Some m ->
  exists s1 m',
    getActiveAgents_loop env (readdir m) [] s
    = (omap (live_record env m) (readdir m), s1)
    /\ registry_dir (disk s1) = Some m'
    /\ same_session s s1
    /\ (forall g, m' !! g = if dead_record env g (m !! g) then None else m !! g)
    /\ getActiveAgents env cacheTtl s
       = (filter (fun a => notSelf (agentName (state s)) a = true)
            (omap (live_record env m) (readdir m)),
          with_cache
            (Some (mkCache (omap (live_record env m) (readdir m)) (Date_now env)))
            s1).
Proof.
  intros Hmiss Hm.
  destruct (loop_spec env (readdir m) [] s m Hm) as (s1 & m' & Hloop & Hm' & Hss & Hlook).
  exists s1, m'. simpl in Hloop. split_and!; try done.
  - intros g. rewrite Hlook.
    destruct (dead_record env g (m !! g)) eqn:Hd.
    + rewrite decide_True; [done|]. split; [|done].
      apply elem_of_readdir. unfold dead_record in Hd.
      destruct (m !! g); [done|]. by rewrite andb_false_r in Hd.
    + rewrite decide_False; [done|]. intros [_ ?]; discriminate.
  - unfold getActiveAgents, Sys.bind, gets, cache_miss in *.
    destruct (agentsCache s) as [c|]; simpl.
    + destruct (Z.ltb_spec (Date_now env - cache_timestamp c) cacheTtl); [lia|].
      rewrite Hm, Hloop. reflexivity.
    + rewrite Hm, Hloop. reflexivity.
Qed.

(** C6, as stated for every state, fails while the cache answers: a peer
    that died after the cache was filled is still returned, and its record
    stays on disk. *)
Lemma cached_call_keeps_dead_agent :
  isProcessAlive after_crash (pid ghost) = false
  /\ (getActiveAgents after_crash 1000 stale_cache).1 = [ghost]
  /\ registry_dir (disk (getActiveAgents after_crash 1000 stale_cache).2)
     = Some {[ "zero-2.json" := Parsed ghost ]}.
Proof. split; [|split]; vm_compute; reflexivity. Qed.

(** A call that the cache does not answer, on a registry directory
    [m]: only records of live processes are returned, every [.json] record
    of a dead process is deleted, and a file that fails to parse is neither
    returned nor deleted. *)
Lemma getActiveAgents_sweep (env : Env) (cacheTtl : Z) (s : Sys)
    (m : gmap string (JsonFile AgentRegistration)) :
  cache_miss env cacheTtl s ->
  registry_dir (disk s) = Some m ->
  exists m',
    registry_dir (disk (getActiveAgents env cacheTtl s).2) = Some m' /\
    (forall file r,
       endsWith file ".json" = true -> m !! file = Some (Parsed r) ->
       isProcessAlive env (pid r) = false ->
       m' !! file = None) /\
    (forall a, a ∈ (getActiveAgents env cacheTtl s).1 ->
       isProcessAlive env (pid a) = true) /\
    (forall file, m !! file = Some Malformed -> m' !! file = Some Malformed) /\
    (forall a, a ∈ (getActiveAgents env cacheTtl s).1 <->
       exists file, endsWith file ".json" = true /\ m !! file = Some (Parsed a)
                    /\ isProcessAlive env (pid a) = true
                    /\ name a <> agentName (state s)) /\
    (forall file, dead_record env file (m !! file) = false ->
       m' !! file = m !! file).
Proof.
  intros Hmiss Hm.
  destruct (getActiveAgents_miss env cacheTtl s m Hmiss Hm)
    as (s1 & m' & _ & Hm' & _ & Hlook & ->).
  exists m'. simpl.
  assert (forall a, a ∈ omap (live_record env m) (readdir m) <->
            exists file, endsWith file ".json" = true /\ m !! file = Some (Parsed a)
                         /\ isProcessAlive env (pid a) = true) as Hlive.
  { intros a. rewrite list_elem_of_omap. unfold live_record. split.
    - intros (file & _ & H). exists file.
      destruct (endsWith file ".json"); [|done].
      destruct (m !! file) as [[|r]|]; try done.
      destruct (isProcessAlive env (pid r)) eqn:Ha; [|done].
      by injection H as <-.
    - intros (file & Hj & Hf & Ha). exists file. split.
      + apply elem_of_readdir. by rewrite Hf.
      + by rewrite Hj, Hf, Ha. }
  split_and!.
  - done.
  - intros file r Hj Hf Ha. rewrite Hlook. unfold dead_record.
    by rewrite Hj, Hf, Ha.
  - intros a [_ Ha]%list_elem_of_filter. apply Hlive in Ha as (? & ? & ? & ?). done.
  - intros file Hf. rewrite Hlook. unfold dead_record. rewrite Hf.
    by rewrite andb_false_r.
  - intros a. rewrite list_elem_of_filter, Hlive. unfold notSelf.
    rewrite negb_true_iff, String.eqb_neq.
    split; [intros (Hn & file & ? & ? & ?) | intros (file & ? & ? & ? & ?)]; eauto 10.
  - intros file Hd. by rewrite Hlook, Hd.
Qed.

(** A call that the cache answers: the cached list without the caller,
    and no change at all. *)
Lemma getActiveAgents_hit (env : Env) (cacheTtl : Z) (s : Sys) (c : AgentsCache) :
  agentsCache s = Some c ->
  Date_now env - cache_timestamp c < cacheTtl ->
  getActiveAgents env cacheTtl s
  = (filter (fun a => notSelf (agentName (state s)) a = true) (agents c), s).
Proof.
  intros Hc Hfresh. unfold getActiveAgents, Sys.bind, gets, ret. rewrite Hc.
  apply Z.ltb_lt in Hfresh. by rewrite Hfresh.
Qed.

(** A call that the cache does not answer, without a registry directory:
    nothing is returned, and the empty list is cached. *)
Lemma getActiveAgents_no_directory (env : Env) (cacheTtl : Z) (s : Sys) :
  cache_miss env cacheTtl s ->
  registry_dir (disk s) = None ->
  getActiveAgents env cacheTtl s
  = ([], with_cache (Some (mkCache [] (Date_now env))) s).
Proof.
  intros Hmiss Hd. unfold getActiveAgents, Sys.bind, gets, ret, modify, cache_miss in *.
  destruct (agentsCache s) as [c|].
  - destruct (Z.ltb_spec (Date_now env - cache_timestamp c) cacheTtl); [lia|].
    cbn beta iota. by rewrite Hd.
  - cbn beta iota. by rewrite Hd.
Qed.

(** C6 (amended). When the cache does not answer (it is empty or at
    least [cacheTtl] old), one call of [getActiveAgents] on a registry
    directory [m] returns only records of live processes, deletes every
    [.json] record of a dead process, and neither returns nor deletes a
    file that fails to parse; the result is exactly the live records
    other than the caller's own, every file that is not the record of
    a dead process stays as it was, the session, the inboxes and the feed
    are untouched, and the cache then holds the live records read at the
    current time.  Without a registry directory such a call returns
    nothing and changes only the cache.  When the cache answers (it is
    younger than [cacheTtl]), the call returns the cached list without the
    caller and changes nothing: no file is read or deleted. *)
Theorem getActiveAgents_scan (env : Env) (cacheTtl : Z) (s : Sys) :
  (forall m,
     cache_miss env cacheTtl s ->
     registry_dir (disk s) = Some m ->
     exists m',
       registry_dir (disk (getActiveAgents env cacheTtl s).2) = Some m' /\
       (forall file r,
          endsWith file ".json" = true -> m !! file = Some (Parsed r) ->
          isProcessAlive env (pid r) = false ->
          m' !! file = None) /\
       (forall a, a ∈ (getActiveAgents env cacheTtl s).1 ->
          isProcessAlive env (pid a) = true) /\
       (forall file, m !! file = Some Malformed -> m' !! file = Some Malformed) /\
       (forall a, a ∈ (getActiveAgents env cacheTtl s).1 <->
          exists file, endsWith file ".json" = true /\ m !! file = Some (Parsed a)
                       /\ isProcessAlive env (pid a) = true
                       /\ name a <> agentName (state s)) /\
       (forall file, dead_record env file (m !! file) = false ->
          m' !! file = m !! file) /\
       same_session s (getActiveAgents env cacheTtl s).2 /\
       agentsCache (getActiveAgents env cacheTtl s).2
       = Some (mkCache (omap (live_record env m) (readdir m)) (Date_now env)))
  /\ (cache_miss env cacheTtl s ->
      registry_dir (disk s) = None ->
      getActiveAgents env cacheTtl s
      = ([], with_cache (Some (mkCache [] (Date_now env))) s))
  /\ (forall c,
        agentsCache s = Some c ->
        Date_now env - cache_timestamp c < cacheTtl ->
        getActiveAgents env cacheTtl s
        = (filter (fun a => notSelf (agentName (state s)) a = true) (agents c), s)).
Proof.
  split; [|split].
  - intros m Hmiss Hm.
    destruct (getActiveAgents_sweep env cacheTtl s m Hmiss Hm)
      as (m' & Hm' & Hdead & Halive & Hbad & Hchar & Hkept).
    exists m'. do 6 (split; [done|]).
    destruct (getActiveAgents_miss env cacheTtl s m Hmiss Hm)
      as (s1 & m1 & _ & _ & Hsame & _ & ->).
    cbn [snd]. split; [by destruct s1|by destruct s1].
  - apply getActiveAgents_no_directory.
  - apply getActiveAgents_hit.
Qed.

Lemma getActiveAgents_scan_witness :
  (exists m',
     registry_dir (disk (getActiveAgents after_crash 1000 cold_start).2) = Some m'
     /\ m' !! "zero-2.json" = None
     /\ m' !! "zero-3.json" = Some Malformed)
  /\ getActiveAgents after_crash 1000 stale_cache = ([ghost], stale_cache).
Proof.
  destruct (getActiveAgents_scan after_crash 1000 cold_start) as (Hscan & _ & _).
  destruct (getActiveAgents_scan after_crash 1000 stale_cache) as (_ & _ & Hhit).
  split.
  - destruct (Hscan (<[ "zero-3.json" := Malformed ]> {[ "zero-2.json" := Parsed ghost ]}))
      as (m' & Hm' & Hdead & _ & Hbad & _).
    + exact I.
    + reflexivity.
    + exists m'. split; [exact Hm'|]. split.
      * apply (Hdead "zero-2.json" ghost); vm_compute; reflexivity.
      * apply Hbad. vm_compute; reflexivity.
  - apply (Hhit (mkCache [ghost] 0)); [reflexivity|vm_compute; reflexivity].
Defined.

End ActiveAgentsFacts.

(** ** renameAgent *)

Module RenameFacts.
Import Js Types Sys Registry JsFacts RenameCase.

Lemma recordFile_inj (a b : string) : recordFile a = recordFile b -> a = b.
Proof. apply str_app_inv_tail. Qed.

Lemma readRecord_insert_ne (file g : string) (c : JsonFile AgentRegistration)
    (d : Disk) :
  file <> g ->
  readRecord g (with_registry (insert file c) d) = readRecord g d.
Proof.
  intros Hne. unfold readRecord, with_registry. simpl.
  destruct (registry_dir d); simpl; [|done]. by rewrite lookup_insert_ne.
Qed.

Lemma readRecord_delete_ne (file g : string) (d : Disk) :
  file <> g ->
  readRecord g (with_registry (delete file) d) = readRecord g d.
Proof.
  intros Hne. unfold readRecord, with_registry. simpl.
  destruct (registry_dir d); simpl; [|done]. by rewrite lookup_delete_ne.
Qed.

Lemma identity_kept_refl (s : Sys) : identity_kept s s.
Proof. by repeat split. Qed.

Lemma interfere_kept (file g : string)
    (r : option (option (JsonFile AgentRegistration))) (s : Sys) :
  file <> g ->
  state (interfere file r s).2 = state s
  /\ agentsCache (interfere file r s).2 = agentsCache s
  /\ readRecord g (disk (interfere file r s).2) = readRecord g (disk s)
  /\ inbox_dir (disk (interfere file r s).2) = inbox_dir (disk s).
Proof.
  intros Hne. destruct r as [[c|]|]; simpl; split_and!; try done.
  - by apply readRecord_insert_ne.
  - by apply readRecord_delete_ne.
Qed.

Lemma renameAgent_failure (env : Env) (faults : Faults) (new : string) (s : Sys) :
  success (renameAgent env faults new s).1 = false ->
  identity_kept s (renameAgent env faults new s).2
  /\ exists e, error (renameAgent env faults new s).1 = Some e
       /\ e ∈ ["not_registered"; "invalid_name"; "same_name"; "name_taken";
               "write_failed"; "verify_failed"; "race_lost"].
Proof.
  unfold renameAgent, Sys.bind, gets, ret.
  destruct (registered (state s)); simpl;
    [|intros _; split; [apply identity_kept_refl | eexists; split; [done|set_solver]]].
  destruct (isValidAgentName new); simpl;
    [|intros _; split; [apply identity_kept_refl | eexists; split; [done|set_solver]]].
  destruct (String.eqb_spec new (agentName (state s))) as [|Hne];
    [intros _; split; [apply identity_kept_refl | eexists; split; [done|set_solver]]|].
  destruct (recordExists _ _ && _); cbv beta;
    [intros _; split; [apply identity_kept_refl | eexists; split; [done|set_solver]]|].
  assert (recordFile new <> recordFile (agentName (state s))) as Hfile
    by (intros ?%recordFile_inj; done).
  destruct (write_throws faults); simpl;
    [intros _; split; [apply identity_kept_refl | eexists; split; [done|set_solver]]|].
  unfold writeRecord.
  destruct (registry_dir (disk s)) as [m|] eqn:Hm; simpl;
    [|intros _; split; [apply identity_kept_refl | eexists; split; [done|set_solver]]].
  match goal with |- context [interfere ?f ?r ?s0] =>
    destruct (interfere_kept f (recordFile (agentName (state s))) r s0 Hfile)
      as (Hst & Hca & Hrd & Hin);
    destruct (interfere f r s0) as [[] s1] eqn:Hi end.
  simpl in Hst, Hca, Hrd, Hin.
  assert (identity_kept s s1) as Hkept.
  { unfold identity_kept. rewrite Hst, Hca, Hrd, Hin. simpl. split_and!; try done.
    unfold readRecord, with_registry. simpl. rewrite Hm. simpl.
    by rewrite lookup_insert_ne. }
  destruct (readRecord (recordFile new) (disk s1)) as [w|]; simpl;
    [|intros _; split; [done | eexists; split; [done|set_solver]]].
  destruct (pid w =? process_pid env); simpl;
    [|intros _; split; [done | eexists; split; [done|set_solver]]].
  destruct (unlinkRecord _ _) as [? ?]. simpl. discriminate.
Qed.

Lemma renameAgent_taken (env : Env) (faults : Faults) (new : string) (s : Sys)
    (m : gmap string (JsonFile AgentRegistration)) (r : AgentRegistration) :
  registered (state s) = true ->
  isValidAgentName new = true ->
  new <> agentName (state s) ->
  registry_dir (disk s) = Some m ->
  m !! recordFile new = Some (Parsed r) ->
  isProcessAlive env (pid r) = true ->
  pid r <> process_pid env ->
  renameAgent env faults new s = (failure "name_taken", s).
Proof.
  intros Hreg Hvalid Hne Hm Hr Halive Hpid.
  unfold renameAgent, Sys.bind, gets, ret.
  rewrite Hreg, Hvalid. simpl.
  destruct (String.eqb_spec new (agentName (state s))); [done|].
  unfold recordExists, readRecord. rewrite Hm, Hr, Halive. simpl.
  destruct (Z.eqb_spec (pid r) (process_pid env)); [done|]. reflexivity.
Qed.

Lemma renameAgent_over_dead (env : Env) (faults : Faults) (new : string) (s : Sys)
    (m : gmap string (JsonFile AgentRegistration)) (r : AgentRegistration) :
  registered (state s) = true ->
  isValidAgentName new = true ->
  new <> agentName (state s) ->
  registry_dir (disk s) = Some m ->
  m !! recordFile new = Some (Parsed r) ->
  isProcessAlive env (pid r) = false ->
  write_throws faults = false ->
  racer faults = None ->
  let out := renameAgent env faults new s in
  out.1 = mkRename true (Some (agentName (state s))) (Some new) None
  /\ agentName (state out.2) = new
  /\ registered (state out.2) = true
  /\ (exists reg, readRecord (recordFile new) (disk out.2) = Some reg
                  /\ name reg = new /\ pid reg = process_pid env)
  /\ readRecord (recordFile (agentName (state s))) (disk out.2) = None
  /\ is_Some (inbox_dir (disk out.2) !! new).
Proof.
  intros Hreg Hvalid Hne Hm Hr Hdead Hw Hrace.
  assert (recordFile new <> recordFile (agentName (state s))) as Hfile
    by (intros ?%recordFile_inj; done).
  destruct s as [st cache proc pend edits t1 t2 t3 [reg inbox feed] tr].
  simpl in *. subst reg.
  unfold renameAgent, Sys.bind, gets, ret. simpl.
  rewrite Hreg, Hvalid, Hw, Hrace. simpl.
  destruct (String.eqb_spec new (agentName st)); [done|].
  unfold recordExists, readRecord. simpl. rewrite Hr, Hdead. simpl.
  rewrite lookup_insert_eq. simpl. rewrite Z.eqb_refl. simpl.
  unfold unlinkRecord, recordExists. simpl.
  rewrite lookup_insert_ne by done.
  assert (forall box : gmap string (gmap string (JsonFile MeshMessage)),
    is_Some
      (match
         match box !! new with Some _ => box | None => <[new:=∅]> box end
         !! agentName st
       with
       | Some files =>
           if decide (files = ∅)
           then delete (agentName st)
                  match box !! new with Some _ => box | None => <[new:=∅]> box end
           else match box !! new with Some _ => box | None => <[new:=∅]> box end
       | None => match box !! new with Some _ => box | None => <[new:=∅]> box end
       end !! new)) as Hbox.
  { intros box.
    assert (is_Some (match box !! new with Some _ => box | None => <[new:=∅]> box end
                     !! new)) as Hnew.
    { destruct (box !! new) eqn:Hin; [by rewrite Hin | by rewrite lookup_insert_eq]. }
    destruct (_ !! agentName st) as [files|]; [|done].
    destruct (decide (files = ∅)); [|done]. by rewrite lookup_delete_ne. }
  destruct (m !! recordFile (agentName st)) eqn:Hold; simpl.
  - rewrite lookup_delete_ne, lookup_insert_eq, lookup_delete_eq by done.
    split_and!; try done. by eexists.
  - rewrite lookup_insert_eq, lookup_insert_ne, Hold by done.
    split_and!; try done. by eexists.
Qed.

(** C5. For a registered agent, a valid new name other than its own, and
    a record under the new name that parses: if that record's process is
    alive and is not the caller, [renameAgent] fails with [name_taken] and
    changes nothing; if it is dead (and the write succeeds and no other
    process interferes), [renameAgent] succeeds, the record under the new
    name is the caller's, the old record is gone and the session carries
    the new name.  On every failure the session object, the record under
    the old name, the cache and the inboxes are as before. *)
Theorem renameAgent_spec (env : Env) (faults : Faults) (new : string) (s : Sys) :
  (forall m r,
     registered (state s) = true ->
     isValidAgentName new = true ->
     new <> agentName (state s) ->
     registry_dir (disk s) = Some m ->
     m !! recordFile new = Some (Parsed r) ->
     (isProcessAlive env (pid r) = true -> pid r <> process_pid env ->
        renameAgent env faults new s = (failure "name_taken", s)) /\
     (isProcessAlive env (pid r) = false ->
        write_throws faults = false -> racer faults = None ->
        let out := renameAgent env faults new s in
        out.1 = mkRename true (Some (agentName (state s))) (Some new) None
        /\ agentName (state out.2) = new
        /\ registered (state out.2) = true
        /\ (exists reg, readRecord (recordFile new) (disk out.2) = Some reg
                        /\ name reg = new /\ pid reg = process_pid env)
        /\ readRecord (recordFile (agentName (state s))) (disk out.2) = None
        /\ is_Some (inbox_dir (disk out.2) !! new))) /\
  (success (renameAgent env faults new s).1 = false ->
     identity_kept s (renameAgent env faults new s).2
     /\ exists e, error (renameAgent env faults new s).1 = Some e
          /\ e ∈ ["not_registered"; "invalid_name"; "same_name"; "name_taken";
                  "write_failed"; "verify_failed"; "race_lost"]).
Proof.
  split.
  - intros m r Hreg Hvalid Hne Hm Hr. split.
    + intros. by eapply renameAgent_taken.
    + intros. by eapply renameAgent_over_dead.
  - apply renameAgent_failure.
Qed.

Lemma renameAgent_spec_witness :
  renameAgent peer_alive no_faults "zero-2" two_agents
    = (failure "name_taken", two_agents)
  /\ (renameAgent peer_dead no_faults "zero-2" two_agents).1
     = mkRename true (Some "zero-1") (Some "zero-2") None
  /\ identity_kept two_agents (renameAgent peer_dead lost_race "zero-2" two_agents).2.
Proof.
  split; [|split].
  - refine (proj1 (proj1 (renameAgent_spec peer_alive no_faults "zero-2" two_agents)
                     (<[ "zero-1.json" := Parsed own_record ]>
                        {[ "zero-2.json" := Parsed other_record ]})
                     other_record _ _ _ _ _) _ _);
      vm_compute; (reflexivity || discriminate).
  - refine (proj1 (proj2 (proj1 (renameAgent_spec peer_dead no_faults "zero-2" two_agents)
                     (<[ "zero-1.json" := Parsed own_record ]>
                        {[ "zero-2.json" := Parsed other_record ]})
                     other_record _ _ _ _ _) _ _ _));
      vm_compute; (reflexivity || discriminate).
  - refine (proj1 (proj2 (renameAgent_spec peer_dead lost_race "zero-2" two_agents) _)).
    vm_compute. reflexivity.
Defined.

End RenameFacts.

(** ** session_shutdown *)

Module ShutdownFacts.
Import Js Types Sys Registry JsFacts RenameCase ShutdownCase.
Import Feed Tracking Reservations Messaging Index.

(** *** Effects accumulate *)

Lemma emits_nil (s : Sys) : emits [] s = s.
Proof. destruct s. unfold emits. simpl. by rewrite app_nil_r. Qed.

Lemma emits_emits (l1 l2 : list Effect) (s : Sys) :
  emits l2 (emits l1 s) = emits (l1 ++ l2) s.
Proof. unfold emits. simpl. by rewrite app_assoc. Qed.

Lemma clearTimeout_run (t : option TimerId) (s : Sys) :
  clearTimeout t s = (tt, emits (TimerCleared <$> option_list t) s).
Proof. destruct t; simpl; [done|]. by rewrite emits_nil. Qed.

Lemma clear_all_run (l : list TimerId) (s : Sys) :
  forEach l (fun t => clearTimeout (Some t)) s = (tt, emits (TimerCleared <$> l) s).
Proof.
  revert s. induction l as [|t l IH]; intros s; simpl.
  - by rewrite emits_nil.
  - unfold Sys.bind, modify. rewrite IH. unfold emit. by rewrite emits_emits.
Qed.

#[local] Arguments append_lines : simpl never.

Lemma append_lines_registry (events : list FeedEvent) (d : Disk) :
  registry_dir (append_lines events d) = registry_dir d.
Proof.
  revert d. induction events as [|e events IH]; intros d; [done|].
  unfold append_lines in *. simpl. by rewrite IH.
Qed.

Lemma append_lines_feed (events : list FeedEvent) (d d' : Disk) :
  feed_file d = feed_file d' ->
  feed_file (append_lines events d) = feed_file (append_lines events d').
Proof.
  revert d d'. induction events as [|e events IH]; intros d d' H; [done|].
  unfold append_lines in *. simpl. apply IH. unfold append_line. simpl.
  by rewrite H.
Qed.

Lemma with_disk_id (s : Sys) : with_disk (fun d => d) s = s.
Proof. by destruct s. Qed.

Lemma log_all_run (env : Env) (who : string) (patterns : list string) (s : Sys) :
  let events :=
    (fun p => mkEvent (Date_toISOString env) who release (Some p) None) <$> patterns in
  forEach patterns (fun p => logEvent env who release (Some p) None) s
  = (tt, emits (FeedAppended <$> events) (with_disk (append_lines events) s)).
Proof.
  cbv zeta. revert s. induction patterns as [|p ps IH]; intros s; simpl.
  - unfold ret. f_equal. rewrite emits_nil. symmetry. apply with_disk_id.
  - unfold Sys.bind, logEvent, appendEvent, modify. rewrite IH.
    unfold emit. f_equal. unfold emits, with_disk, append_lines. simpl.
    by rewrite <- app_assoc.
Qed.

(** *** The parts of the handler *)

Lemma cleanup_run (s : Sys) :
  cleanup s
  = (tt, with_tracking ∅ None None None
           (emits (TimerCleared <$>
                     ((map_to_list (pendingEdits s)).*2
                      ++ option_list (recentCommitTimer s)
                      ++ option_list (recentTestTimer s)
                      ++ option_list (recentEditTimer s))) s)).
Proof.
  unfold cleanup, Sys.bind, gets, modify.
  rewrite clear_all_run. cbn [pendingEdits recentCommitTimer emits].
  rewrite clearTimeout_run. cbn [recentTestTimer emits].
  rewrite clearTimeout_run. cbn [recentEditTimer emits].
  rewrite clearTimeout_run. rewrite !emits_emits, !fmap_app, !app_assoc.
  reflexivity.
Qed.

Lemma stopWatcher_run (s : Sys) :
  stopWatcher s
  = (tt, with_state
           (fun st => set_watcher None
                        (set_watcherRetryTimer None
                           (set_watcherDebounceTimer None st)))
           (emits ((TimerCleared <$>
                      (option_list (watcherDebounceTimer (state s))
                       ++ option_list (watcherRetryTimer (state s))))
                   ++ (WatcherClosed <$> option_list (watcher (state s)))) s)).
Proof.
  unfold stopWatcher, Sys.bind, gets, modify.
  rewrite !clearTimeout_run. cbv iota beta.
  destruct (watcher (state s)) as [w|]; cbn [option_list fmap list_fmap];
    unfold ret, emit, emits, with_state; cbn; rewrite ?fmap_app, ?app_nil_r, ?app_assoc;
    reflexivity.
Qed.

Lemma unregister_run (s : Sys) :
  registered (state s) = true ->
  unregister s
  = (tt, with_cache None
           (with_state (set_registered false)
              (if recordExists (recordFile (agentName (state s))) (disk s)
               then emits [RegistryUnlinked (recordFile (agentName (state s)))]
                      (with_disk
                         (with_registry (delete (recordFile (agentName (state s))))) s)
               else s))).
Proof.
  intros Hreg. unfold unregister, Sys.bind, gets, modify, invalidateAgentsCache.
  rewrite Hreg. cbn [negb]. unfold unlinkRecord.
  by destruct (recordExists _ _).
Qed.

Lemma updateRegistration_run (env : Env) (s : Sys) :
  registered (state s) = true ->
  updateRegistration env s
  = (tt, match readRecord (recordFile (agentName (state s))) (disk s) with
         | Some reg =>
             emits [RegistryWritten (recordFile (agentName (state s)))
                      (refreshed env (state s) reg)]
               (with_disk
                  (with_registry
                     (insert (recordFile (agentName (state s)))
                        (Parsed (refreshed env (state s) reg))))
                  (with_state (set_model (default (reg_model reg) (ctx_model env))) s))
         | None => s
         end).
Proof.
  intros Hreg. unfold updateRegistration, Sys.bind, gets, modify, ret.
  rewrite Hreg. cbn [negb].
  unfold recordExists, readRecord, writeRecord.
  destruct (registry_dir (disk s)) as [m|] eqn:Hm; cbn; [|done].
  destruct (m !! recordFile (agentName (state s))) as [[|reg]|]; cbn; try done.
  rewrite Hm. reflexivity.
Qed.

Lemma removeAllReservations_run (env : Env) (s : Sys) :
  registered (state s) = true ->
  exists s',
    removeAllReservations env s = (pattern <$> reservations (state s), s')
    /\ trace s' = trace s
         ++ match readRecord (recordFile (agentName (state s))) (disk s) with
            | Some reg =>
                [RegistryWritten (recordFile (agentName (state s)))
                   (refreshed env (set_reservations [] (state s)) reg)]
            | None => []
            end
         ++ (FeedAppended <$> release_events env s)
    /\ feed_file (disk s') = feed_file (append_lines (release_events env s) (disk s))
    /\ recordExists (recordFile (agentName (state s))) (disk s')
       = recordExists (recordFile (agentName (state s))) (disk s)
    /\ agentName (state s') = agentName (state s)
    /\ registered (state s') = true
    /\ reservations (state s') = []
    /\ registryFlushTimer (state s') = registryFlushTimer (state s)
    /\ watcherDebounceTimer (state s') = watcherDebounceTimer (state s)
    /\ watcherRetryTimer (state s') = watcherRetryTimer (state s)
    /\ watcher (state s') = watcher (state s)
    /\ pendingEdits s' = pendingEdits s
    /\ recentCommitTimer s' = recentCommitTimer s
    /\ recentTestTimer s' = recentTestTimer s
    /\ recentEditTimer s' = recentEditTimer s.
Proof.
  intros Hreg. eexists.
  unfold removeAllReservations, Sys.bind, gets, modify, ret.
  rewrite updateRegistration_run by (by destruct s as [[]]).
  rewrite log_all_run. cbv zeta.
  split; [reflexivity|].
  destruct s as [st cache proc pend edits t1 t2 t3 [reg inbox feed] tr].
  destruct st as [nm ty rg wa wr wrt wdt res ch un br mo gb hu se ac sm cs ft ssa].
  cbn in Hreg. subst. cbn.
  unfold release_events, readRecord, recordExists. cbn.
  destruct reg as [m|]; cbn.
  2: { rewrite ?append_lines_registry, ?app_nil_r. cbn. by repeat split. }
  destruct (m !! recordFile nm) as [[|r]|] eqn:Hr; cbn;
    rewrite ?append_lines_registry; cbn;
    rewrite ?app_nil_r, ?lookup_insert_eq, ?Hr; repeat split; try done.
  all: rewrite <- ?app_assoc; try done.
  by apply append_lines_feed.
Qed.

Lemma append_lines_cons (e : FeedEvent) (events : list FeedEvent) (d : Disk) :
  append_lines (e :: events) d = append_lines events (append_line e d).
Proof. reflexivity. Qed.

Lemma shutdown_tail_run (s : Sys) :
  registered (state s) = true ->
  let s' := (shutdown_tail s).2 in
  trace s' = trace s
             ++ (TimerCleared <$> timers_held s)
             ++ (WatcherClosed <$> option_list (watcher (state s)))
             ++ record_unlink s
  /\ feed_file (disk s') = feed_file (disk s)
  /\ registered (state s') = false
  /\ reservations (state s') = reservations (state s)
  /\ recordExists (recordFile (agentName (state s))) (disk s') = false
  /\ registryFlushTimer (state s') = None
  /\ watcherDebounceTimer (state s') = None
  /\ watcherRetryTimer (state s') = None
  /\ watcher (state s') = None
  /\ pendingEdits s' = ∅
  /\ recentCommitTimer s' = None
  /\ recentTestTimer s' = None
  /\ recentEditTimer s' = None.
Proof.
  intros Hreg. cbv zeta. unfold shutdown_tail, Sys.bind, gets, modify.
  rewrite clearTimeout_run, cleanup_run, stopWatcher_run.
  rewrite unregister_run by (by destruct s as [[]]).
  destruct s as [st cache proc pend edits t1 t2 t3 [reg inbox feed] tr].
  destruct st as [nm ty rg wa wr wrt wdt res ch un br mo gb hu se ac sm cs ft ssa].
  cbn in Hreg. subst. cbn. unfold timers_held, record_unlink, recordExists. cbn.
  destruct reg as [m|]; cbn.
  - destruct (m !! recordFile nm) eqn:Hm; cbn;
      rewrite ?lookup_delete_eq, ?Hm, ?fmap_app, <- ?app_assoc, ?app_nil_r;
      by repeat split.
  - rewrite ?fmap_app, <- ?app_assoc, ?app_nil_r. by repeat split.
Qed.

Lemma shutdown_split (env : Env) (s : Sys) :
  registered (state s) = true ->
  session_shutdown env s
  = shutdown_tail
      (if 0 <? Z.of_nat (length (reservations (state s)))
       then (removeAllReservations env
               (logEvent env (agentName (state s)) leave None None s).2).2
       else (logEvent env (agentName (state s)) leave None None s).2).
Proof.
  intros Hreg.
  change (session_shutdown env s)
    with (Sys.bind (gets state) (fun st =>
          Sys.bind
            (if registered st then
               Sys.bind (logEvent env (agentName st) leave None None) (fun _ =>
                 if 0 <? Z.of_nat (length (reservations st)) then
                   Sys.bind (removeAllReservations env) (fun _ => ret tt)
                 else ret tt)
             else ret tt)
            (fun _ => shutdown_tail)) s).
  unfold Sys.bind, gets. rewrite Hreg.
  destruct (logEvent env (agentName (state s)) leave None None s) as [[] sA].
  cbn [snd].
  destruct (0 <? Z.of_nat (length (reservations (state s)))); [|done].
  destruct (removeAllReservations env sA) as [? ?]. reflexivity.
Qed.

(** C1, as the specification orders it, fails on the feed and on the
    timers: the leave event is written first, the release events after
    it, and the timers are cleared and the watch is closed only then. *)
Lemma leave_precedes_release :
  let log := trace (session_shutdown peer_alive leaving).2 in
  specified_order log = false
  /\ positions is_leave log = [0%nat]
  /\ positions is_release log = [2%nat]
  /\ positions is_timer_cleared log = [3%nat; 4%nat; 5%nat; 6%nat]
  /\ positions is_watcher_closed log = [7%nat]
  /\ positions is_record_unlinked log = [8%nat]
  /\ feed_file (disk (session_shutdown peer_alive leaving).2)
     = Some (JSON_stringify (leave_event peer_alive leaving) +:+ newline
             +:+ JSON_stringify
                   (mkEvent (Date_toISOString peer_alive) "zero-1" release
                      (Some "src/auth/") None) +:+ newline).
Proof. cbv zeta. split_and!; vm_compute; reflexivity. Qed.

(** C1 (amended). On shutdown of a registered agent the handler
    performs, in this order: the leave event is appended to the feed;
    when the agent holds reservations, its list is emptied, its registry
    record (if it parses) is rewritten without them and one release event
    per pattern is appended; then every timer is cleared (flush, pending
    edits, the three windows, watcher debounce and retry); the inbox watch
    is closed; and the registry record is deleted.  Afterwards the agent
    is not registered, holds no reservation, no timer and no watch, and
    has no record. *)
Theorem shutdown_order (env : Env) (s : Sys) :
  registered (state s) = true ->
  let s' := (session_shutdown env s).2 in
  trace s' = trace s
             ++ [FeedAppended (leave_event env s)]
             ++ release_write env s
             ++ (FeedAppended <$> release_events env s)
             ++ (TimerCleared <$> timers_held s)
             ++ (WatcherClosed <$> option_list (watcher (state s)))
             ++ record_unlink s
  /\ feed_file (disk s')
     = feed_file (append_lines (leave_event env s :: release_events env s) (disk s))
  /\ registered (state s') = false
  /\ reservations (state s') = []
  /\ recordExists (recordFile (agentName (state s))) (disk s') = false
  /\ registryFlushTimer (state s') = None
  /\ watcherDebounceTimer (state s') = None
  /\ watcherRetryTimer (state s') = None
  /\ watcher (state s') = None
  /\ pendingEdits s' = ∅
  /\ recentCommitTimer s' = None
  /\ recentTestTimer s' = None
  /\ recentEditTimer s' = None.
Proof.
  intros Hreg. cbv zeta. rewrite (shutdown_split env s Hreg).
  set (sA := (logEvent env (agentName (state s)) leave None None s).2).
  assert (registered (state sA) = true) as HregA by done.
  assert (trace sA = trace s ++ [FeedAppended (leave_event env s)]) as HtrA by done.
  assert (feed_file (disk sA) = feed_file (append_line (leave_event env s) (disk s)))
    as HfeedA by done.
  destruct (removeAllReservations_run env sA HregA)
    as (sB & Hrun & HtrB & HfeedB & HexB & HnmB & HregB & HresB
        & HftB & HwdB & HwrB & HwaB & HpeB & HrcB & HrtB & HreB).
  unfold release_write.
  destruct (reservations (state s)) as [|r0 rs] eqn:Hres.
  - change (0 <? Z.of_nat (length (@nil FileReservation))) with false. cbv iota.
    destruct (shutdown_tail_run sA HregA) as (Htr & Hfeed & Hrest).
    cbv zeta in Htr, Hfeed, Hrest.
    assert (release_events env s = []) as -> by (unfold release_events; by rewrite Hres).
    split; [|split; [|split; [|split]]]; try apply Hrest.
    + rewrite Htr, HtrA. by rewrite <- !app_assoc.
    + by rewrite Hfeed, HfeedA.
    + destruct Hrest as (_ & -> & _). by subst sA.
  - assert ((0 <? Z.of_nat (length (r0 :: rs))) = true) as ->
      by (apply Z.ltb_lt; cbn [length]; lia).
    rewrite Hrun. cbn [snd].
    destruct (shutdown_tail_run sB HregB) as (Htr & Hfeed & Hrest).
    cbv zeta in Htr, Hfeed, Hrest.
    assert (timers_held sB = timers_held s) as Htm.
    { unfold timers_held. by rewrite HftB, HwdB, HwrB, HpeB, HrcB, HrtB, HreB. }
    assert (record_unlink sB = record_unlink s) as Hun.
    { unfold record_unlink. by rewrite HnmB, HexB. }
    assert (release_events env sA = release_events env s) as Hev by done.
    rewrite HnmB in Hrest. rewrite Hev in *.
    split; [|split; [|split; [|split]]]; try apply Hrest.
    + rewrite Htr, HtrB, Htm, Hun, HwaB, HtrA. by rewrite <- !app_assoc.
    + rewrite Hfeed, HfeedB. rewrite append_lines_cons.
      by apply append_lines_feed.
    + destruct Hrest as (_ & -> & _). done.
Qed.

Lemma shutdown_order_witness :
  trace (session_shutdown peer_alive leaving).2
  = [FeedAppended (leave_event peer_alive leaving)]
    ++ release_write peer_alive leaving
    ++ (FeedAppended <$> release_events peer_alive leaving)
    ++ (TimerCleared <$> [1; 4; 3; 2]%nat)
    ++ [WatcherClosed 7%nat]
    ++ [RegistryUnlinked "zero-1.json"].
Proof.
  refine (proj1 (shutdown_order peer_alive leaving _)). reflexivity.
Defined.

End ShutdownFacts.

(** ** processInbox *)

Module InboxFacts.
Import Js Types Sys Messaging Scan JsFacts InboxCase.

(** *** One call from inside the callback *)

Lemma reenter_run (fuel : nat) (cb : Callback) (s : Sys) :
  registered (state s) = true ->
  isProcessingMessages s = true ->
  processInbox (S fuel) cb s = Some (tt, with_pending (Some cb) s).
Proof.
  intros Hreg Hbusy. cbn [processInbox]. unfold bindP, lift, gets, modify.
  rewrite Hreg. cbn [negb]. by rewrite Hbusy.
Qed.

Lemma recordMessage_identity (m : MeshMessage) (st : MeshState) :
  registered (recordMessage m st) = registered st
  /\ agentName (recordMessage m st) = agentName st.
Proof. by destruct st. Qed.

(** *** One file *)

Lemma processFile_run (fuel : nat) (cb : Callback) (owner file : string)
    (cur : gmap string (JsonFile MeshMessage)) (s : Sys) :
  registered (state s) = true ->
  isProcessingMessages s = true ->
  inbox_dir (disk s) !! owner = Some cur ->
  is_Some (cur !! file) ->
  exists s',
    processFile (processInbox (S fuel) cb) cb owner file s = Some (tt, s')
    /\ trace s' = trace s ++ file_effects owner cur file
    /\ state s' = match parsed cur file with
                  | Some m => recordMessage m (state s)
                  | None => state s
                  end
    /\ inbox_dir (disk s') !! owner = Some (delete file cur)
    /\ isProcessingMessages s' = true
    /\ pendingProcessArgs s'
       = match parsed cur file with
         | Some m => if cb_reenters cb m then Some cb else pendingProcessArgs s
         | None => pendingProcessArgs s
         end.
Proof.
  intros Hreg Hbusy Hin [c Hc].
  unfold processFile, file_effects, parsed, readMessage, bindP, lift, gets, retP.
  rewrite Hin, Hc.
  destruct c as [|m].
  - unfold unlinkMessage. rewrite Hin, Hc. eexists. split; [reflexivity|].
    cbn. rewrite lookup_insert_eq. by repeat split.
  - unfold deliver, bindP, lift, modify, retP. cbn [fst snd].
    destruct (cb_reenters cb m) eqn:Hre.
    + rewrite reenter_run by (by destruct s as [[]]).
      destruct (cb_throws cb m); cbn [negb];
        unfold unlinkMessage; cbn; rewrite Hin, Hc; cbn;
        eexists; (split; [reflexivity|]); cbn; rewrite lookup_insert_eq;
        by repeat split; rewrite <- ?app_assoc.
    + destruct (cb_throws cb m); cbn [negb];
        unfold unlinkMessage; cbn; rewrite Hin, Hc; cbn;
        eexists; (split; [reflexivity|]); cbn; rewrite lookup_insert_eq;
        by repeat split; rewrite <- ?app_assoc.
Qed.

(** *** The loop *)

Lemma parsed_delete_ne (files : gmap string (JsonFile MeshMessage)) (f g : string) :
  f <> g -> parsed (delete f files) g = parsed files g.
Proof. intros Hne. unfold parsed. by rewrite lookup_delete_ne. Qed.

Lemma effects_delete (owner : string) (cur : gmap string (JsonFile MeshMessage))
    (f : string) (names : list string) :
  f ∉ names ->
  flat_map (file_effects owner (delete f cur)) names
  = flat_map (file_effects owner cur) names.
Proof.
  induction names as [|g names IH]; [done|].
  intros [Hne Hf]%not_elem_of_cons. cbn. unfold file_effects at 1 3.
  rewrite parsed_delete_ne by done. by rewrite IH.
Qed.

Lemma messages_delete (cur : gmap string (JsonFile MeshMessage))
    (f : string) (names : list string) :
  f ∉ names ->
  omap (parsed (delete f cur)) names = omap (parsed cur) names.
Proof.
  induction names as [|g names IH]; [done|].
  intros [Hne Hf]%not_elem_of_cons. cbn.
  rewrite parsed_delete_ne by done. by rewrite IH.
Qed.

Lemma loop_run (fuel : nat) (cb : Callback) (owner : string) (names : list string) :
  forall (cur : gmap string (JsonFile MeshMessage)) (s : Sys),
  NoDup names ->
  (forall f, f ∈ names -> is_Some (cur !! f)) ->
  registered (state s) = true ->
  isProcessingMessages s = true ->
  inbox_dir (disk s) !! owner = Some cur ->
  exists s',
    forEachP names (processFile (processInbox (S fuel) cb) cb owner) s = Some (tt, s')
    /\ trace s' = trace s ++ flat_map (file_effects owner cur) names
    /\ state s' = foldl (fun st m => recordMessage m st) (state s)
                    (omap (parsed cur) names)
    /\ inbox_dir (disk s') !! owner = Some (remove_all names cur)
    /\ isProcessingMessages s' = true.
Proof.
  induction names as [|f names IH]; intros cur s Hnd Hall Hreg Hbusy Hin.
  - exists s. cbn. rewrite app_nil_r. by repeat split.
  - apply NoDup_cons in Hnd as [Hf Hnd].
    destruct (processFile_run fuel cb owner f cur s Hreg Hbusy Hin)
      as (s1 & Hrun & Htr & Hst & Hin1 & Hbusy1 & _).
    { apply Hall, elem_of_cons. by left. }
    assert (registered (state s1) = true) as Hreg1.
    { rewrite Hst. destruct (parsed cur f); [|done].
      by rewrite (proj1 (recordMessage_identity _ _)). }
    destruct (IH (delete f cur) s1 Hnd) as (s' & Hloop & Htr' & Hst' & Hin' & Hbusy');
      try done.
    { intros g Hg. rewrite lookup_delete_ne by (intros ->; done).
      apply Hall, elem_of_cons. by right. }
    exists s'. split; [|split; [|split; [|split]]]; try done.
    + cbn [forEachP]. unfold bindP. by rewrite Hrun.
    + rewrite Htr', Htr. cbn [flat_map]. rewrite <- app_assoc. do 2 f_equal.
      by apply effects_delete.
    + rewrite Hst', Hst, (messages_delete cur f names Hf). cbn [omap list_omap].
      destruct (parsed cur f); reflexivity.
Qed.

(** *** The listing *)

Lemma elem_of_pendingFiles (files : gmap string (JsonFile MeshMessage)) (f : string) :
  f ∈ pendingFiles files <-> endsWith f ".json" = true /\ is_Some (files !! f).
Proof.
  unfold pendingFiles. rewrite merge_sort_Permutation, list_elem_of_filter.
  rewrite list_elem_of_fmap. split.
  - intros [Hj [[g c] [-> H%elem_of_map_to_list]]]. split; [done|]. by exists c.
  - intros [Hj [c Hc]]. split; [done|]. exists (f, c). split; [done|].
    by apply elem_of_map_to_list.
Qed.

Lemma NoDup_pendingFiles (files : gmap string (JsonFile MeshMessage)) :
  NoDup (pendingFiles files).
Proof.
  unfold pendingFiles. rewrite merge_sort_Permutation.
  apply NoDup_filter, NoDup_fst_map_to_list.
Qed.

Lemma sorted_pendingFiles (files : gmap string (JsonFile MeshMessage)) :
  StronglySorted String.le (pendingFiles files).
Proof. apply StronglySorted_merge_sort; apply _. Qed.

Lemma lookup_remove_all (names : list string)
    (files : gmap string (JsonFile MeshMessage)) (g : string) :
  remove_all names files !! g = if decide (g ∈ names) then None else files !! g.
Proof.
  revert files. induction names as [|f names IH]; intros files.
  - cbn. by rewrite decide_False by apply not_elem_of_nil.
  - change (remove_all (f :: names) files) with (remove_all names (delete f files)).
    rewrite IH. destruct (decide (g ∈ names)) as [Hin|Hin].
    + rewrite decide_True; [done|]. apply elem_of_cons. by right.
    + destruct (decide (g = f)) as [->|Hne].
      * rewrite lookup_delete_eq, decide_True; [done|]. apply elem_of_cons. by left.
      * rewrite lookup_delete_ne by done. rewrite decide_False; [done|].
        by intros [?|?]%elem_of_cons.
Qed.

Lemma lookup_after (files : gmap string (JsonFile MeshMessage)) (g : string) :
  remove_all (pendingFiles files) files !! g
  = if endsWith g ".json" then None else files !! g.
Proof.
  rewrite lookup_remove_all.
  destruct (decide (g ∈ pendingFiles files)) as [Hin|Hin].
  - apply elem_of_pendingFiles in Hin as [-> _]. done.
  - destruct (endsWith g ".json") eqn:Hj; [|done].
    destruct (files !! g) eqn:Hg; [|done].
    exfalso. apply Hin, elem_of_pendingFiles. by rewrite Hg.
Qed.

Lemma pendingFiles_after (files : gmap string (JsonFile MeshMessage)) :
  pendingFiles (remove_all (pendingFiles files) files) = [].
Proof.
  destruct (pendingFiles (remove_all _ _)) as [|f l] eqn:Hl; [done|].
  assert (f ∈ pendingFiles (remove_all (pendingFiles files) files)) as Hf
    by (rewrite Hl; apply elem_of_cons; by left).
  apply elem_of_pendingFiles in Hf as [Hj [c Hc]].
  rewrite lookup_after, Hj in Hc. done.
Qed.

(** *** A call that finds nothing *)

Lemma idle_run (fuel : nat) (cb : Callback) (s : Sys)
    (rest : gmap string (JsonFile MeshMessage)) :
  registered (state s) = true ->
  isProcessingMessages s = false ->
  pendingProcessArgs s = None ->
  inbox_dir (disk s) !! agentName (state s) = Some rest ->
  pendingFiles rest = [] ->
  exists s',
    processInbox (S fuel) cb s = Some (tt, s')
    /\ trace s' = trace s /\ state s' = state s /\ disk s' = disk s
    /\ isProcessingMessages s' = false /\ pendingProcessArgs s' = None.
Proof.
  intros Hreg Hbusy Hpend Hin Hnone.
  cbn [processInbox]. unfold bindP, lift, gets, modify, retP.
  rewrite Hreg. cbn [negb]. rewrite Hbusy. cbn. rewrite Hin, Hnone. cbn.
  rewrite Hpend. eexists. split; [reflexivity|]. by repeat split.
Qed.

(** *** The bookkeeping *)

Lemma unread_recordMessage (m : MeshMessage) (st : MeshState) (sender : string) :
  default 0 (unreadCounts (recordMessage m st) !! sender)
  = default 0 (unreadCounts st !! sender) + (if decide (from m = sender) then 1 else 0).
Proof.
  destruct st. unfold recordMessage. cbn.
  destruct (decide (from m = sender)) as [->|Hne].
  - by rewrite lookup_insert_eq.
  - rewrite lookup_insert_ne by done. lia.
Qed.

Lemma unread_record_all (msgs : list MeshMessage) (st : MeshState) (sender : string) :
  default 0 (unreadCounts (record_all msgs st) !! sender)
  = default 0 (unreadCounts st !! sender)
    + Z.of_nat (length (from_sender sender msgs)).
Proof.
  revert st. induction msgs as [|m msgs IH]; intros st; [cbn; lia|].
  change (record_all (m :: msgs) st) with (record_all msgs (recordMessage m st)).
  rewrite IH, unread_recordMessage. unfold from_sender.
  destruct (decide (from m = sender)) as [Heq|Hne].
  - rewrite filter_cons_True by done. cbn [length]. lia.
  - rewrite filter_cons_False by done. lia.
Qed.

Lemma history_recordMessage (m : MeshMessage) (st : MeshState) (sender : string) :
  chatHistory (recordMessage m st) !! sender
  = if decide (from m = sender)
    then Some (pushHistory (default [] (chatHistory st !! sender)) m)
    else chatHistory st !! sender.
Proof.
  destruct st. unfold recordMessage. cbn.
  destruct (decide (from m = sender)) as [->|Hne].
  - by rewrite lookup_insert_eq.
  - by rewrite lookup_insert_ne.
Qed.

Lemma history_record_all (msgs : list MeshMessage) (st : MeshState) (sender : string) :
  chatHistory (record_all msgs st) !! sender
  = match from_sender sender msgs with
    | [] => chatHistory st !! sender
    | ms => Some (foldl pushHistory (default [] (chatHistory st !! sender)) ms)
    end.
Proof.
  revert st. induction msgs as [|m msgs IH]; intros st; [done|].
  change (record_all (m :: msgs) st) with (record_all msgs (recordMessage m st)).
  rewrite IH, history_recordMessage. unfold from_sender.
  destruct (decide (from m = sender)) as [Heq|Hne].
  - rewrite filter_cons_True by done. cbn [default].
    by destruct (filter _ msgs).
  - by rewrite filter_cons_False by done.
Qed.

Lemma pushHistory_drop (h : list MeshMessage) (m : MeshMessage) :
  exists j : nat,
    pushHistory h m = drop j (h ++ [m])
    /\ (j <= 1)%nat
    /\ ((length (h ++ [m]) <= 50)%nat -> j = 0%nat)
    /\ ((length h <= 50)%nat -> (length (pushHistory h m) <= 50)%nat).
Proof.
  unfold pushHistory. rewrite length_app. cbn [length].
  destruct (Z.ltb_spec 50 (Z.of_nat (length h + 1))) as [Hbig|Hsmall].
  - exists 1%nat. split; [|split; [lia|split; [lia|]]].
    + by destruct (h ++ [m]).
    + intros Hh. destruct h as [|x h]; cbn in *; [lia|].
      rewrite length_app. cbn. lia.
  - exists 0%nat. split; [done|]. split; [lia|]. split; [done|].
    intros _. rewrite length_app. cbn. lia.
Qed.

(** The bounded history: the new messages go to the end in order, and
    one entry is dropped at the front for each push that makes 51. *)
Lemma pushHistory_all (ms h : list MeshMessage) :
  exists k : nat,
    foldl pushHistory h ms = drop k (h ++ ms)
    /\ (k <= length ms)%nat
    /\ ((length (h ++ ms) <= 50)%nat -> k = 0%nat)
    /\ ((length h <= 50)%nat -> (length (foldl pushHistory h ms) <= 50)%nat).
Proof.
  revert h. induction ms as [|m ms IH]; intros h.
  - exists 0%nat. cbn. rewrite app_nil_r. repeat split; auto.
  - cbn [foldl].
    destruct (pushHistory_drop h m) as (j & Hj & Hj1 & Hj0 & Hjlen).
    destruct (IH (pushHistory h m)) as (k & Hk & Hle & Hzero & Hlen).
    exists (j + k)%nat. split; [|split; [|split]].
    + rewrite Hk, Hj.
      replace (h ++ m :: ms) with ((h ++ [m]) ++ ms) by (by rewrite <- app_assoc).
      rewrite <- drop_drop. f_equal. symmetry. apply drop_app_le.
      rewrite length_app. cbn. lia.
    + cbn. lia.
    + intros Hall. rewrite length_app in Hall. cbn [length] in Hall.
      assert (j = 0%nat) as -> by (apply Hj0; rewrite length_app; cbn; lia).
      rewrite Hj, drop_0 in Hzero.
      rewrite Hzero; [done|]. rewrite !length_app. cbn [length]. lia.
    + intros Hh. auto.
Qed.

Lemma record_all_identity (msgs : list MeshMessage) (st : MeshState) :
  registered (record_all msgs st) = registered st
  /\ agentName (record_all msgs st) = agentName st.
Proof.
  revert st. induction msgs as [|m msgs IH]; intros st; [done|].
  change (record_all (m :: msgs) st) with (record_all msgs (recordMessage m st)).
  destruct (IH (recordMessage m st)) as [-> ->]. apply recordMessage_identity.
Qed.

(** *** The whole scan *)

(** C7. For a registered agent that is not in the middle of a scan, one
    call of [processInbox] returns, whatever the callback does (return,
    throw, or call [processInbox] again).  The pending files are the
    [.json] files of the inbox in sorted order, each once.  The effects
    of the call are, file by file in that order: for a file that parses,
    one delivery of its message and then the deletion of the file; for a
    file that does not parse, the deletion alone.  Every parsed message is
    counted once in its sender's unread counter and appended, in order,
    to its sender's history (which drops entries at the front beyond 50).
    Afterwards no [.json] file is left, the other files are as before,
    and a second call delivers and records nothing. *)
Theorem processInbox_delivers (fuel : nat) (cb : Callback) (s : Sys)
    (files : gmap string (JsonFile MeshMessage)) :
  registered (state s) = true ->
  isProcessingMessages s = false ->
  inbox_dir (disk s) !! agentName (state s) = Some files ->
  let owner := agentName (state s) in
  let names := pendingFiles files in
  let msgs := omap (parsed files) names in
  (StronglySorted String.le names /\ NoDup names
   /\ (forall f, f ∈ names <-> endsWith f ".json" = true /\ is_Some (files !! f)))
  /\ (forall f m, files !! f = Some (Parsed m) ->
        file_effects owner files f = [Delivered m; InboxUnlinked owner f])
  /\ (forall f, files !! f = Some Malformed ->
        file_effects owner files f = [InboxUnlinked owner f])
  /\ exists s',
      processInbox (S (S fuel)) cb s = Some (tt, s')
      /\ trace s' = trace s ++ flat_map (file_effects owner files) names
      /\ state s' = record_all msgs (state s)
      /\ (forall sender,
            default 0 (unreadCounts (state s') !! sender)
            = default 0 (unreadCounts (state s) !! sender)
              + Z.of_nat (length (from_sender sender msgs)))
      /\ (forall sender, from_sender sender msgs <> [] ->
            let before := default [] (chatHistory (state s) !! sender) in
            exists k : nat,
              chatHistory (state s') !! sender
                = Some (drop k (before ++ from_sender sender msgs))
              /\ (k <= length (from_sender sender msgs))%nat
              /\ ((length (before ++ from_sender sender msgs) <= 50)%nat -> k = 0%nat))
      /\ (forall f, default ∅ (inbox_dir (disk s') !! owner) !! f
                    = if endsWith f ".json" then None else files !! f)
      /\ isProcessingMessages s' = false
      /\ exists s'',
           processInbox (S (S fuel)) cb s' = Some (tt, s'')
           /\ trace s'' = trace s' /\ state s'' = state s' /\ disk s'' = disk s'.
Proof.
  intros Hreg Hidle Hin owner names msgs.
  split; [|split; [|split]].
  { split; [apply sorted_pendingFiles|].
    split; [apply NoDup_pendingFiles | apply elem_of_pendingFiles]. }
  { intros f m Hf. unfold file_effects, parsed. by rewrite Hf. }
  { intros f Hf. unfold file_effects, parsed. by rewrite Hf. }
  (* the loop, run from the state in which the flag is set *)
  destruct (loop_run fuel cb owner names files (with_processing true s))
    as (s1 & Hloop & Htr1 & Hst1 & Hin1 & Hbusy1).
  { apply NoDup_pendingFiles. }
  { intros f Hf. by apply elem_of_pendingFiles in Hf as [_ ?]. }
  { by destruct s. }
  { by destruct s. }
  { by destruct s. }
  assert (registered (state s1) = true /\ agentName (state s1) = owner) as [Hreg1 Hown1].
  { rewrite Hst1. fold (record_all (omap (parsed files) names) (state (with_processing true s))).
    destruct (record_all_identity (omap (parsed files) names)
                (state (with_processing true s))) as [-> ->].
    by destruct s. }
  (* what the [finally] block finds *)
  assert (exists s',
    processInbox (S (S fuel)) cb s = Some (tt, s')
    /\ trace s' = trace s1 /\ state s' = state s1 /\ disk s' = disk s1
    /\ isProcessingMessages s' = false /\ pendingProcessArgs s' = None) as Hrun.
  { remember (S fuel) as n eqn:Hn. cbn [processInbox]. subst n.
    unfold bindP at 1. unfold lift at 1, gets at 1.
    rewrite Hreg. cbn [negb]. unfold bindP at 1. unfold lift at 1, gets at 1.
    rewrite Hidle. unfold bindP at 1. unfold lift at 1, modify at 1.
    unfold bindP at 1. unfold bindP at 1. unfold lift at 1, gets at 1.
    replace (disk (with_processing true s)) with (disk s) by (by destruct s).
    rewrite Hin. fold names. fold owner.
    rewrite Hloop. unfold bindP at 1. unfold lift at 1, modify at 1.
    unfold bindP at 1. unfold lift at 1, gets at 1.
    replace (pendingProcessArgs (with_processing false s1))
      with (pendingProcessArgs s1) by (by destruct s1).
    destruct (pendingProcessArgs s1) as [args|] eqn:Hpend.
    - unfold bindP at 1. unfold lift at 1, modify at 1.
      destruct (idle_run fuel args (with_pending None (with_processing false s1))
                  (remove_all names files))
        as (s2 & Hrun2 & Htr2 & Hst2 & Hd2 & Hidle2 & Hpend2).
      { by destruct s1. }
      { by destruct s1. }
      { by destruct s1. }
      { destruct s1; cbn in *. by rewrite Hown1. }
      { apply pendingFiles_after. }
      exists s2. split; [exact Hrun2|]. rewrite Htr2, Hst2, Hd2.
      by destruct s1.
    - exists (with_processing false s1). split; [reflexivity|].
      destruct s1; cbn in *. by repeat split. }
  destruct Hrun as (s' & Hrun & Htr' & Hst' & Hd' & Hidle' & Hpend').
  exists s'. split; [exact Hrun|].
  assert (state s' = record_all msgs (state s)) as Hstate.
  { rewrite Hst', Hst1. by destruct s. }
  split; [rewrite Htr', Htr1; by destruct s|].
  split; [exact Hstate|].
  split; [intros sender; rewrite Hstate; apply unread_record_all|].
  split.
  { intros sender Hsome before. rewrite Hstate, history_record_all.
    destruct (pushHistory_all (from_sender sender msgs) before)
      as (k & Hk & Hle & Hzero & _).
    exists k. destruct (from_sender sender msgs) eqn:Hfs; [done|].
    rewrite <- Hk. done. }
  split.
  { intros f. rewrite Hd', Hin1. cbn [default]. apply lookup_after. }
  split; [exact Hidle'|].
  destruct (idle_run (S fuel) cb s' (remove_all names files))
    as (s'' & Hrun'' & Htr'' & Hst'' & Hd'' & _).
  { by rewrite Hst'. }
  { exact Hidle'. }
  { exact Hpend'. }
  { by rewrite Hd', Hst', Hown1. }
  { apply pendingFiles_after. }
  by exists s''.
Qed.

Lemma processInbox_delivers_witness :
  exists s',
    processInbox 2 eager waiting = Some (tt, s')
    /\ trace s'
       = [ Delivered hello; InboxUnlinked "zero-1" "1767225601000-a1b2c3.json";
           InboxUnlinked "zero-1" "1767225602000-zzzzzz.json";
           Delivered urgent_stop; InboxUnlinked "zero-1" "1767225603000-c3d4e5.json" ]
    /\ default 0 (unreadCounts (state s') !! "zero-2") = 1
    /\ default ∅ (inbox_dir (disk s') !! "zero-1") !! "notes.txt" = Some Malformed.
Proof.
  pose (files :=
    <[ "1767225603000-c3d4e5.json" := Parsed urgent_stop ]>
      (<[ "1767225602000-zzzzzz.json" := Malformed ]>
         (<[ "1767225601000-a1b2c3.json" := Parsed hello ]>
            ({[ "notes.txt" := Malformed ]} : gmap string (JsonFile MeshMessage))))).
  destruct (processInbox_delivers 0 eager waiting files)
    as (_ & _ & _ & s' & Hrun & Htr & _ & Hunread & _ & Hleft & _).
  - reflexivity.
  - reflexivity.
  - vm_compute. reflexivity.
  - exists s'. split; [exact Hrun|].
    split; [rewrite Htr; vm_compute; reflexivity|].
    split; [rewrite Hunread; vm_compute; reflexivity|].
    change "zero-1" with (agentName (state waiting)).
    rewrite Hleft. vm_compute. reflexivity.
Defined.

End InboxFacts.

(** ** Reserving and releasing *)

Module ReservationOpsFacts.
Import Js JsText Types Sys Registry Feed Reservations ReservationOps JsFacts.

Lemma set_model_same (st : MeshState) : set_model (model st) st = st.
Proof. by destruct st. Qed.

(** [updateRegistration] in full: the disk, the log, and what it leaves
    of the session. *)
Lemma updateRegistration_effect (env : Env) (s : Sys) :
  exists s',
    updateRegistration env s = (tt, s')
    /\ disk s' = synced env (state s) (disk s)
    /\ (exists m, state s' = set_model m (state s))
    /\ trace s' = trace s ++ sync_write env (state s) (disk s).
Proof.
  unfold updateRegistration, synced, sync_write, bind, gets, ret.
  destruct (registered (state s)) eqn:Hreg; cbn [negb].
  - unfold recordExists, readRecord, writeRecord, modify.
    destruct s as [st c b p pe t1 t2 t3 [reg inbox feed] tr]. cbn in *.
    destruct reg as [m|]; cbn.
    + destruct (m !! recordFile (agentName st)) as [[|r]|] eqn:Hm; cbn.
      * eexists. split; [reflexivity|]. cbn. rewrite app_nil_r.
        split; [done|]. split; [|done]. exists (model st). by rewrite set_model_same.
      * eexists. split; [reflexivity|]. cbn.
        split; [done|]. split; [|done]. by eexists.
      * eexists. split; [reflexivity|]. cbn. rewrite app_nil_r.
        split; [done|]. split; [|done]. exists (model st). by rewrite set_model_same.
    + eexists. split; [reflexivity|]. cbn. rewrite app_nil_r.
      split; [done|]. split; [|done]. exists (model st). by rewrite set_model_same.
  - eexists. split; [reflexivity|]. rewrite app_nil_r.
    split; [done|]. split; [|done]. exists (model (state s)). by rewrite set_model_same.
Qed.


Lemma addReservation_run (env : Env) (p : string) (reason : option string) (s : Sys) :
  valid (validateReservation p) = true ->
  let st1 := set_reservations (reserved env p reason (reservations (state s))) (state s) in
  let ev := mkEvent (Date_toISOString env) (agentName (state s)) reserve (Some p) reason in
  exists s' m,
    addReservation env p reason s = (validateReservation p, s')
    /\ state s' = set_model m st1
    /\ disk s' = append_line ev (synced env st1 (disk s))
    /\ trace s' = trace s ++ sync_write env st1 (disk s) ++ [FeedAppended ev].
Proof.
  intros Hvalid st1 ev. unfold addReservation. rewrite Hvalid. cbn [negb].
  unfold bind at 1. unfold modify at 1.
  destruct (updateRegistration_effect env
              (with_state (fun st => set_reservations
                 (reserved env p reason (reservations st)) st) s))
    as (s2 & Hrun & Hdisk & [m Hst] & Htr).
  unfold bind at 1. rewrite Hrun.
  unfold bind, gets, logEvent, appendEvent, modify, ret. cbn [fst snd].
  exists (emit (FeedAppended
            (mkEvent (Date_toISOString env) (agentName (state s2)) reserve (Some p) reason))
            (with_disk (append_line
               (mkEvent (Date_toISOString env) (agentName (state s2)) reserve (Some p) reason))
               s2)), m.
  assert (agentName (state s2) = agentName (state s)) as Hname.
  { rewrite Hst. by destruct s as [[]]. }
  rewrite Hname. split; [reflexivity|].
  destruct s2 as [st2 c2 b2 p2 pe2 a2 b2' c2' d2 tr2]. cbn in *.
  subst st2 d2 tr2. destruct s as [st c b q pe t1 t2 t3 d tr]. cbn.
  split; [done|]. split; [done|]. by rewrite <- app_assoc.
Qed.

Lemma addReservation_invalid (env : Env) (p : string) (reason : option string) (s : Sys) :
  valid (validateReservation p) = false ->
  addReservation env p reason s = (mkValidation false None, s).
Proof.
  intros H. unfold addReservation. rewrite H. cbn [negb]. unfold ret. f_equal.
  unfold validateReservation in *.
  destruct (_ || _); [done|]. destruct (_ || _); [done|]. by destruct (_ && _).
Qed.

Lemma validate_blank (p : string) :
  valid (validateReservation p) = false <-> trim p = EmptyString.
Proof.
  unfold validateReservation.
  destruct (String.eqb_spec p EmptyString) as [->|Hne]; cbn [orb].
  { done. }
  destruct (String.eqb_spec (trim p) EmptyString) as [He|He]; cbn [valid].
  { done. }
  destruct (_ || _); [done|]. by destruct (_ && _).
Qed.

Lemma elem_of_others (p : string) (r : FileReservation) (rs : list FileReservation) :
  r ∈ others p rs <-> r ∈ rs /\ pattern r <> p.
Proof. unfold others. rewrite list_elem_of_filter. tauto. Qed.

Lemma held_others (p q : string) (rs : list FileReservation) :
  q ∈ pattern <$> others p rs <-> q ∈ pattern <$> rs /\ q <> p.
Proof.
  rewrite !list_elem_of_fmap. split.
  - intros (r & -> & [Hr Hne]%elem_of_others). split; [by exists r|done].
  - intros [(r & -> & Hr) Hne]. exists r. split; [done|]. by apply elem_of_others.
Qed.

Lemma NoDup_held_others (p : string) (rs : list FileReservation) :
  NoDup (pattern <$> rs) -> NoDup (pattern <$> others p rs).
Proof.
  intros H. apply (sublist_NoDup _ (pattern <$> rs)); [exact H|].
  apply fmap_sublist, sublist_filter.
Qed.

Lemma others_absent (p : string) (rs : list FileReservation) :
  p ∉ pattern <$> rs -> others p rs = rs.
Proof.
  induction rs as [|r rs IH]; [done|]. cbn [fmap list_fmap].
  intros [Hne Hrest]%not_elem_of_cons. unfold others.
  rewrite filter_cons_True by congruence. f_equal. by apply IH.
Qed.

Lemma others_length (p : string) (rs : list FileReservation) :
  (length (others p rs) < length rs)%nat <-> p ∈ pattern <$> rs.
Proof.
  induction rs as [|r rs IH]; cbn [fmap list_fmap].
  - cbn. split; [lia|]. by intros ?%elem_of_nil.
  - unfold others in *. pose proof (length_filter (fun r0 => pattern r0 <> p) rs) as Hle.
    destruct (decide (pattern r = p)) as [Heq|Hne].
    + rewrite filter_cons_False by (intros ?; done). cbn [length].
      split; [intros _; apply elem_of_cons; by left | lia].
    + rewrite filter_cons_True by done. cbn [length]. rewrite elem_of_cons.
      split; [intros ?; right; apply IH; lia | intros [?|?]; [congruence|]].
      apply IH in H. lia.
Qed.

Lemma others_idem (p : string) (rs : list FileReservation) :
  others p (others p rs) = others p rs.
Proof.
  apply others_absent. intros [_ ?]%held_others. done.
Qed.


Lemma set_reservations_same (st : MeshState) : set_reservations (reservations st) st = st.
Proof. by destruct st. Qed.

Lemma with_state_same (s : Sys) : with_state (fun st => st) s = s.
Proof. by destruct s. Qed.

Lemma removeReservation_absent (env : Env) (p : string) (s : Sys) :
  p ∉ held (state s) -> removeReservation env p s = (false, s).
Proof.
  intros Hp. unfold removeReservation, bind, gets, modify, ret. cbn [fst snd].
  replace (state (with_state _ s))
    with (set_reservations (others p (reservations (state s))) (state s))
    by (by destruct s).
  rewrite (others_absent p _ Hp), set_reservations_same.
  replace (reservations (state s)) with (reservations (state s)) by done.
  assert ((length (reservations (state s)) <? length (reservations (state s)))%nat = false)
    as Hlt by (apply Nat.ltb_ge; lia).
  destruct s as [st c b q pe t1 t2 t3 d tr]. cbn in *.
  destruct st; cbn in *. by rewrite Hlt.
Qed.

Lemma removeReservation_run (env : Env) (p : string) (s : Sys) :
  p ∈ held (state s) ->
  let st1 := set_reservations (others p (reservations (state s))) (state s) in
  let ev := mkEvent (Date_toISOString env) (agentName (state s)) release (Some p) None in
  exists s' m,
    removeReservation env p s = (true, s')
    /\ state s' = set_model m st1
    /\ disk s' = append_line ev (synced env st1 (disk s))
    /\ trace s' = trace s ++ sync_write env st1 (disk s) ++ [FeedAppended ev].
Proof.
  intros Hp st1 ev. apply others_length in Hp.
  unfold removeReservation. unfold bind at 1. unfold gets at 1.
  unfold bind at 1. unfold modify at 1. unfold bind at 1. unfold gets at 1.
  replace (reservations (state (with_state _ s)))
    with (others p (reservations (state s))) by (by destruct s as [[]]).
  apply Nat.ltb_lt in Hp. rewrite Hp.
  destruct (updateRegistration_effect env
              (with_state (set_reservations (others p (reservations (state s)))) s))
    as (s2 & Hrun & Hdisk & [m Hst] & Htr).
  unfold bind at 1. rewrite Hrun.
  unfold bind, gets, logEvent, appendEvent, modify, ret. cbn [fst snd].
  assert (agentName (state s2) = agentName (state s)) as Hname.
  { rewrite Hst. by destruct s as [[]]. }
  rewrite Hname. eexists _, m. split; [reflexivity|].
  destruct s2 as [st2 c2 b2 p2 pe2 a2 b2' c2' d2 tr2]. cbn in *.
  subst st2 d2 tr2. destruct s as [st c b q pe t1 t2 t3 d tr]. cbn.
  split; [done|]. split; [done|]. by rewrite <- app_assoc.
Qed.

Lemma removeAll_run (env : Env) (s : Sys) :
  let st1 := set_reservations [] (state s) in
  let events :=
    (fun p => mkEvent (Date_toISOString env) (agentName (state s)) release (Some p) None)
      <$> held (state s) in
  exists s' m,
    removeAllReservations env s = (held (state s), s')
    /\ state s' = set_model m st1
    /\ disk s' = append_lines events (synced env st1 (disk s))
    /\ trace s' = trace s ++ sync_write env st1 (disk s) ++ (FeedAppended <$> events).
Proof.
  intros st1 events. unfold removeAllReservations.
  unfold bind at 1. unfold gets at 1. unfold bind at 1. unfold modify at 1.
  destruct (updateRegistration_effect env (with_state (set_reservations []) s))
    as (s2 & Hrun & Hdisk & [m Hst] & Htr).
  unfold bind at 1. rewrite Hrun. unfold bind at 1.
  rewrite (ShutdownFacts.log_all_run env (agentName (state s))
             (pattern <$> reservations (state s)) s2).
  cbv zeta. unfold ret. fold (held (state s)). fold events.
  eexists _, m. split; [reflexivity|].
  destruct s2 as [st2 c2 b2 p2 pe2 a2 b2' c2' d2 tr2]. cbn in *.
  subst st2 d2 tr2. destruct s as [st c b q pe t1 t2 t3 d tr]. cbn.
  split; [done|]. split; [done|]. by rewrite <- app_assoc.
Qed.

(** *** The registry under feed writes *)

Lemma append_line_registry (e : FeedEvent) (d : Disk) :
  registry_dir (append_line e d) = registry_dir d.
Proof. by destruct d. Qed.

Lemma readRecord_append_lines (events : list FeedEvent) (file : string) (d : Disk) :
  readRecord file (append_lines events d) = readRecord file d.
Proof. unfold readRecord. by rewrite ShutdownFacts.append_lines_registry. Qed.

Lemma readRecord_append_line (e : FeedEvent) (file : string) (d : Disk) :
  readRecord file (append_line e d) = readRecord file d.
Proof. by destruct d. Qed.

Lemma readRecord_synced (env : Env) (st : MeshState) (d : Disk) :
  registered st = true ->
  readRecord (recordFile (agentName st)) (synced env st d)
  = refreshed env st <$> readRecord (recordFile (agentName st)) d.
Proof.
  intros Hreg. unfold synced. rewrite Hreg.
  destruct (readRecord (recordFile (agentName st)) d) as [reg|] eqn:Hr; [|by rewrite Hr].
  unfold readRecord in *. destruct d as [[m|] inbox feed]; cbn in *; [|done].
  by rewrite lookup_insert_eq.
Qed.

Lemma readRecord_synced_ne (env : Env) (st : MeshState) (d : Disk) (file : string) :
  file <> recordFile (agentName st) ->
  readRecord file (synced env st d) = readRecord file d.
Proof.
  intros Hne. unfold synced. destruct (registered st); [|done].
  destruct (readRecord (recordFile (agentName st)) d); [|done].
  by apply RenameFacts.readRecord_insert_ne.
Qed.


Lemma others_none_left (p : string) (rs : list FileReservation) :
  filter (fun r => pattern r = p) (others p rs) = [].
Proof.
  induction rs as [|r rs IH]; [done|]. unfold others in *.
  destruct (decide (pattern r = p)) as [Heq|Hne].
  - by rewrite filter_cons_False by (intros ?; done).
  - rewrite filter_cons_True by done. by rewrite filter_cons_False.
Qed.

(** *** Reserving *)

(** X1. [addReservation] with a blank pattern (empty, or white space
    only) returns invalid and changes nothing.  With any other pattern it
    returns valid and the session then holds the pattern exactly once, as
    its last reservation, with the given reason and the current time; the
    other reservations are kept as they were, in order.  The patterns held
    are the old ones and the new one, and no pattern is held twice if none
    was before. *)
Theorem addReservation_spec (env : Env) (p : string) (reason : option string) (s : Sys) :
  let out := addReservation env p reason s in
  let new := mkReservation p reason (Date_toISOString env) in
  (trim p = EmptyString -> out = (mkValidation false None, s)) /\
  (trim p <> EmptyString ->
     valid out.1 = true
     /\ reservations (state out.2) = others p (reservations (state s)) ++ [new]
     /\ filter (fun r => pattern r = p) (reservations (state out.2)) = [new]
     /\ (forall r, pattern r <> p ->
           (r ∈ reservations (state out.2) <-> r ∈ reservations (state s)))
     /\ (forall q, q ∈ held (state out.2) <-> q = p \/ q ∈ held (state s))
     /\ (NoDup (held (state s)) -> NoDup (held (state out.2)))).
Proof.
  cbv zeta. split.
  - intros Hblank. apply addReservation_invalid. by apply validate_blank.
  - intros Hp.
    assert (valid (validateReservation p) = true) as Hvalid.
    { destruct (valid (validateReservation p)) eqn:Hv; [done|].
      by apply validate_blank in Hv. }
    destruct (addReservation_run env p reason s Hvalid) as (s' & m & Hrun & Hst & _).
    rewrite Hrun. cbn [fst snd]. split; [done|].
    assert (reservations (state s')
            = others p (reservations (state s))
                ++ [mkReservation p reason (Date_toISOString env)]) as Hres.
    { rewrite Hst. by destruct s as [[]]. }
    unfold held. rewrite Hres. split; [done|]. split; [|split; [|split]].
    + rewrite filter_app, others_none_left. by rewrite filter_cons_True.
    + intros r Hr. rewrite elem_of_app, elem_of_others, list_elem_of_singleton.
      split; [intros [[? _]| ->]; done | intros ?; by left].
    + intros q. rewrite fmap_app, elem_of_app, held_others. cbn.
      rewrite list_elem_of_singleton.
      destruct (decide (q = p)); tauto.
    + intros Hnd. rewrite fmap_app. apply NoDup_app.
      split; [by apply NoDup_held_others|].
      split; [|apply NoDup_singleton].
      intros q [_ Hq]%held_others ->%list_elem_of_singleton. done.
Qed.

Lemma addReservation_spec_witness :
  reservations (state (addReservation RenameCase.peer_alive "src/auth/" None
                         RenameCase.two_agents).2)
  = [mkReservation "src/auth/" None "2026-01-01T00:10:00.000Z"].
Proof.
  destruct (addReservation_spec RenameCase.peer_alive "src/auth/" None
              RenameCase.two_agents) as [_ H].
  destruct H as (_ & -> & _); [discriminate|]. reflexivity.
Defined.

(** *** Releasing *)

(** X2. [removeReservation] returns [true] exactly when the session
    holds the pattern.  Afterwards the pattern is not held, and every other
    reservation is kept in order.  When it returns [false] nothing has
    changed: no record is written and no event is logged. *)
Theorem removeReservation_spec (env : Env) (p : string) (s : Sys) :
  let out := removeReservation env p s in
  (out.1 = true <-> p ∈ held (state s))
  /\ reservations (state out.2) = others p (reservations (state s))
  /\ (p ∉ held (state out.2))
  /\ (forall q, q <> p -> (q ∈ held (state out.2) <-> q ∈ held (state s)))
  /\ (out.1 = false -> out.2 = s).
Proof.
  cbv zeta.
  assert (reservations (state (removeReservation env p s).2)
          = others p (reservations (state s))) as Hres.
  { destruct (decide (p ∈ held (state s))) as [Hp|Hp].
    - destruct (removeReservation_run env p s Hp) as (s' & m & -> & Hst & _).
      cbn [snd]. rewrite Hst. by destruct s as [[]].
    - rewrite (removeReservation_absent env p s Hp). cbn [snd].
      symmetry. by apply others_absent. }
  split; [|split; [done|split; [|split]]].
  - destruct (decide (p ∈ held (state s))) as [Hp|Hp].
    + by destruct (removeReservation_run env p s Hp) as (s' & m & -> & _).
    + by rewrite (removeReservation_absent env p s Hp).
  - unfold held. rewrite Hres. by intros [_ ?]%held_others.
  - intros q Hq. unfold held. rewrite Hres, held_others. tauto.
  - destruct (decide (p ∈ held (state s))) as [Hp|Hp].
    + by destruct (removeReservation_run env p s Hp) as (s' & m & -> & _).
    + by rewrite (removeReservation_absent env p s Hp).
Qed.

Lemma removeReservation_spec_witness :
  (removeReservation RenameCase.peer_alive "src/auth/" RenameCase.two_agents).1 = true
  /\ removeReservation RenameCase.peer_alive "src/other/" RenameCase.two_agents
     = (false, RenameCase.two_agents).
Proof.
  split.
  - apply (removeReservation_spec RenameCase.peer_alive "src/auth/" RenameCase.two_agents).
    vm_compute. apply elem_of_cons. by left.
  - destruct (removeReservation_spec RenameCase.peer_alive "src/other/"
                RenameCase.two_agents) as (_ & _ & _ & _ & H).
    rewrite <- (H eq_refl) at 2. reflexivity.
Defined.


(** *** Operations in sequence *)

Lemma in_sync_after (env : Env) (st1 : MeshState) (d : Disk) (m : string) (s' : Sys) :
  registered st1 = true ->
  state s' = set_model m st1 ->
  readRecord (recordFile (agentName st1)) (disk s')
  = readRecord (recordFile (agentName st1)) (synced env st1 d) ->
  in_sync s'.
Proof.
  intros Hreg Hst Hread reg. rewrite Hst.
  replace (agentName (set_model m st1)) with (agentName st1) by (by destruct st1).
  replace (reservations (set_model m st1)) with (reservations st1) by (by destruct st1).
  rewrite Hread, (readRecord_synced env st1 d Hreg).
  destruct (readRecord (recordFile (agentName st1)) d); [|done].
  by intros [= <-].
Qed.

Lemma run_op_invariant (env : Env) (op : Op) (s : Sys) :
  registered (state s) = true ->
  NoDup (held (state s)) ->
  in_sync s ->
  let s' := (run_op env op s).2 in
  registered (state s') = true
  /\ agentName (state s') = agentName (state s)
  /\ NoDup (held (state s'))
  /\ in_sync s'.
Proof.
  intros Hreg Hnd Hsync. cbv zeta. destruct op as [p reason|p|]; unfold run_op, bind, ret.
  - destruct (valid (validateReservation p)) eqn:Hvalid.
    + destruct (addReservation_run env p reason s Hvalid)
        as (s' & m & -> & Hst & Hdisk & _). cbn [fst snd].
      assert (registered (state s') = true) as Hreg'
        by (rewrite Hst; by destruct s as [[]]).
      assert (agentName (state s') = agentName (state s)) as Hname
        by (rewrite Hst; by destruct s as [[]]).
      split; [done|]. split; [done|]. split.
      * unfold held. rewrite Hst.
        replace (reservations (set_model m _))
          with (reserved env p reason (reservations (state s)))
          by (by destruct s as [[]]).
        unfold reserved. rewrite fmap_app. apply NoDup_app.
        split; [by apply NoDup_held_others|].
        split; [|apply NoDup_singleton].
        intros q [_ Hq]%held_others ->%list_elem_of_singleton. done.
      * eapply (in_sync_after env _ (disk s)); [|exact Hst|].
        { by destruct s as [[]]. }
        by rewrite Hdisk, readRecord_append_line.
    + rewrite (addReservation_invalid env p reason s Hvalid). by cbn.
  - destruct (decide (p ∈ held (state s))) as [Hp|Hp].
    + destruct (removeReservation_run env p s Hp) as (s' & m & -> & Hst & Hdisk & _).
      cbn [fst snd].
      split; [rewrite Hst; by destruct s as [[]]|].
      split; [rewrite Hst; by destruct s as [[]]|]. split.
      * unfold held. rewrite Hst.
        replace (reservations (set_model m _))
          with (others p (reservations (state s))) by (by destruct s as [[]]).
        by apply NoDup_held_others.
      * eapply (in_sync_after env _ (disk s)); [|exact Hst|].
        { by destruct s as [[]]. }
        by rewrite Hdisk, readRecord_append_line.
    + rewrite (removeReservation_absent env p s Hp). by cbn.
  - destruct (removeAll_run env s) as (s' & m & -> & Hst & Hdisk & _). cbn [fst snd].
    split; [rewrite Hst; by destruct s as [[]]|].
    split; [rewrite Hst; by destruct s as [[]]|]. split.
    + unfold held. rewrite Hst.
      replace (reservations (set_model m _)) with (@nil FileReservation)
        by (by destruct s as [[]]).
      apply NoDup_nil_2.
    + eapply (in_sync_after env _ (disk s)); [|exact Hst|].
      { by destruct s as [[]]. }
      by rewrite Hdisk, readRecord_append_lines.
Qed.

(** X3. For a registered session that holds no pattern twice and whose
    registry record (if there is one that parses) lists exactly the
    reservations it holds, the same is true after any sequence of
    [addReservation], [removeReservation] and [removeAllReservations]
    calls, and the session is still registered under the same name. *)
Theorem reservations_stay_in_sync (env : Env) (ops : list Op) (s : Sys) :
  registered (state s) = true ->
  NoDup (held (state s)) ->
  in_sync s ->
  let s' := (run_ops env ops s).2 in
  registered (state s') = true
  /\ agentName (state s') = agentName (state s)
  /\ NoDup (held (state s'))
  /\ in_sync s'.
Proof.
  revert s. induction ops as [|op ops IH]; intros s Hreg Hnd Hsync; [done|].
  cbv zeta. unfold run_ops. cbn [forEach]. unfold bind.
  destruct (run_op_invariant env op s Hreg Hnd Hsync) as (Hreg1 & Hname1 & Hnd1 & Hsync1).
  destruct (run_op env op s) as [[] s1]. cbn [snd] in *.
  destruct (IH s1 Hreg1 Hnd1 Hsync1) as (Hreg2 & Hname2 & Hnd2 & Hsync2).
  split; [exact Hreg2|]. split; [by rewrite <- Hname1|]. by split.
Qed.

Lemma reservations_stay_in_sync_witness :
  let ops := [Reserve "src/auth/" (Some "Refactoring auth"); Reserve "pkg.json" None;
              Reserve "src/auth/" None; Release "pkg.json"] in
  in_sync (run_ops RenameCase.peer_alive ops ReserveCase.settled).2
  /\ held (state (run_ops RenameCase.peer_alive ops ReserveCase.settled).2) = ["src/auth/"].
Proof.
  split; [|reflexivity].
  apply (reservations_stay_in_sync RenameCase.peer_alive _ ReserveCase.settled).
  - reflexivity.
  - apply NoDup_nil_2.
  - intros reg. vm_compute. by intros [= <-].
Defined.

(** X4. Reserving a pattern that is not blank and releasing it again
    leaves the session with the reservations it had for the other patterns,
    in order: all of them when the pattern was not held before.  The
    release returns [true]. *)
Theorem reserve_then_release (env : Env) (p : string) (reason : option string) (s : Sys) :
  trim p <> EmptyString ->
  let s1 := (addReservation env p reason s).2 in
  let out := removeReservation env p s1 in
  out.1 = true
  /\ reservations (state out.2) = others p (reservations (state s))
  /\ (p ∉ held (state s) -> reservations (state out.2) = reservations (state s)).
Proof.
  intros Hp. cbv zeta.
  assert (valid (validateReservation p) = true) as Hvalid.
  { destruct (valid (validateReservation p)) eqn:Hv; [done|].
    by apply validate_blank in Hv. }
  destruct (addReservation_run env p reason s Hvalid) as (s1 & m & -> & Hst & _).
  cbn [snd].
  assert (reservations (state s1) = reserved env p reason (reservations (state s))) as Hres
    by (rewrite Hst; by destruct s as [[]]).
  assert (p ∈ held (state s1)) as Hheld.
  { unfold held. rewrite Hres. unfold reserved. rewrite fmap_app, elem_of_app.
    right. apply elem_of_cons. by left. }
  destruct (removeReservation_run env p s1 Hheld) as (s2 & m2 & -> & Hst2 & _).
  cbn [fst snd]. split; [done|].
  assert (reservations (state s2) = others p (reservations (state s))) as Hres2.
  { rewrite Hst2.
    replace (reservations (set_model m2 _)) with (others p (reservations (state s1)))
      by (by destruct s1 as [[]]).
    rewrite Hres. unfold reserved, others. rewrite filter_app.
    rewrite filter_cons_False by (intros ?; done). rewrite filter_nil, app_nil_r.
    apply others_idem. }
  split; [done|]. intros Habsent. rewrite Hres2. by apply others_absent.
Qed.

Lemma reserve_then_release_witness :
  reservations
    (state (removeReservation RenameCase.peer_alive "pkg.json"
              (addReservation RenameCase.peer_alive "pkg.json" None
                 RenameCase.two_agents).2).2)
  = reservations (state RenameCase.two_agents).
Proof.
  refine (proj2 (proj2 (reserve_then_release RenameCase.peer_alive "pkg.json" None
                          RenameCase.two_agents _)) _).
  - discriminate.
  - vm_compute. intros [[=]|H]%elem_of_cons. by apply elem_of_nil in H.
Defined.

End ReservationOpsFacts.


(** ** The registry: listing, updating, conflicts *)

Module RegistryOpsFacts.
Import Js Types Sys Registry Reservation RegistryOps JsFacts ActiveAgentsFacts.

(** *** What every query returns *)

Lemma getActiveAgents_others (env : Env) (cacheTtl : Z) (s : Sys) :
  state (getActiveAgents env cacheTtl s).2 = state s
  /\ Forall (fun a => name a <> agentName (state s)) (getActiveAgents env cacheTtl s).1.
Proof.
  assert (forall l : list AgentRegistration,
            Forall (fun a => name a <> agentName (state s))
              (filter (fun a => notSelf (agentName (state s)) a = true) l)) as Hfilter.
  { intros l. apply Forall_forall. intros a [Ha _]%list_elem_of_filter.
    unfold notSelf in Ha. by destruct (String.eqb_spec (name a) (agentName (state s))). }
  destruct (agentsCache s) as [c|] eqn:Hc.
  - destruct (Z.ltb_spec (Date_now env - cache_timestamp c) cacheTtl) as [Hfresh|Hold].
    + unfold getActiveAgents, bind, gets, ret. rewrite Hc.
      apply Z.ltb_lt in Hfresh. rewrite Hfresh. cbn [fst snd]. split; [done|apply Hfilter].
    + destruct (registry_dir (disk s)) as [m|] eqn:Hm.
      * destruct (getActiveAgents_miss env cacheTtl s m) as (s1 & m' & _ & _ & Hsame & _ & ->).
        { unfold cache_miss. rewrite Hc. lia. }
        { done. }
        cbn [fst snd]. split; [|apply Hfilter]. destruct Hsame as [<- _]. by destruct s1.
      * unfold getActiveAgents, bind, gets, ret, modify. rewrite Hc.
        apply Z.ltb_ge in Hold. rewrite Hold. cbn beta iota. rewrite Hm.
        cbn. split; [by destruct s|constructor].
  - destruct (registry_dir (disk s)) as [m|] eqn:Hm.
    + destruct (getActiveAgents_miss env cacheTtl s m) as (s1 & m' & _ & _ & Hsame & _ & ->).
      { unfold cache_miss. by rewrite Hc. }
      { done. }
      cbn [fst snd]. split; [|apply Hfilter]. destruct Hsame as [<- _]. by destruct s1.
    + unfold getActiveAgents, bind, gets, ret, modify. rewrite Hc. cbn beta iota.
      rewrite Hm. cbn. split; [by destruct s|constructor].
Qed.

(** X5. [getAllAgents] lists the caller exactly once and first, as the
    session object describes it (with the process identifier of the calling
    process and an empty session identifier), followed by what
    [getActiveAgents] returns; no later entry carries the caller's name,
    whatever the registry directory or the cache hold under it.  The
    session object is not changed. *)
Theorem getAllAgents_self_once (env : Env) (s : Sys) :
  let out := getAllAgents env s in
  let self := selfRegistration env (state s) in
  out.1 = self :: (getActiveAgents env 1000 s).1
  /\ name self = agentName (state s)
  /\ pid self = process_pid env
  /\ filter (fun a => name a = agentName (state s)) out.1 = [self]
  /\ (forall a, a ∈ out.1 -> name a = agentName (state s) -> a = self)
  /\ state out.2 = state s.
Proof.
  cbv zeta. destruct (getActiveAgents_others env 1000 s) as [Hst Hpeers].
  unfold getAllAgents, bind, gets, ret.
  destruct (getActiveAgents env 1000 s) as [peers s1]. cbn [fst snd] in *.
  rewrite Hst.
  assert (filter (fun a => name a = agentName (state s)) peers = []) as Hnone.
  { clear -Hpeers. induction Hpeers as [|a l Ha _ IH]; [done|].
    by rewrite filter_cons_False. }
  split; [done|]. split; [done|]. split; [done|]. split.
  - rewrite filter_cons_True by done. by rewrite Hnone.
  - split; [|done]. intros a [->|Ha]%elem_of_cons Hname; [done|].
    rewrite Forall_forall in Hpeers. by destruct (Hpeers a Ha).
Qed.


Lemma getAllAgents_self_once_witness :
  name <$> (getAllAgents RenameCase.peer_alive RenameCase.two_agents).1
  = ["zero-1"; "zero-2"]
  /\ forall a, a ∈ (getAllAgents RenameCase.peer_alive RenameCase.two_agents).1 ->
       name a = "zero-1" ->
       a = selfRegistration RenameCase.peer_alive RenameCase.zero1.
Proof.
  split; [vm_compute; reflexivity|].
  apply (getAllAgents_self_once RenameCase.peer_alive RenameCase.two_agents).
Defined.

(** *** Rewriting the caller's record *)

Lemma fileAt_insert_ne (file g : string) (c : JsonFile AgentRegistration) (d : Disk) :
  file <> g -> fileAt g (with_registry (insert file c) d) = fileAt g d.
Proof.
  intros Hne. unfold fileAt. destruct d as [[m|] inbox feed]; cbn; [|done].
  by rewrite lookup_insert_ne.
Qed.

Lemma flush_effect (env : Env) (s : Sys) :
  exists s',
    flushActivityToRegistry env s = (tt, s')
    /\ disk s'
       = (if registered (state s) then
            match readRecord (recordFile (agentName (state s))) (disk s) with
            | Some reg =>
                with_registry
                  (insert (recordFile (agentName (state s)))
                     (Parsed (flushed env (state s) reg))) (disk s)
            | None => disk s
            end
          else disk s)
    /\ (exists m, state s' = set_model m (state s))
    /\ (registered (state s) = false -> s' = s).
Proof.
  unfold flushActivityToRegistry, bind, gets, ret.
  destruct (registered (state s)) eqn:Hreg; cbn [negb].
  - unfold recordExists, readRecord, writeRecord, modify.
    destruct s as [st c b p pe t1 t2 t3 [reg inbox feed] tr]. cbn in *.
    destruct reg as [m|]; cbn.
    + destruct (m !! recordFile (agentName st)) as [[|r]|] eqn:Hm; cbn.
      * eexists. split; [reflexivity|]. cbn. split; [done|]. split; [|done].
        exists (model st). by destruct st.
      * eexists. split; [reflexivity|]. cbn. split; [done|]. split; [|done].
        by eexists.
      * eexists. split; [reflexivity|]. cbn. split; [done|]. split; [|done].
        exists (model st). by destruct st.
    + eexists. split; [reflexivity|]. cbn. split; [done|]. split; [|done].
      exists (model st). by destruct st.
  - eexists. split; [reflexivity|]. split; [done|]. split; [|done].
    exists (model (state s)). by destruct s as [[]].
Qed.

(** X6. [updateRegistration] and [flushActivityToRegistry] touch at
    most one file, the record under the caller's name, and only when the
    caller is registered and that record exists and parses: they never
    create a record and never repair a malformed one.  The record they
    write keeps the owner of the record they read (name, agent type,
    process, session, working directory, start time, branch) and shows the
    session, activity and status message of the session object;
    [updateRegistration] also sets the reservations to those the session
    holds, [flushActivityToRegistry] leaves them as the file has them. *)
Theorem registry_updates_own_record (env : Env) (s : Sys) :
  let own := recordFile (agentName (state s)) in
  let u := (updateRegistration env s).2 in
  let f := (flushActivityToRegistry env s).2 in
  (forall file, file <> own ->
     fileAt file (disk u) = fileAt file (disk s)
     /\ fileAt file (disk f) = fileAt file (disk s))
  /\ inbox_dir (disk u) = inbox_dir (disk s) /\ feed_file (disk u) = feed_file (disk s)
  /\ inbox_dir (disk f) = inbox_dir (disk s) /\ feed_file (disk f) = feed_file (disk s)
  /\ (registered (state s) = false \/ readRecord own (disk s) = None ->
        disk u = disk s /\ disk f = disk s)
  /\ (forall reg,
        registered (state s) = true -> readRecord own (disk s) = Some reg ->
        exists ru rf,
          readRecord own (disk u) = Some ru /\ readRecord own (disk f) = Some rf
          /\ same_owner reg ru /\ same_owner reg rf
          /\ shows (state s) ru /\ shows (state s) rf
          /\ reg_reservations ru = reservationsField (reservations (state s))
          /\ reg_reservations rf = reg_reservations reg).
Proof.
  cbv zeta.
  destruct (ReservationOpsFacts.updateRegistration_effect env s)
    as (u & -> & Hu & _ & _).
  destruct (flush_effect env s) as (f & -> & Hf & _ & _). cbn [snd].
  rewrite Hu, Hf. unfold ReservationOps.synced.
  destruct (registered (state s)) eqn:Hreg.
  - destruct (readRecord (recordFile (agentName (state s))) (disk s)) as [reg|] eqn:Hr.
    + split; [intros file Hne; split; by apply fileAt_insert_ne|].
      split; [by destruct (disk s)|]. split; [by destruct (disk s)|].
      split; [by destruct (disk s)|]. split; [by destruct (disk s)|].
      split; [intros [?|?]; done|].
      intros reg' _ [= <-].
      exists (refreshed env (state s) reg), (flushed env (state s) reg).
      unfold readRecord in *. destruct (disk s) as [[m|] inbox feed]; cbn in *; [|done].
      rewrite !lookup_insert_eq. by repeat split.
    + split; [done|]. split; [done|]. split; [done|]. split; [done|]. split; [done|].
      split; [done|]. intros reg _ [=].
  - split; [done|]. split; [done|]. split; [done|]. split; [done|]. split; [done|].
    split; [done|]. intros reg [=].
Qed.

Lemma registry_updates_own_record_witness :
  exists ru rf,
    readRecord "zero-1.json"
      (disk (updateRegistration RenameCase.peer_alive RenameCase.two_agents).2) = Some ru
    /\ readRecord "zero-1.json"
         (disk (flushActivityToRegistry RenameCase.peer_alive RenameCase.two_agents).2)
       = Some rf
    /\ reg_reservations ru = Some (reservations RenameCase.zero1)
    /\ reg_reservations rf = None.
Proof.
  destruct (registry_updates_own_record RenameCase.peer_alive RenameCase.two_agents)
    as (_ & _ & _ & _ & _ & _ & H).
  destruct (H RenameCase.own_record eq_refl eq_refl)
    as (ru & rf & Hu & Hf & _ & _ & _ & _ & Hru & Hrf).
  exists ru, rf. split; [exact Hu|]. split; [exact Hf|]. split; [exact Hru|exact Hrf].
Defined.


(** *** Conflicts *)

Lemma elem_of_conflictsOf (filePath : string) (a : AgentRegistration)
    (c : ReservationConflict) :
  c ∈ conflictsOf filePath a <->
  exists rs res,
    reg_reservations a = Some rs /\ res ∈ rs
    /\ pathMatchesReservation filePath (pattern res) = true
    /\ c = mkConflict filePath (name a) (pattern res) (reason res) a.
Proof.
  unfold conflictsOf. destruct (reg_reservations a) as [rs|].
  - rewrite list_elem_of_fmap. split.
    + intros (res & -> & [Hm Hres]%list_elem_of_filter). by exists rs, res.
    + intros (rs' & res & [= <-] & Hres & Hm & ->). exists res. split; [done|].
      by apply list_elem_of_filter.
  - split; [by intros ?%elem_of_nil | by intros (? & ? & [=] & _)].
Qed.

Lemma elem_of_getConflicts (env : Env) (filePath : string) (s : Sys)
    (c : ReservationConflict) :
  c ∈ (getConflicts env filePath s).1 <->
  exists a, a ∈ (getActiveAgents env 1000 s).1 /\ c ∈ conflictsOf filePath a.
Proof.
  unfold getConflicts, bind, ret. destruct (getActiveAgents env 1000 s) as [agents s1].
  cbn [fst]. rewrite list_elem_of_bind. split; intros (a & ? & ?); by exists a.
Qed.



End RegistryOpsFacts.


(** ** A reservation as the other agents see it *)

Module VisibilityFacts.
Import Js Types Sys Registry Reservation Feed ReservationOps RegistryOps.
Import JsFacts ActiveAgentsFacts ReservationOpsFacts RegistryOpsFacts.

Lemma recordFile_json (name : string) : endsWith (recordFile name) ".json" = true.
Proof. apply endsWith_app. by exists name. Qed.

Lemma registry_synced (env : Env) (st : MeshState) (d : Disk)
    (m : gmap string (JsonFile AgentRegistration)) (reg : AgentRegistration) :
  registered st = true ->
  registry_dir d = Some m ->
  m !! recordFile (agentName st) = Some (Parsed reg) ->
  registry_dir (synced env st d)
  = Some (<[recordFile (agentName st) := Parsed (refreshed env st reg)]> m).
Proof.
  intros Hreg Hm Hr. unfold synced, readRecord. rewrite Hreg, Hm, Hr.
  destruct d. cbn in *. by rewrite Hm.
Qed.

Lemma readRecord_Some (file : string) (d : Disk) (reg : AgentRegistration) :
  readRecord file d = Some reg ->
  exists m, registry_dir d = Some m /\ m !! file = Some (Parsed reg).
Proof.
  unfold readRecord. destruct (registry_dir d) as [m|]; [|done].
  destruct (m !! file) as [[|r]|] eqn:Hf; try done. intros [= ->]. by exists m.
Qed.

(** An agent that a scan of the directory [m] returns. *)
Lemma scan_returns (env : Env) (s : Sys) (m : gmap string (JsonFile AgentRegistration))
    (file : string) (a : AgentRegistration) :
  cache_miss env 1000 s ->
  registry_dir (disk s) = Some m ->
  endsWith file ".json" = true ->
  m !! file = Some (Parsed a) ->
  isProcessAlive env (pid a) = true ->
  name a <> agentName (state s) ->
  a ∈ (getActiveAgents env 1000 s).1.
Proof.
  intros Hmiss Hm Hjson Hfile Halive Hname.
  destruct (getActiveAgents_miss env 1000 s m Hmiss Hm) as (s1 & m' & _ & _ & _ & _ & ->).
  cbn [fst]. apply list_elem_of_filter. split.
  - unfold notSelf. by destruct (String.eqb_spec (name a) (agentName (state s))).
  - apply list_elem_of_omap. exists file. split.
    + apply elem_of_readdir. by rewrite Hfile.
    + unfold live_record. by rewrite Hjson, Hfile, Halive.
Qed.

(** X8. When a registered agent whose registry record parses reserves
    a pattern that is not blank, its record then lists the reservation, and
    every other process that looks at the same directory tree, does not
    answer from its cache, sees the agent's process alive and has another
    name reports a conflict with that agent, pattern and reason for every
    path the pattern matches. *)
Theorem reservation_visible_to_peers (envA envB : Env) (p : string)
    (reason : option string) (filePath : string) (sA sB : Sys)
    (regA : AgentRegistration) :
  trim p <> EmptyString ->
  registered (state sA) = true ->
  readRecord (recordFile (agentName (state sA))) (disk sA) = Some regA ->
  disk sB = disk (addReservation envA p reason sA).2 ->
  cache_miss envB 1000 sB ->
  isProcessAlive envB (pid regA) = true ->
  name regA <> agentName (state sB) ->
  pathMatchesReservation filePath p = true ->
  exists rec,
    readRecord (recordFile (agentName (state sA))) (disk sB) = Some rec
    /\ same_owner regA rec
    /\ reg_reservations rec = Some (reservations (state (addReservation envA p reason sA).2))
    /\ mkConflict filePath (name regA) p reason rec ∈ (getConflicts envB filePath sB).1.
Proof.
  intros Hp Hreg Hrec Hdisk Hmiss Halive Hname Hmatch.
  assert (valid (validateReservation p) = true) as Hvalid.
  { destruct (valid (validateReservation p)) eqn:Hv; [done|].
    by apply validate_blank in Hv. }
  destruct (addReservation_run envA p reason sA Hvalid) as (s1 & m1 & Hrun & Hst & Hd & _).
  rewrite Hrun in *. cbn [snd] in *.
  set (st1 := set_reservations (reserved envA p reason (reservations (state sA))) (state sA))
    in *.
  assert (registered st1 = true) as Hreg1 by (by destruct sA as [[]]).
  assert (agentName st1 = agentName (state sA)) as Hname1 by (by destruct sA as [[]]).
  assert (reservations (state s1) = reserved envA p reason (reservations (state sA)))
    as Hres by (rewrite Hst; by destruct sA as [[]]).
  destruct (readRecord_Some _ _ _ Hrec) as (m & Hm & Hfile).
  pose proof (registry_synced envA st1 (disk sA) m regA Hreg1 Hm) as Hsync.
  rewrite Hname1 in Hsync. specialize (Hsync Hfile).
  assert (registry_dir (disk sB)
          = Some (<[recordFile (agentName (state sA))
                    := Parsed (refreshed envA st1 regA)]> m)) as HmB.
  { by rewrite Hdisk, Hd, append_line_registry. }
  exists (refreshed envA st1 regA).
  assert (reg_reservations (refreshed envA st1 regA)
          = Some (reserved envA p reason (reservations (state sA)))) as Hlist.
  { cbn. replace (reservations st1)
      with (reserved envA p reason (reservations (state sA))) by (by destruct sA as [[]]).
    unfold reserved. by destruct (others p (reservations (state sA))). }
  split; [|split; [|split]].
  - unfold readRecord. by rewrite HmB, lookup_insert_eq.
  - by repeat split.
  - by rewrite Hlist, Hres.
  - apply elem_of_getConflicts. exists (refreshed envA st1 regA). split.
    + eapply (scan_returns envB sB _ (recordFile (agentName (state sA)))); try done.
      * apply recordFile_json.
      * by rewrite lookup_insert_eq.
    + apply elem_of_conflictsOf.
      exists (reserved envA p reason (reservations (state sA))),
             (mkReservation p reason (Date_toISOString envA)).
      split; [done|]. split; [|done].
      unfold reserved. rewrite elem_of_app. right. apply elem_of_cons. by left.
Qed.

Lemma reservation_visible_to_peers_witness :
  let after :=
    (addReservation RenameCase.peer_alive "src/auth/" (Some "Refactoring auth")
       ReserveCase.settled).2 in
  exists rec,
    mkConflict "src/auth/login.ts" "zero-1" "src/auth/" (Some "Refactoring auth") rec
    ∈ (getConflicts ReserveCase.peer_view "src/auth/login.ts"
         (ReserveCase.peer_on (disk after))).1.
Proof.
  cbv zeta.
  destruct (reservation_visible_to_peers RenameCase.peer_alive ReserveCase.peer_view
              "src/auth/" (Some "Refactoring auth") "src/auth/login.ts"
              ReserveCase.settled
              (ReserveCase.peer_on
                 (disk (addReservation RenameCase.peer_alive "src/auth/"
                          (Some "Refactoring auth") ReserveCase.settled).2))
              RenameCase.own_record)
    as (rec & _ & _ & _ & H).
  - vm_compute. discriminate.
  - reflexivity.
  - vm_compute. reflexivity.
  - exact eq_refl.
  - exact I.
  - vm_compute. reflexivity.
  - vm_compute. discriminate.
  - vm_compute. reflexivity.
  - by exists rec.
Defined.

End VisibilityFacts.


(** ** Joining the mesh *)

Module RegisterFacts.
Import Js Types Sys Registry RegistryOps JsFacts.

Lemma fileAt_ensured (file : string) (d : Disk) : fileAt file (ensured d) = fileAt file d.
Proof.
  unfold fileAt, ensured. destruct (registry_dir d) eqn:Hd; [by rewrite Hd|]. cbn.
  apply lookup_empty.
Qed.

Lemma fileAt_delete_ne (file g : string) (d : Disk) :
  file <> g -> fileAt g (with_registry (delete file) d) = fileAt g d.
Proof.
  intros Hne. unfold fileAt. destruct d as [[m|] inbox feed]; cbn; [|done].
  by rewrite lookup_delete_ne.
Qed.

Lemma heldByOther_spec (env : Env) (file : string) (d : Disk) :
  heldByOther env file d = true <->
  exists r, fileAt file d = Some (Parsed r)
            /\ isProcessAlive env (pid r) = true /\ pid r <> process_pid env.
Proof.
  unfold heldByOther, recordExists, readRecord, fileAt.
  destruct (registry_dir d) as [m|]; cbn; [|split; [done|intros (? & [=] & _)]].
  destruct (m !! file) as [[|r]|]; cbn.
  - split; [done|intros (? & [=] & _)].
  - rewrite andb_true_iff, negb_true_iff, Z.eqb_neq. split.
    + intros [? ?]. by exists r.
    + by intros (? & [= <-] & ? & ?).
  - split; [done|intros (? & [=] & _)].
Qed.


Lemma inbox_ensureInbox (name : string) (s : Sys) :
  is_Some (inbox_dir (disk (ensureInbox name s).2) !! name).
Proof.
  destruct s as [st c b p pe t1 t2 t3 [reg inbox feed] tr]. cbn.
  destruct (inbox !! name) eqn:Hn; [by rewrite Hn|]. by rewrite lookup_insert_eq.
Qed.

(** Every path through [register] for a session that has not joined. *)
Lemma register_outcome (env : Env) (faults : Faults) (gitBranch : option string)
    (s : Sys) :
  registered (state s) = false ->
  let d0 := ensured (disk s) in
  let nm := generateName env (agentType (state s)) d0 in
  let file := recordFile nm in
  exists b s',
    register env faults gitBranch s = (b, s')
    /\ (forall g, g <> file -> fileAt g (disk s') = fileAt g (disk s))
    /\ feed_file (disk s') = feed_file (disk s)
    /\ registered (state s') = b
    /\ (isValidAgentName nm = false \/ heldByOther env file d0 = true ->
          b = false /\ disk s' = d0)
    /\ (b = true ->
          isValidAgentName nm = true /\ heldByOther env file d0 = false
          /\ agentName (state s') = nm
          /\ agentsCache s' = None
          /\ is_Some (inbox_dir (disk s') !! nm)
          /\ exists w, readRecord file (disk s') = Some w /\ pid w = process_pid env
                       /\ (racer faults = None ->
                             w = registration env gitBranch (state s) nm))
    /\ (isValidAgentName nm = true -> heldByOther env file d0 = false ->
        write_throws faults = false -> racer faults = None -> b = true).
Proof.
  intros Hreg. cbv zeta. unfold register. unfold bind at 1. unfold gets at 1.
  rewrite Hreg. unfold bind at 1. unfold ensureDataDirs at 1, modify at 1.
  unfold bind at 1. unfold gets at 1.
  replace (disk (with_disk ensured s)) with (ensured (disk s)) by (by destruct s).
  set (d0 := ensured (disk s)).
  set (nm := generateName env (agentType (state s)) d0). set (file := recordFile nm).
  assert (forall g, fileAt g d0 = fileAt g (disk s)) as Hens
    by (intros g; apply fileAt_ensured).
  assert (feed_file d0 = feed_file (disk s)) as Hfeed0.
  { subst d0. unfold ensured. by destruct (registry_dir (disk s)). }
  destruct (isValidAgentName nm) eqn:Hvalid; cbn [negb].
  2:{ unfold ret. eexists _, _. split; [reflexivity|].
      replace (disk (with_disk ensured s)) with d0 by (by destruct s).
      replace (state (with_disk ensured s)) with (state s) by (by destruct s).
      split; [done|]. split; [done|]. split; [done|]. split; [done|].
      split; [done|]. done. }
  unfold bind at 1. unfold modify at 1.
  destruct (heldByOther env file d0) eqn:Hheld.
  { unfold ret. eexists _, _. split; [reflexivity|].
    replace (disk (with_state (set_agentName nm) (with_disk ensured s))) with d0
      by (by destruct s).
    replace (registered (state (with_state (set_agentName nm) (with_disk ensured s))))
      with (registered (state s)) by (by destruct s as [[]]).
    split; [done|]. split; [done|]. split; [done|]. split; [done|].
    split; [done|]. done. }
  unfold bind at 1.
  set (s1 := (ensureInbox nm (with_state (set_agentName nm) (with_disk ensured s))).2).
  assert (ensureInbox nm (with_state (set_agentName nm) (with_disk ensured s)) = (tt, s1))
    as -> by (by destruct s).
  assert (registry_dir (disk s1) = registry_dir d0 /\ feed_file (disk s1) = feed_file d0
          /\ registered (state s1) = false /\ is_Some (inbox_dir (disk s1) !! nm)
          /\ state s1 = set_agentName nm (state s))
    as (Hreg1 & Hfeed1 & Hregd1 & Hinbox1 & Hst1).
  { split; [|split; [|split; [|split]]]; [| | |apply inbox_ensureInbox|];
      subst s1; destruct s as [[] c b p pe t1 t2 t3 [reg inbox feed] tr]; cbn in *;
      try done. }
  unfold bind at 1.
  destruct (write_throws faults) eqn:Hwt.
  { unfold ret. cbn [negb]. eexists _, _. split; [reflexivity|].
    split; [intros g _; rewrite <- Hens; unfold fileAt; by rewrite Hreg1|].
    split; [congruence|]. split; [done|].
    split; [intros [?|?]; done|]. split; [done|]. done. }
  destruct (registry_dir d0) as [m|] eqn:Hm.
  2:{ exfalso. subst d0. unfold ensured in Hm.
      destruct (registry_dir (disk s)) eqn:Hd; [by rewrite Hd in Hm|done]. }
  unfold writeRecord. rewrite Hreg1. cbn [negb].
  unfold bind at 1.
  set (rec := registration env gitBranch (state s) nm).
  set (s2 := emit (RegistryWritten file rec)
               (with_disk (with_registry (insert file (Parsed rec))) s1)).
  assert (registry_dir (disk s2) = Some (<[file := Parsed rec]> m)
          /\ feed_file (disk s2) = feed_file d0 /\ inbox_dir (disk s2) = inbox_dir (disk s1)
          /\ state s2 = set_agentName nm (state s))
    as (Hreg2 & Hfeed2 & Hinbox2 & Hst2).
  { subst s2. destruct s1 as [st1 c1 b1 p1 pe1 x1 y1 z1 [r1 i1 f1] tr1]. cbn in *.
    by subst. }
  assert (registered (state s2) = false) as Hregd2
    by (rewrite Hst2; by destruct s as [[]]).
  destruct (racer faults) as [[f|]|] eqn:Hracer; unfold interfere, modify, ret;
    unfold bind at 1; unfold bind at 1; unfold gets at 1.
  - (* another process has written the file *)
    replace (readRecord file (disk (with_disk (with_registry (insert file f)) s2)))
      with (match f with Parsed r => Some r | Malformed => None end).
    2:{ unfold readRecord. destruct s2 as [st2 c2 b2 p2 pe2 x2 y2 z2 [r2 i2 f2] tr2].
        cbn in *. subst r2. cbn. rewrite lookup_insert_eq. by destruct f. }
    assert (forall g, g <> file ->
              fileAt g (disk (with_disk (with_registry (insert file f)) s2))
              = fileAt g (disk s)) as Hother.
    { intros g Hg. rewrite <- Hens. unfold fileAt. rewrite Hm.
      destruct s2 as [st2 c2 b2 p2 pe2 x2 y2 z2 [r2 i2 f2] tr2]. cbn in *. subst r2. cbn.
      by rewrite !lookup_insert_ne. }
    assert (feed_file (disk (with_disk (with_registry (insert file f)) s2))
            = feed_file (disk s)) as Hfeed3.
    { rewrite <- Hfeed0, <- Hfeed2. by destruct s2 as [? ? ? ? ? ? ? ? []]. }
    assert (registered (state (with_disk (with_registry (insert file f)) s2)) = false)
      as Hregd3 by (by destruct s2).
    destruct f as [|w].
    { eexists _, _. split; [reflexivity|].
      split; [done|]. split; [done|]. split; [done|]. split; [intros [?|?]; done|].
      split; [done|]. done. }
    destruct (Z.eqb_spec (pid w) (process_pid env)) as [Hpid|Hpid]; cbn [negb].
    + unfold bind, modify, invalidateAgentsCache, modify. cbn [fst snd].
      eexists _, _. split; [reflexivity|].
      destruct s2 as [[] c2 b2 p2 pe2 x2 y2 z2 [r2 i2 f2] tr2]. cbn in *. subst.
      split; [done|]. split; [done|]. split; [done|]. split; [intros [?|?]; done|].
      split; [|done]. intros _. split; [done|]. split; [done|].
      split; [by injection Hst2|]. split; [done|]. split; [done|].
      exists w. cbn. rewrite lookup_insert_eq. done.
    + eexists _, _. split; [reflexivity|].
      split; [done|]. split; [done|]. split; [done|]. split; [intros [?|?]; done|].
      split; [done|]. done.
  - (* another process has removed the file *)
    replace (readRecord file (disk (with_disk (with_registry (delete file)) s2)))
      with (@None AgentRegistration).
    2:{ unfold readRecord. destruct s2 as [st2 c2 b2 p2 pe2 x2 y2 z2 [r2 i2 f2] tr2].
        cbn in *. subst r2. cbn. by rewrite lookup_delete_eq. }
    eexists _, _. split; [reflexivity|].
    replace (registered (state (with_disk (with_registry (delete file)) s2)))
      with (registered (state s2)) by (by destruct s2).
    split.
    { intros g Hg. rewrite <- Hens. unfold fileAt. rewrite Hm.
      destruct s2 as [st2 c2 b2 p2 pe2 x2 y2 z2 [r2 i2 f2] tr2]. cbn in *. subst r2. cbn.
      by rewrite lookup_delete_ne, lookup_insert_ne. }
    split.
    { rewrite <- Hfeed0, <- Hfeed2. by destruct s2 as [? ? ? ? ? ? ? ? []]. }
    split; [done|]. split; [intros [?|?]; done|]. split; [done|]. done.
  - (* nobody interferes *)
    cbn [fst snd].
    replace (readRecord file (disk s2)) with (Some rec)
      by (unfold readRecord; by rewrite Hreg2, lookup_insert_eq).
    assert (pid rec = process_pid env) as Hpid by done.
    rewrite Hpid, Z.eqb_refl. cbn [negb].
    unfold bind, modify, invalidateAgentsCache, modify. cbn [fst snd].
    eexists _, _. split; [reflexivity|].
    split.
    { intros g Hg. rewrite <- Hens. unfold fileAt. rewrite Hm.
      destruct s2 as [st2 c2 b2 p2 pe2 x2 y2 z2 [r2 i2 f2] tr2]. cbn in *. subst r2. cbn.
      by rewrite lookup_insert_ne. }
    split.
    { rewrite <- Hfeed0, <- Hfeed2. by destruct s2 as [? ? ? ? ? ? ? ? []]. }
    split; [by destruct s2 as [[]]|]. split; [intros [?|?]; done|].
    split; [|done]. intros _. split; [done|]. split; [done|].
    split.
    { replace (state (with_cache None (with_state _ s2)))
        with (set_activity
                (mkActivity (Date_toISOString env) (currentActivity (activity (state s2)))
                   (lastToolCall (activity (state s2))))
                (set_gitBranch gitBranch
                   (set_model (default "unknown" (ctx_model env))
                      (set_registered true (state s2))))) by (by destruct s2).
      rewrite Hst2. by destruct s as [[]]. }
    split; [by destruct s2|]. split.
    { replace (inbox_dir (disk (with_cache None (with_state _ s2))))
        with (inbox_dir (disk s2)) by (by destruct s2).
      by rewrite Hinbox2. }
    exists rec. split; [|done].
    replace (disk (with_cache None (with_state _ s2))) with (disk s2) by (by destruct s2).
    unfold readRecord. by rewrite Hreg2, lookup_insert_eq.
Qed.

(** X9. [register] on a session that has joined returns [true] and
    changes nothing.  Otherwise the session is registered afterwards exactly
    when the call returns [true], and then: its name is the one
    [generateName] gives on the directory tree (after the registry directory
    is created), that name is valid, the record under it parses and carries
    the caller's process identifier, the inbox of that name exists and the
    cache is empty.  Whatever the result, every record of a live process
    other than the caller is left as it was, and on success none of them is
    under the caller's name.  When the write does not throw and no other
    process writes in between, the call succeeds exactly when the generated
    name is valid and its record is not held by a live other process. *)
Theorem register_spec (env : Env) (faults : Faults) (gitBranch : option string) (s : Sys) :
  let out := register env faults gitBranch s in
  let nm := generateName env (agentType (state s)) (ensured (disk s)) in
  (registered (state s) = true -> out = (true, s))
  /\ (registered (state s) = false ->
      registered (state out.2) = out.1
      /\ (out.1 = true ->
            agentName (state out.2) = nm
            /\ isValidAgentName nm = true
            /\ agentsCache out.2 = None
            /\ is_Some (inbox_dir (disk out.2) !! nm)
            /\ exists w, readRecord (recordFile nm) (disk out.2) = Some w
                         /\ pid w = process_pid env)
      /\ (forall file r,
            fileAt file (disk s) = Some (Parsed r) ->
            isProcessAlive env (pid r) = true -> pid r <> process_pid env ->
            fileAt file (disk out.2) = Some (Parsed r)
            /\ (out.1 = true -> file <> recordFile (agentName (state out.2))))
      /\ (write_throws faults = false -> racer faults = None ->
            (out.1 = true <->
             isValidAgentName nm = true
             /\ heldByOther env (recordFile nm) (ensured (disk s)) = false))).
Proof.
  cbv zeta. split.
  { intros Hreg. unfold register, bind, gets, ret. by rewrite Hreg. }
  intros Hreg.
  destruct (register_outcome env faults gitBranch s Hreg)
    as (b & s' & -> & Hother & _ & Hregd & Hrefused & Hjoined & Hclean).
  cbv zeta in *. cbn [fst snd].
  split; [done|]. split; [|split].
  - intros ->. destruct (Hjoined eq_refl) as (? & ? & ? & ? & ? & w & ? & ? & _).
    split; [done|]. split; [done|]. split; [done|]. split; [done|]. by exists w.
  - intros file r Hfile Halive Hpid.
    destruct (decide (file = recordFile
                (generateName env (agentType (state s)) (ensured (disk s)))))
      as [->|Hne].
    + assert (heldByOther env
                (recordFile (generateName env (agentType (state s)) (ensured (disk s))))
                (ensured (disk s)) = true) as Hheld.
      { apply heldByOther_spec. exists r. by rewrite fileAt_ensured. }
      destruct Hrefused as [-> ->]; [by right|].
      by rewrite fileAt_ensured.
    + split; [by rewrite Hother|]. intros ->.
      destruct (Hjoined eq_refl) as (_ & _ & -> & _). done.
  - intros Hwt Hracer. split.
    + intros ->. by destruct (Hjoined eq_refl) as (? & ? & _).
    + intros [? ?]. by apply Hclean.
Qed.

Lemma register_spec_witness :
  (register RenameCase.peer_alive RenameCase.no_faults None Scenario.fresh).1 = true
  /\ agentName (state (register RenameCase.peer_alive RenameCase.no_faults None
                         Scenario.fresh).2) = "agent-1".
Proof.
  destruct (register_spec RenameCase.peer_alive RenameCase.no_faults None Scenario.fresh)
    as [_ H].
  destruct (H eq_refl) as (_ & Hjoined & _ & Hiff).
  assert ((register RenameCase.peer_alive RenameCase.no_faults None Scenario.fresh).1
          = true) as Hrun.
  { apply Hiff; [reflexivity|reflexivity|]. split; vm_compute; reflexivity. }
  split; [exact Hrun|]. destruct (Hjoined Hrun) as (-> & _). vm_compute. reflexivity.
Defined.

(** *** Leaving again *)

(** X10. When a session joins and its [register] has not been
    interfered with, and it then leaves by [unregister], the registry
    directory holds every file it held before the two calls, except the
    file under the name the session had taken, which is gone; the session
    is not registered and its cache is empty. *)
Theorem register_then_unregister (env : Env) (gitBranch : option string) (s : Sys) :
  registered (state s) = false ->
  (register env (mkFaults false None) gitBranch s).1 = true ->
  let joined := (register env (mkFaults false None) gitBranch s).2 in
  let s' := (unregister joined).2 in
  registered (state s') = false
  /\ agentsCache s' = None
  /\ (forall file,
        fileAt file (disk s')
        = if decide (file = recordFile (agentName (state joined))) then None
          else fileAt file (disk s))
  /\ inbox_dir (disk s') = inbox_dir (disk joined)
  /\ feed_file (disk s') = feed_file (disk s).
Proof.
  intros Hreg Hrun. cbv zeta.
  destruct (register_outcome env (mkFaults false None) gitBranch s Hreg)
    as (b & j & Hj & Hother & Hfeed & Hregd & _ & Hjoined & _).
  cbv zeta in *. rewrite Hj in *. cbn [fst snd] in *. subst b.
  destruct (Hjoined eq_refl) as (_ & _ & Hname & _ & _ & w & Hw & _).
  rewrite <- Hname in *.
  rewrite (ShutdownFacts.unregister_run j Hregd). cbn [snd].
  assert (recordExists (recordFile (agentName (state j))) (disk j) = true) as ->.
  { clear -Hw. unfold recordExists, readRecord in *.
    destruct (registry_dir (disk j)) as [m|]; [|done].
    by destruct (m !! recordFile (agentName (state j))) as [[]|]. }
  clear Hj Hjoined Hw.
  destruct j as [st c b p pe t1 t2 t3 [reg inbox feed] tr]. cbn in *.
  split; [by destruct st|]. split; [done|]. split; [|done].
  intros file. destruct (decide (file = recordFile (agentName st))) as [->|Hne].
  - unfold fileAt. cbn. destruct reg as [m|]; [|done]. cbn. apply lookup_delete_eq.
  - rewrite <- (Hother file Hne). unfold fileAt. cbn. destruct reg as [m|]; [|done].
    cbn. by rewrite lookup_delete_ne.
Qed.

Lemma register_then_unregister_witness :
  registry_dir
    (disk (unregister (register RenameCase.peer_alive (mkFaults false None) None
                         Scenario.fresh).2).2)
  = Some ∅.
Proof.
  destruct (register_then_unregister RenameCase.peer_alive None Scenario.fresh)
    as (_ & _ & _ & _ & _); [reflexivity|vm_compute; reflexivity|].
  vm_compute. reflexivity.
Defined.

End RegisterFacts.


(** ** Names *)

Module NamingFacts.
Import Js Types Sys Registry RegistryOps JsFacts GenerateNameFacts RegisterFacts.
#[local] Arguments String.append !s1 s2 : simpl nomatch.

Lemma name_char_plain (c : ascii) :
  is_name_char c = true ->
  negb (Ascii.eqb c ".") && negb (Ascii.eqb c "/") && negb (Feed.is_space c) = true.
Proof. destruct c as [[] [] [] [] [] [] [] []]; vm_compute; congruence. Qed.

Lemma name_start_char (c : ascii) : is_name_start c = true -> is_name_char c = true.
Proof. unfold is_name_char. by intros ->. Qed.

Lemma all_chars_impl (p q : ascii -> bool) (s : string) :
  (forall c, p c = true -> q c = true) -> all_chars p s = true -> all_chars q s = true.
Proof.
  intros Hpq. induction s as [|c s IH]; [done|]. simpl.
  intros [Hc Hs]%andb_true_iff. by rewrite (Hpq c Hc), IH.
Qed.

Lemma valid_name_chars (name : string) :
  isValidAgentName name = true ->
  name <> EmptyString /\ (String.length name <= 50)%nat
  /\ all_chars is_name_char name = true.
Proof.
  unfold isValidAgentName. destruct name as [|c rest]; [done|].
  destruct (Nat.ltb_spec 50 (String.length (String c rest))) as [?|Hlen]; [done|].
  intros [Hc Hrest]%andb_true_iff. split; [done|]. split; [done|].
  simpl. by rewrite (name_start_char c Hc), Hrest.
Qed.

Lemma digits_name_chars (i : Z) :
  1 <= i <= 99 ->
  all_chars is_name_char (showZ i) = true /\ (String.length (showZ i) <= 2)%nat.
Proof.
  intros Hi.
  assert (forallb (fun i => all_chars is_name_char (showZ i)
                            && (String.length (showZ i) <=? 2)%nat) (seqZ 1 99) = true)
    as H by (vm_compute; reflexivity).
  rewrite forallb_forall in H.
  specialize (H i). rewrite andb_true_iff, Nat.leb_le in H.
  apply H, list_elem_of_In, elem_of_seqZ. lia.
Qed.

Lemma numberedName_valid (agentType : string) (i : Z) :
  isValidAgentName agentType = true ->
  (String.length agentType <= 47)%nat ->
  1 <= i <= 99 ->
  isValidAgentName (numberedName agentType i) = true.
Proof.
  intros Hvalid Hlen Hi. destruct (digits_name_chars i Hi) as [Hdigits Hshort].
  unfold numberedName, isValidAgentName in *.
  destruct agentType as [|c rest]; [done|]. rewrite str_app_cons.
  destruct (Nat.ltb_spec 50 (String.length (String c rest))) as [?|_]; [done|].
  apply andb_true_iff in Hvalid as [Hc Hrest].
  destruct (Nat.ltb_spec 50 (String.length (String c (rest +:+ "-" +:+ showZ i))))
    as [Hbig|_].
  { simpl in Hbig, Hlen. rewrite !str_app_length in Hbig. simpl in Hbig. lia. }
  rewrite Hc, !all_chars_app, Hrest, Hdigits. reflexivity.
Qed.

(** The loop of [generateName] stops at the first number whose name is
    not held by a live process. *)
Lemma generateName_loop_first_free (env : Env) (agentType : string)
    (m : gmap string (JsonFile AgentRegistration)) (d : Disk) (k : Z) :
  registry_dir d = Some m ->
  no_dot agentType = true ->
  k <= 99 ->
  taken_at env agentType m k = false ->
  forall (count : nat) (i : Z),
    1 <= i <= k -> k - i < Z.of_nat count ->
    (forall j, i <= j < k -> taken_at env agentType m j = true) ->
    generateName_loop env agentType (existingNames (readdir m)) d count i
    = numberedName agentType k.
Proof.
  intros Hd Ha Hk Hfree. induction count as [|count IH]; intros i Hi Hcount Hbelow; [lia|].
  simpl. destruct (decide (i = k)) as [->|Hne].
  - destruct (bool_decide (numberedName agentType k ∈ existingNames (readdir m)));
      [|done].
    simpl. unfold readRecord, taken_at in *. rewrite Hd.
    destruct (m !! recordFile (numberedName agentType k)) as [[|r]|]; try done.
    by rewrite Hfree.
  - assert (taken_at env agentType m i = true) as Htaken by (apply Hbelow; lia).
    unfold taken_at in Htaken.
    destruct (m !! recordFile (numberedName agentType i)) as [[|r]|] eqn:Hr; try done.
    rewrite bool_decide_eq_true_2.
    2: { eapply existing_has; [|done]. apply numberedName_no_dot; [done | lia]. }
    simpl. unfold readRecord. rewrite Hd, Hr, Htaken. simpl.
    apply IH; [lia|lia|]. intros j Hj. apply Hbelow. lia.
Qed.

Lemma generateName_numbered (env : Env) (agentType : string)
    (m : gmap string (JsonFile AgentRegistration)) (d : Disk) (k : Z) :
  PI_AGENT_NAME env = None \/ PI_AGENT_NAME env = Some EmptyString ->
  registry_dir d = Some m -> no_dot agentType = true ->
  1 <= k <= 99 ->
  (forall j, 1 <= j < k -> taken_at env agentType m j = true) ->
  taken_at env agentType m k = false ->
  generateName env agentType d = numberedName agentType k.
Proof.
  intros Hunset Hd Ha Hk Hbelow Hfree. unfold generateName. rewrite Hd.
  rewrite (generateName_loop_first_free env agentType m d k Hd Ha) by (done || lia).
  by destruct Hunset as [-> | ->].
Qed.

(** X11. [generateName] returns the explicit name [PI_AGENT_NAME] when
    one is set and not empty, whatever the registry holds.  Without one it
    returns [type-1] when there is no registry directory, and otherwise,
    for an agent type without a dot, [type-k] for the first [k] from 1 to 99
    whose record is missing, does not parse or belongs to a dead process. *)
Theorem generateName_first_free (env : Env) (agentType : string) (d : Disk) :
  (forall explicit, PI_AGENT_NAME env = Some explicit -> explicit <> EmptyString ->
     generateName env agentType d = explicit)
  /\ (PI_AGENT_NAME env = None \/ PI_AGENT_NAME env = Some EmptyString ->
      (registry_dir d = None -> generateName env agentType d = numberedName agentType 1)
      /\ (forall m k,
            registry_dir d = Some m -> no_dot agentType = true ->
            1 <= k <= 99 ->
            (forall j, 1 <= j < k -> taken_at env agentType m j = true) ->
            taken_at env agentType m k = false ->
            generateName env agentType d = numberedName agentType k)).
Proof.
  split.
  - intros explicit He Hne. unfold generateName. rewrite He.
    by destruct (String.eqb_spec explicit EmptyString).
  - intros Hunset. split.
    + intros Hd. unfold generateName. rewrite Hd. by destruct Hunset as [-> | ->].
    + intros m k Hd Ha Hk Hbelow Hfree. by apply (generateName_numbered env agentType m).
Qed.

Lemma generateName_first_free_witness :
  generateName ReserveCase.peer_view "zero" (disk RenameCase.two_agents) = "zero-3"
  /\ generateName RenameCase.peer_alive "zero" (disk RenameCase.two_agents) = "zero-1".
Proof.
  destruct (generateName_first_free ReserveCase.peer_view "zero"
              (disk RenameCase.two_agents)) as [_ H].
  destruct (H (or_introl eq_refl)) as [_ H1].
  destruct (generateName_first_free RenameCase.peer_alive "zero"
              (disk RenameCase.two_agents)) as [_ H'].
  destruct (H' (or_introl eq_refl)) as [_ H2].
  split.
  - eapply (H1 _ 3); [reflexivity|reflexivity|lia| |reflexivity].
    intros j Hj. assert (j = 1 \/ j = 2) as [-> | ->] by lia; reflexivity.
  - eapply (H2 _ 1); [reflexivity|reflexivity|lia|intros; lia|reflexivity].
Defined.

(** *** Joining under a numbered name *)

Lemma ensured_registry (d : Disk) :
  registry_dir (ensured d) = Some (default ∅ (registry_dir d)).
Proof. unfold ensured. by destruct (registry_dir d) eqn:Hd; [rewrite Hd|]. Qed.

(** X12. A session that has not joined, with no explicit name and a
    valid agent type of at most 47 code units, joins under [type-k] for the
    first [k] from 1 to 99 whose record is missing, does not parse or
    belongs to a dead process, when the write does not throw and no other
    process writes in between: [register] returns [true], the session
    carries that name, and the record under it is the one of the caller
    (process, session and working directory of the caller, no reservations,
    the current time as start and last activity). *)
Theorem register_numbered (env : Env) (gitBranch : option string) (s : Sys) (k : Z) :
  let t := agentType (state s) in
  let m := default ∅ (registry_dir (disk s)) in
  registered (state s) = false ->
  PI_AGENT_NAME env = None \/ PI_AGENT_NAME env = Some EmptyString ->
  isValidAgentName t = true ->
  (String.length t <= 47)%nat ->
  1 <= k <= 99 ->
  (forall j, 1 <= j < k -> taken_at env t m j = true) ->
  taken_at env t m k = false ->
  let out := register env (mkFaults false None) gitBranch s in
  out.1 = true
  /\ registered (state out.2) = true
  /\ agentName (state out.2) = numberedName t k
  /\ readRecord (recordFile (numberedName t k)) (disk out.2)
     = Some (registration env gitBranch (state s) (numberedName t k))
  /\ is_Some (inbox_dir (disk out.2) !! numberedName t k).
Proof.
  intros t m Hreg Hunset Hvalid Hlen Hk Hbelow Hfree. cbv zeta.
  destruct (register_outcome env (mkFaults false None) gitBranch s Hreg)
    as (b & s' & Hrun & _ & _ & Hregd & _ & Hjoined & Hclean).
  cbv zeta in *. rewrite Hrun. cbn [fst snd].
  assert (generateName env t (ensured (disk s)) = numberedName t k) as Hname.
  { apply (generateName_numbered env t m); try done.
    - apply ensured_registry.
    - by apply valid_no_dot. }
  fold t in Hjoined, Hclean. rewrite Hname in *.
  assert (b = true) as ->.
  { apply Hclean; try done.
    - by apply numberedName_valid.
    - destruct (heldByOther env (recordFile (numberedName t k)) (ensured (disk s)))
        eqn:Hheld; [|done].
      apply heldByOther_spec in Hheld as (r & Hr & Halive & _).
      unfold fileAt in Hr. rewrite ensured_registry in Hr. cbn in Hr.
      unfold taken_at in Hfree. fold m in Hr. rewrite Hr in Hfree. congruence. }
  destruct (Hjoined eq_refl) as (_ & _ & ? & _ & ? & w & Hw & _ & Hrec).
  split; [done|]. split; [done|]. split; [done|]. split; [|done].
  by rewrite Hw, (Hrec eq_refl).
Qed.

Lemma register_numbered_witness :
  agentName (state (register ReserveCase.peer_view (mkFaults false None) None
                      (with_state (set_registered false)
                         (ReserveCase.peer_on (disk RenameCase.two_agents)))).2)
  = "zero-3".
Proof.
  refine (proj1 (proj2 (proj2
    (register_numbered ReserveCase.peer_view None
       (with_state (set_registered false)
          (ReserveCase.peer_on (disk RenameCase.two_agents))) 3
       eq_refl (or_introl eq_refl) eq_refl _ _ _ eq_refl)))).
  - vm_compute. lia.
  - lia.
  - intros j Hj. assert (j = 1 \/ j = 2) as [-> | ->] by lia; reflexivity.
Defined.

End NamingFacts.


(** ** Sending *)

Module SendFacts.
Import Js Types Sys Registry Messaging Scan Send RegistryOps JsFacts.
Import InboxFacts RegisterFacts RegistryOpsFacts.

(** *** The recipient check *)

(** X13. [validateRecipient] answers valid exactly when the record under
    the name parses and its process is alive, and then changes nothing.
    A missing record gives [not_found] and a record that does not parse
    gives [invalid_registration], both without a change.  A record of a dead
    process gives [not_active], and that record, and nothing else, is
    deleted. *)
Theorem validateRecipient_spec (env : Env) (name : string) (s : Sys) :
  let out := validateRecipient env name s in
  let file := recordFile name in
  (check_valid out.1 = true <->
   exists r, fileAt file (disk s) = Some (Parsed r) /\ isProcessAlive env (pid r) = true)
  /\ (fileAt file (disk s) = None -> out = (mkCheck false (Some "not_found"), s))
  /\ (fileAt file (disk s) = Some Malformed ->
        out = (mkCheck false (Some "invalid_registration"), s))
  /\ (forall r, fileAt file (disk s) = Some (Parsed r) ->
        if isProcessAlive env (pid r) then out = (mkCheck true None, s)
        else out.1 = mkCheck false (Some "not_active")
             /\ fileAt file (disk out.2) = None
             /\ (forall g, g <> file -> fileAt g (disk out.2) = fileAt g (disk s))
             /\ state out.2 = state s
             /\ inbox_dir (disk out.2) = inbox_dir (disk s)
             /\ feed_file (disk out.2) = feed_file (disk s)).
Proof.
  cbv zeta. unfold validateRecipient, bind, gets, ret, unlinkRecord, recordExists,
    readRecord, fileAt.
  destruct s as [st c b p pe t1 t2 t3 [reg inbox feed] tr]. cbn.
  destruct reg as [m|]; cbn.
  - destruct (m !! recordFile name) as [[|r]|] eqn:Hm; cbn.
    + split; [split; [done|by intros (? & [=] & _)]|]. by repeat split.
    + destruct (isProcessAlive env (pid r)) eqn:Halive; cbn.
      * split; [split; [by exists r|done]|]. split; [done|]. split; [done|].
        intros r' [= <-]. by rewrite Halive.
      * rewrite Hm. cbn.
        split; [split; [done|intros (r' & [= <-] & ?); congruence]|].
        split; [done|]. split; [done|]. intros r' [= <-]. rewrite Halive.
        split; [done|]. split; [apply lookup_delete_eq|].
        split; [intros g Hg; by rewrite lookup_delete_ne|done].
    + split; [split; [done|by intros (? & [=] & _)]|]. by repeat split.
  - split; [split; [done|by intros (? & [=] & _)]|]. by repeat split.
Qed.

Lemma validateRecipient_spec_witness :
  validateRecipient RenameCase.peer_alive "zero-2" RenameCase.two_agents
  = (mkCheck true None, RenameCase.two_agents)
  /\ fileAt "zero-2.json"
       (disk (validateRecipient RenameCase.peer_dead "zero-2" RenameCase.two_agents).2)
     = None.
Proof.
  split.
  - destruct (validateRecipient_spec RenameCase.peer_alive "zero-2" RenameCase.two_agents)
      as (_ & _ & _ & H).
    apply (H RenameCase.other_record). reflexivity.
  - destruct (validateRecipient_spec RenameCase.peer_dead "zero-2" RenameCase.two_agents)
      as (_ & _ & _ & H).
    apply (H RenameCase.other_record). reflexivity.
Defined.

(** *** One scan of an inbox *)



(** *** From one agent to another *)


Lemma sendMessage_run (env : Env) (draw : Draw) (to text : string) (urgent : bool)
    (replyTo : option string) (s : Sys) :
  write_fails draw = false ->
  let msg := mkMessage (uuid draw) (agentName (state s)) to text
               (Date_toISOString env) urgent replyTo in
  exists s',
    sendMessage env draw to text urgent replyTo s = (Some msg, s')
    /\ state s' = state s /\ trace s' = trace s /\ agentsCache s' = agentsCache s
    /\ registry_dir (disk s') = registry_dir (disk s)
    /\ feed_file (disk s') = feed_file (disk s)
    /\ inbox_dir (disk s')
       = <[to := <[messageFile env draw := Parsed msg]>
                   (default ∅ (inbox_dir (disk s) !! to))]> (inbox_dir (disk s)).
Proof.
  intros Hw. cbv zeta. unfold sendMessage, bind, gets, ret, ensureInbox, writeMessage,
    modify. rewrite Hw.
  destruct s as [st c b p pe t1 t2 t3 [reg inbox feed] tr]. cbn.
  eexists. split; [reflexivity|]. cbn. repeat (split; [done|]).
  destruct (inbox !! to) as [files|] eqn:Hto; cbn.
  - by rewrite Hto.
  - rewrite lookup_insert_eq. cbn. by rewrite insert_insert_eq.
Qed.




(** *** To everybody *)

Lemma getActiveAgents_session (env : Env) (cacheTtl : Z) (s : Sys) :
  same_session s (getActiveAgents env cacheTtl s).2.
Proof.
  assert (forall s1 c, same_session s s1 -> same_session s (with_cache c s1)) as Hcache.
  { intros s1 c H. by destruct s1. }
  assert (same_session s s) as Hrefl by done.
  destruct (agentsCache s) as [c|] eqn:Hc.
  - destruct (Z.ltb_spec (Date_now env - cache_timestamp c) cacheTtl) as [Hfresh|Hold].
    + unfold getActiveAgents, bind, gets, ret. rewrite Hc.
      apply Z.ltb_lt in Hfresh. by rewrite Hfresh.
    + destruct (registry_dir (disk s)) as [m|] eqn:Hm.
      * destruct (ActiveAgentsFacts.getActiveAgents_miss env cacheTtl s m)
          as (s1 & m' & _ & _ & Hsame & _ & ->).
        { unfold cache_miss. rewrite Hc. lia. }
        { done. }
        by apply Hcache.
      * unfold getActiveAgents, bind, gets, ret, modify. rewrite Hc.
        apply Z.ltb_ge in Hold. rewrite Hold. cbn beta iota. rewrite Hm.
        by apply Hcache.
  - destruct (registry_dir (disk s)) as [m|] eqn:Hm.
    + destruct (ActiveAgentsFacts.getActiveAgents_miss env cacheTtl s m)
        as (s1 & m' & _ & _ & Hsame & _ & ->).
      { unfold cache_miss. by rewrite Hc. }
      { done. }
      by apply Hcache.
    + unfold getActiveAgents, bind, gets, ret, modify. rewrite Hc. cbn beta iota.
      rewrite Hm. by apply Hcache.
Qed.

Lemma carries_after_send (inbox : gmap string (gmap string (JsonFile MeshMessage)))
    (sender to to' text file : string) (urgent : bool) (msg : MeshMessage) :
  from msg = sender -> Types.to msg = to' -> Types.text msg = text ->
  Types.urgent msg = urgent -> replyTo msg = None ->
  carries inbox sender to text urgent ->
  carries (<[to' := <[file := Parsed msg]> (default ∅ (inbox !! to'))]> inbox)
    sender to text urgent.
Proof.
  intros Hf Ht Hx Hu Hr (files & g & old & Hin & Hg & Hold).
  destruct (decide (to' = to)) as [->|Hne].
  - rewrite Hin. cbn. destruct (decide (file = g)) as [->|Hfile].
    + exists (<[g := Parsed msg]> files), g, msg.
      by rewrite !lookup_insert_eq.
    + exists (<[file := Parsed msg]> files), g, old.
      rewrite lookup_insert_eq, lookup_insert_ne by done. by split.
  - exists files, g, old. rewrite lookup_insert_ne by done. by split.
Qed.

Lemma broadcast_loop_run (env : Env) (text : string) (urgent : bool) :
  forall (peers : list AgentRegistration) (draws : list Draw)
         (messages : list MeshMessage) (s : Sys),
  (length peers <= length draws)%nat ->
  Forall (fun d => write_fails d = false) draws ->
  let sent :=
    zip_with (fun a d => mkMessage (uuid d) (agentName (state s)) (name a) text
                           (Date_toISOString env) urgent None) peers draws in
  exists s',
    broadcast_loop env draws text urgent peers messages s = (Some (messages ++ sent), s')
    /\ state s' = state s /\ trace s' = trace s
    /\ registry_dir (disk s') = registry_dir (disk s)
    /\ feed_file (disk s') = feed_file (disk s)
    /\ (forall a, a ∈ peers ->
          carries (inbox_dir (disk s')) (agentName (state s)) (name a) text urgent)
    /\ (forall owner, owner ∉ name <$> peers ->
          inbox_dir (disk s') !! owner = inbox_dir (disk s) !! owner)
    /\ (forall to, carries (inbox_dir (disk s)) (agentName (state s)) to text urgent ->
          carries (inbox_dir (disk s')) (agentName (state s)) to text urgent).
Proof.
  induction peers as [|a peers IH]; intros draws messages s Hlen Hok.
  - cbn. exists s. rewrite app_nil_r. split; [by destruct draws|].
    do 4 (split; [done|]). split; [by intros a ?%elem_of_nil|]. done.
  - destruct draws as [|d draws]; [cbn in Hlen; lia|].
    apply Forall_cons in Hok as [Hd Hok]. cbn [length] in Hlen.
    cbn [broadcast_loop]. unfold bind at 1.
    destruct (sendMessage_run env d (name a) text urgent None s Hd)
      as (s1 & -> & Hst1 & Htr1 & _ & Hreg1 & Hfeed1 & Hinbox1).
    destruct (IH draws
                (messages ++ [mkMessage (uuid d) (agentName (state s)) (name a) text
                                (Date_toISOString env) urgent None]) s1)
      as (s' & Hrun & Hst & Htr & Hreg & Hfeed & Hall & Hother & Hkeep);
      [lia|done|].
    rewrite Hst1 in *. exists s'. cbn [zip_with]. split.
    { rewrite Hrun. by rewrite <- app_assoc. }
    split; [congruence|]. split; [congruence|]. split; [congruence|].
    split; [congruence|]. split; [|split].
    + intros b [->|Hb]%elem_of_cons; [|by apply Hall].
      apply Hkeep. rewrite Hinbox1.
      eexists _, (messageFile env d), _.
      rewrite !lookup_insert_eq. by repeat split.
    + intros owner Hown. cbn [fmap list_fmap] in Hown.
      apply not_elem_of_cons in Hown as [Hne Hrest].
      rewrite (Hother owner Hrest), Hinbox1. by rewrite lookup_insert_ne.
    + intros to Hto. apply Hkeep. rewrite Hinbox1. by apply carries_after_send.
Qed.

(** X15. [broadcastMessage], given a draw for each agent that
    [getActiveAgents] returns and no failing write, returns one message per
    such agent, in their order, each from the caller to that agent with the
    text and urgency given and no reply reference, and afterwards the inbox
    of each of these agents holds such a message.  No message is addressed
    to the caller, the inbox of every name not among these agents (the
    caller's own in particular) is as it was, and so are the caller's
    session, the log and the feed. *)
Theorem broadcast_reaches_peers (env : Env) (draws : list Draw) (text : string)
    (urgent : bool) (s : Sys) :
  let peers := (getActiveAgents env 1000 s).1 in
  let out := broadcastMessage env draws text urgent s in
  let me := agentName (state s) in
  (length peers <= length draws)%nat ->
  Forall (fun d => write_fails d = false) draws ->
  exists msgs,
    out.1 = Some msgs
    /\ msgs = zip_with (fun a d => mkMessage (uuid d) me (name a) text
                                     (Date_toISOString env) urgent None) peers draws
    /\ length msgs = length peers
    /\ Forall (fun m => to m <> me /\ from m = me) msgs
    /\ (forall a, a ∈ peers -> carries (inbox_dir (disk out.2)) me (name a) text urgent)
    /\ (forall owner, owner ∉ name <$> peers ->
          inbox_dir (disk out.2) !! owner = inbox_dir (disk s) !! owner)
    /\ inbox_dir (disk out.2) !! me = inbox_dir (disk s) !! me
    /\ state out.2 = state s
    /\ feed_file (disk out.2) = feed_file (disk s).
Proof.
  cbv zeta. intros Hlen Hok.
  destruct (getActiveAgents_others env 1000 s) as [_ Hpeers].
  pose proof (getActiveAgents_session env 1000 s) as (Hst1 & Hinbox1 & Hfeed1).
  unfold broadcastMessage, bind.
  destruct (getActiveAgents env 1000 s) as [peers s1]. cbn [fst snd] in *.
  destruct (broadcast_loop_run env text urgent peers draws [] s1 Hlen Hok)
    as (s' & -> & Hst & _ & _ & Hfeed & Hall & Hother & _).
  cbv zeta in *. cbn [fst snd app]. rewrite Hst1 in *.
  assert (agentName (state s) ∉ name <$> peers) as Hme.
  { intros (a & Heq & Ha)%list_elem_of_fmap. rewrite Forall_forall in Hpeers.
    by destruct (Hpeers a Ha). }
  eexists. split; [reflexivity|]. split; [done|]. split; [|split; [|split; [|split]]].
  - rewrite length_zip_with. lia.
  - apply Forall_forall. intros m Hm.
    apply elem_of_lookup_zip_with in Hm as (i & a & d & -> & Ha & _). cbn.
    split; [|done]. rewrite Forall_forall in Hpeers.
    apply Hpeers. by eapply list_elem_of_lookup_2.
  - done.
  - intros owner Hown. by rewrite (Hother owner Hown), Hinbox1.
  - split; [by rewrite (Hother _ Hme), Hinbox1|]. split; [congruence|congruence].
Qed.

Lemma broadcast_reaches_peers_witness :
  (broadcastMessage RenameCase.peer_alive [mkDraw "id-7" "aaaaaa" false] "all hands"
     true RenameCase.two_agents).1
  = Some [mkMessage "id-7" "zero-1" "zero-2" "all hands" "2026-01-01T00:10:00.000Z"
            true None].
Proof.
  destruct (broadcast_reaches_peers RenameCase.peer_alive
              [mkDraw "id-7" "aaaaaa" false] "all hands" true RenameCase.two_agents)
    as (msgs & -> & -> & _).
  - vm_compute. lia.
  - repeat constructor.
  - vm_compute. reflexivity.
Defined.

End SendFacts.


(** ** Slashes and separators *)

Module JsTextFacts.
Import Js JsText JsFacts.
#[local] Arguments String.append !s1 s2 : simpl nomatch.

Lemma strip_cons (c : ascii) (s : string) :
  stripTrailingSlashes s <> EmptyString ->
  stripTrailingSlashes (String c s) = String c (stripTrailingSlashes s).
Proof. simpl. by destruct (stripTrailingSlashes s). Qed.

Lemma strip_app (a b : string) :
  stripTrailingSlashes b <> EmptyString ->
  stripTrailingSlashes (a +:+ b) = a +:+ stripTrailingSlashes b.
Proof.
  intros Hb. induction a as [|c a IH]; [done|].
  rewrite !str_app_cons, strip_cons; [by rewrite IH|]. rewrite IH.
  destruct a; simpl; [done|discriminate].
Qed.

Lemma strip_app_slash (s : string) :
  stripTrailingSlashes (s +:+ "/") = stripTrailingSlashes s.
Proof.
  induction s as [|c s IH]; [done|]. rewrite str_app_cons. simpl. by rewrite IH.
Qed.

Lemma strip_last (s : string) (c : ascii) :
  c <> "/"%char ->
  stripTrailingSlashes (s +:+ String c EmptyString) = s +:+ String c EmptyString.
Proof.
  intros Hc. rewrite strip_app.
  - simpl. by destruct (Ascii.eqb_spec c "/").
  - simpl. by destruct (Ascii.eqb_spec c "/").
Qed.

Lemma strip_idem (s : string) :
  stripTrailingSlashes (stripTrailingSlashes s) = stripTrailingSlashes s.
Proof.
  induction s as [|c s IH]; [done|]. simpl.
  destruct (stripTrailingSlashes s) as [|d r] eqn:Hs.
  - destruct (Ascii.eqb_spec c "/") as [->|Hne]; [done|].
    simpl. by destruct (Ascii.eqb_spec c "/").
  - rewrite strip_cons; [by rewrite IH|]. by rewrite IH.
Qed.

Lemma take_app_length (a b : string) : string_take (String.length a) (a +:+ b) = a.
Proof. induction a as [|c a IH]; simpl; [by destruct b|by rewrite IH]. Qed.

Lemma drop_end_app (a b : string) : drop_end (String.length b) (a +:+ b) = a.
Proof.
  unfold drop_end. rewrite str_app_length.
  replace (String.length a + String.length b - String.length b)%nat
    with (String.length a) by lia.
  apply take_app_length.
Qed.

Lemma startsWith_app (s p : string) :
  startsWith s p = true <-> exists rest, s = p +:+ rest.
Proof. apply prefix_app. Qed.

End JsTextFacts.

(** ** config.ts: auto-register paths *)

Module ConfigFacts.
Import Js JsText Config JsFacts JsTextFacts.
#[local] Arguments String.append !s1 s2 : simpl nomatch.

Section AutoRegister.

Variable join_home : string -> string.

Lemma not_home (p : string) :
  startsWith p "~/" = false -> expandHome join_home p = p.
Proof. unfold expandHome. by intros ->. Qed.

(** A pattern that ends with a star is not changed by stripping. *)
Lemma strip_star (x : string) :
  stripTrailingSlashes (x +:+ "*") = x +:+ "*".
Proof. by apply strip_last. Qed.

Lemma ends_slash_star (x : string) :
  endsWith (x +:+ "*") "/*" = endsWith x "/".
Proof.
  destruct (endsWith x "/") eqn:Hx.
  - apply endsWith_app in Hx as [pre ->]. apply endsWith_app. exists pre.
    by rewrite str_app_assoc.
  - destruct (endsWith (x +:+ "*") "/*") eqn:Hs; [|done].
    apply endsWith_app in Hs as [pre Hpre].
    change "/*" with ("/" +:+ "*") in Hpre. rewrite <- str_app_assoc in Hpre.
    apply str_app_inv_tail in Hpre. subst x.
    assert (endsWith (pre +:+ "/") "/" = true) as H by (apply endsWith_app; by exists pre).
    congruence.
Qed.

Lemma matchesPattern_below (n base : string) :
  startsWith (base +:+ "/*") "~/" = false ->
  matchesPattern join_home n (base +:+ "/*") = true
  <-> n = base \/ exists rest, n = base +:+ "/" +:+ rest.
Proof.
  intros Hhome. unfold matchesPattern. rewrite (not_home _ Hhome).
  change (base +:+ "/*") with (base +:+ ("/" +:+ "*")).
  rewrite <- str_app_assoc, strip_star, ends_slash_star.
  assert (endsWith (base +:+ "/") "/" = true) as -> by (apply endsWith_app; by exists base).
  rewrite str_app_assoc. change ("/" +:+ "*") with "/*".
  change 2%nat with (String.length "/*"). rewrite drop_end_app.
  rewrite orb_true_iff, String.eqb_eq, startsWith_app.
  split; (intros [?|[rest ?]]; [by left|right; exists rest]);
    by rewrite ?str_app_assoc in *.
Qed.

Lemma matchesPattern_prefix (n prefix : string) :
  startsWith (prefix +:+ "*") "~/" = false ->
  endsWith prefix "/" = false ->
  matchesPattern join_home n (prefix +:+ "*") = true <-> exists rest, n = prefix +:+ rest.
Proof.
  intros Hhome Hslash. unfold matchesPattern. rewrite (not_home _ Hhome).
  rewrite strip_star, ends_slash_star, Hslash.
  assert (endsWith (prefix +:+ "*") "*" = true) as ->
    by (apply endsWith_app; by exists prefix).
  change 1%nat with (String.length "*"). rewrite drop_end_app.
  apply startsWith_app.
Qed.

Lemma matchesPattern_exact (n p : string) :
  startsWith p "~/" = false ->
  endsWith (stripTrailingSlashes p) "*" = false ->
  matchesPattern join_home n p = true <-> n = stripTrailingSlashes p.
Proof.
  intros Hhome Hstar. unfold matchesPattern. rewrite (not_home _ Hhome).
  assert (endsWith (stripTrailingSlashes p) "/*" = false) as ->.
  { destruct (endsWith (stripTrailingSlashes p) "/*") eqn:H; [|done].
    apply endsWith_app in H as [pre H].
    assert (endsWith (stripTrailingSlashes p) "*" = true); [|congruence].
    apply endsWith_app. exists (pre +:+ "/"). by rewrite H, str_app_assoc. }
  rewrite Hstar. apply String.eqb_eq.
Qed.

Lemma matchesPattern_self (p : string) :
  startsWith p "~/" = false ->
  matchesPattern join_home (stripTrailingSlashes p) p = true.
Proof.
  intros Hhome. unfold matchesPattern. rewrite (not_home _ Hhome).
  set (e := stripTrailingSlashes p).
  destruct (endsWith e "/*") eqn:H2.
  - apply endsWith_app in H2 as [base He]. rewrite He.
    change 2%nat with (String.length "/*"). rewrite drop_end_app.
    apply orb_true_iff. right. apply startsWith_app. exists "*".
    by rewrite str_app_assoc.
  - destruct (endsWith e "*") eqn:H1.
    + apply endsWith_app in H1 as [prefix He]. rewrite He.
      change 1%nat with (String.length "*"). rewrite drop_end_app.
      apply startsWith_app. by exists "*".
    + apply String.eqb_refl.
Qed.

End AutoRegister.

(** X16. [matchesAutoRegisterPath] is false for an empty list and true
    as soon as one pattern of the list matches; trailing slashes of the
    working directory do not matter.  For patterns that do not start with
    [~/]: a pattern without a star at its end matches the directory equal to
    it (trailing slashes of the pattern apart); [base/*] matches [base] and
    everything below [base/], so not [base-other]; [prefix*] matches every
    directory that starts with [prefix]; and every such pattern matches
    itself. *)
Theorem matchesAutoRegisterPath_spec (join_home : string -> string)
    (cwd : string) (paths : list string) :
  let matches := matchesAutoRegisterPath join_home in
  matches cwd [] = false
  /\ matches (cwd +:+ "/") paths = matches cwd paths
  /\ (forall p, p ∈ paths -> matches cwd [p] = true -> matches cwd paths = true)
  /\ (forall p, startsWith p "~/" = false ->
        endsWith (stripTrailingSlashes p) "*" = false ->
        (matches cwd [p] = true <-> stripTrailingSlashes cwd = stripTrailingSlashes p))
  /\ (forall base, startsWith (base +:+ "/*") "~/" = false ->
        (matches cwd [base +:+ "/*"] = true <->
         stripTrailingSlashes cwd = base
         \/ exists rest, stripTrailingSlashes cwd = base +:+ "/" +:+ rest))
  /\ (forall prefix, startsWith (prefix +:+ "*") "~/" = false ->
        endsWith prefix "/" = false ->
        (matches cwd [prefix +:+ "*"] = true <->
         exists rest, stripTrailingSlashes cwd = prefix +:+ rest))
  /\ (forall p, startsWith p "~/" = false -> p ∈ paths -> matches p paths = true).
Proof.
  cbv zeta. unfold matchesAutoRegisterPath.
  split; [done|]. split; [by rewrite strip_app_slash|].
  split; [|split; [|split; [|split]]].
  - intros p Hp. cbn [existsb]. rewrite orb_false_r. intros Hm.
    apply existsb_exists. exists p. split; [by apply list_elem_of_In|done].
  - intros p Hhome Hstar. cbn [existsb]. rewrite orb_false_r.
    by apply matchesPattern_exact.
  - intros base Hhome. cbn [existsb]. rewrite orb_false_r.
    by apply matchesPattern_below.
  - intros prefix Hhome Hslash. cbn [existsb]. rewrite orb_false_r.
    by apply matchesPattern_prefix.
  - intros p Hhome Hp. apply existsb_exists. exists p.
    split; [by apply list_elem_of_In|]. by apply matchesPattern_self.
Qed.

Lemma matchesAutoRegisterPath_spec_witness :
  let matches := matchesAutoRegisterPath (fun rest => "/home/user/" +:+ rest) in
  matches "/home/user/projects/foo/bar" ["/home/user/projects/*"] = true
  /\ matches "/home/user/project-a/" ["/b"; "/home/user/project*"] = true.
Proof.
  cbv zeta. split.
  - destruct (matchesAutoRegisterPath_spec (fun rest => "/home/user/" +:+ rest)
                "/home/user/projects/foo/bar" []) as (_ & _ & _ & _ & H & _).
    apply (H "/home/user/projects"); [reflexivity|].
    right. by exists "foo/bar".
  - destruct (matchesAutoRegisterPath_spec (fun rest => "/home/user/" +:+ rest)
                "/home/user/project-a/" ["/b"; "/home/user/project*"])
      as (_ & _ & Hany & _ & _ & H & _).
    apply (Hany "/home/user/project*").
    + apply elem_of_cons. right. apply elem_of_cons. by left.
    + apply (H "/home/user/project"); [reflexivity|reflexivity|]. by exists "-a".
Defined.

End ConfigFacts.


(** ** tracking.ts: [shortenPath] *)

Module ShortenFacts.
Import Js JsText TrackingOps JsFacts JsTextFacts.
#[local] Arguments String.append !s1 s2 : simpl nomatch.

Lemma split_nonempty (sep : ascii) (s : string) : split sep s <> [].
Proof.
  destruct s as [|c s]; [done|]. simpl.
  destruct (Ascii.eqb c sep); [done|]. by destruct (split sep s).
Qed.

Lemma join_cons (sep p : string) (rest : list string) :
  rest <> [] -> join sep (p :: rest) = p +:+ sep +:+ join sep rest.
Proof. by destruct rest. Qed.

Lemma join_split (sep : ascii) (s : string) :
  join (String sep EmptyString) (split sep s) = s.
Proof.
  induction s as [|c s IH]; [done|]. simpl.
  destruct (Ascii.eqb_spec c sep) as [->|Hne].
  - rewrite join_cons by apply split_nonempty. by rewrite IH.
  - pose proof (split_nonempty sep s) as Hs.
    destruct (split sep s) as [|part rest]; [done|].
    destruct rest as [|q rest].
    + simpl in *. by rewrite IH.
    + rewrite join_cons in * by done. rewrite str_app_cons. by rewrite IH.
Qed.

Lemma split_parts (sep : ascii) (s : string) :
  Forall (fun part => no_sep sep part = true) (split sep s).
Proof.
  induction s as [|c s IH]; [by repeat constructor|]. simpl.
  destruct (Ascii.eqb_spec c sep) as [->|Hne].
  - by constructor.
  - pose proof (split_nonempty sep s) as Hsome.
    destruct (split sep s) as [|part rest]; [done|].
    apply Forall_cons in IH as [Hp Hrest]. constructor; [|done].
    unfold no_sep in *. simpl. rewrite Hp.
    by destruct (Ascii.eqb_spec c sep).
Qed.

Lemma split_single (sep : ascii) (part : string) :
  no_sep sep part = true -> split sep part = [part].
Proof.
  unfold no_sep. induction part as [|c part IH]; [done|]. simpl.
  intros [Hc Hp]%andb_true_iff. apply negb_true_iff in Hc. rewrite Hc.
  by rewrite (IH Hp).
Qed.

Lemma split_app (sep : ascii) (part rest : string) :
  no_sep sep part = true ->
  split sep (part +:+ String sep rest) = part :: split sep rest.
Proof.
  unfold no_sep. induction part as [|c part IH].
  - intros _. simpl. by rewrite Ascii.eqb_refl.
  - simpl all_chars. intros [Hc Hp]%andb_true_iff. apply negb_true_iff in Hc.
    rewrite str_app_cons. simpl. by rewrite Hc, (IH Hp).
Qed.

Lemma split_join (sep : ascii) (parts : list string) :
  parts <> [] ->
  Forall (fun part => no_sep sep part = true) parts ->
  split sep (join (String sep EmptyString) parts) = parts.
Proof.
  induction parts as [|p parts IH]; [done|]. intros _ [Hp Hparts]%Forall_cons.
  destruct parts as [|q parts].
  - by apply split_single.
  - rewrite join_cons by done. rewrite str_app_cons.
    change (EmptyString +:+ join (String sep EmptyString) (q :: parts))
      with (join (String sep EmptyString) (q :: parts)).
    rewrite split_app by done. by rewrite IH.
Qed.

Lemma join_app (sep : string) (l1 l2 : list string) :
  l1 <> [] -> l2 <> [] ->
  join sep (l1 ++ l2) = join sep l1 +:+ sep +:+ join sep l2.
Proof.
  intros H1 H2. induction l1 as [|p l1 IH]; [done|].
  destruct l1 as [|q l1].
  - cbn [app]. by rewrite join_cons.
  - cbn [app] in *. rewrite join_cons by done. rewrite IH by done.
    rewrite (join_cons sep p (q :: l1)) by done. by rewrite !str_app_assoc.
Qed.

Lemma slice_last_two {A} (xs : list A) :
  Feed.slice_from (-2) xs = drop (length xs - 2) xs.
Proof.
  unfold Feed.slice_from. cbn. f_equal. lia.
Qed.

Lemma last_drop_lt {A} (k : nat) (xs : list A) :
  (k < length xs)%nat -> last (drop k xs) = last xs.
Proof.
  revert xs. induction k as [|k IH]; intros xs Hk; [done|].
  destruct xs as [|x xs]; [cbn in Hk; lia|]. cbn [drop].
  rewrite IH by (cbn in Hk; lia). destruct xs; [cbn in Hk; lia|done].
Qed.

(** X17. [shortenPath] returns an end of the path: a path with at most
    one slash as it is, and of a longer path the last two components.  So
    the result has at most one slash, keeps the last component of the path,
    and shortening it again changes nothing. *)
Theorem shortenPath_spec (filePath : string) :
  let parts := split "/" filePath in
  endsWith filePath (shortenPath filePath) = true
  /\ split "/" (shortenPath filePath) = drop (length parts - 2) parts
  /\ (length (split "/" (shortenPath filePath)) <= 2)%nat
  /\ last (split "/" (shortenPath filePath)) = last parts
  /\ shortenPath (shortenPath filePath) = shortenPath filePath
  /\ ((length parts <= 2)%nat -> shortenPath filePath = filePath).
Proof.
  cbv zeta.
  assert (split "/" (shortenPath filePath)
          = drop (length (split "/" filePath) - 2) (split "/" filePath)) as Hsplit.
  { unfold shortenPath.
    destruct (Nat.ltb_spec 2 (length (split "/" filePath))) as [Hlong|Hshort].
    - rewrite slice_last_two. apply split_join.
      + intros Hnil%(f_equal length). rewrite length_drop in Hnil. cbn in Hnil. lia.
      + apply Forall_drop, split_parts.
    - by replace (length (split "/" filePath) - 2)%nat with 0%nat by lia. }
  assert (length (split "/" (shortenPath filePath)) <= 2)%nat as Hlen.
  { rewrite Hsplit, length_drop. lia. }
  split; [|split; [done|split; [done|split; [|split]]]].
  - unfold shortenPath.
    destruct (Nat.ltb_spec 2 (length (split "/" filePath))) as [Hlong|Hshort].
    + rewrite slice_last_two. apply endsWith_app.
      exists (join "/" (take (length (split "/" filePath) - 2) (split "/" filePath)) +:+ "/").
      rewrite <- (join_split "/" filePath) at 1.
      rewrite <- (take_drop (length (split "/" filePath) - 2) (split "/" filePath)) at 1.
      rewrite join_app.
      * by rewrite !str_app_assoc.
      * intros Hnil%(f_equal length). rewrite length_take in Hnil. cbn in Hnil. lia.
      * intros Hnil%(f_equal length). rewrite length_drop in Hnil. cbn in Hnil. lia.
    + apply endsWith_app. by exists EmptyString.
  - rewrite Hsplit. apply last_drop_lt.
    pose proof (split_nonempty "/" filePath) as Hne.
    destruct (split "/" filePath); [done|]. cbn [length]. lia.
  - unfold shortenPath at 1.
    destruct (Nat.ltb_spec 2 (length (split "/" (shortenPath filePath)))); [lia|done].
  - intros Hshort. unfold shortenPath.
    by destruct (Nat.ltb_spec 2 (length (split "/" filePath))); [lia|].
Qed.

Lemma shortenPath_spec_witness :
  shortenPath "src/auth/login.ts" = "auth/login.ts" /\ shortenPath "a/b" = "a/b".
Proof.
  split; [reflexivity|].
  apply (shortenPath_spec "a/b"). vm_compute. lia.
Defined.

End ShortenFacts.


(** ** The feed as a log of events *)

Module FeedTextFacts.
Import Js JsText Types Sys Feed Json FeedText JsFacts JsonFacts FeedFacts ShortenFacts.
#[local] Arguments String.append !s1 s2 : simpl nomatch.

Lemma split_lines_split (s : string) : split_lines s = JsText.split char_newline s.
Proof. induction s as [|c s IH]; [done|]. simpl. by rewrite IH. Qed.

Lemma join_lines_join (lines : list string) : join_lines lines = JsText.join newline lines.
Proof.
  induction lines as [|l lines IH]; [done|]. destruct lines as [|l' lines]; [done|].
  change (join_lines (l :: l' :: lines)) with (l +:+ newline +:+ join_lines (l' :: lines)).
  by rewrite IH.
Qed.

Lemma single_line_no_sep (s : string) : single_line s = no_sep char_newline s.
Proof. reflexivity. Qed.

Lemma split_join_lines (lines : list string) :
  lines <> [] -> Forall (fun l => single_line l = true) lines ->
  split_lines (join_lines lines) = lines.
Proof.
  intros Hne Hall. rewrite split_lines_split, join_lines_join.
  by apply split_join.
Qed.

Lemma lines_text_join (e : FeedEvent) (events : list FeedEvent) :
  lines_text (e :: events)
  = join_lines (JSON_stringify <$> (e :: events)) +:+ newline.
Proof.
  revert e. induction events as [|e' events IH]; intros e.
  - cbn. by rewrite str_app_nil_r.
  - change (lines_text (e :: e' :: events))
      with (JSON_stringify e +:+ newline +:+ lines_text (e' :: events)).
    rewrite IH. cbn [fmap list_fmap].
    change (join_lines (JSON_stringify e :: JSON_stringify e' :: (JSON_stringify <$> events)))
      with (JSON_stringify e +:+ newline
            +:+ join_lines (JSON_stringify e' :: (JSON_stringify <$> events))).
    by rewrite !str_app_assoc.
Qed.

(** The joined lines of a feed begin and end with a brace. *)
Lemma join_braces (e : FeedEvent) (events : list FeedEvent) :
  exists body, join_lines (JSON_stringify <$> (e :: events)) = String "{" (body +:+ "}").
Proof.
  revert e. induction events as [|e' events IH]; intros e.
  - apply stringify_braces.
  - destruct (IH e') as [body' Hb']. destruct (stringify_braces e) as [body Hb].
    cbn [fmap list_fmap] in *.
    change (join_lines (JSON_stringify e :: JSON_stringify e' :: (JSON_stringify <$> events)))
      with (JSON_stringify e +:+ newline
            +:+ join_lines (JSON_stringify e' :: (JSON_stringify <$> events))).
    rewrite Hb', Hb. exists (body +:+ "}" +:+ newline +:+ String "{" body').
    by rewrite str_app_cons, !str_app_assoc.
Qed.

Lemma trim_lines_text (e : FeedEvent) (events : list FeedEvent) :
  trim (lines_text (e :: events)) = join_lines (JSON_stringify <$> (e :: events)).
Proof.
  rewrite lines_text_join. destruct (join_braces e events) as [body ->].
  unfold trim. rewrite str_app_cons.
  change (trimStart (String "{" ((body +:+ "}") +:+ newline)))
    with (String "{" ((body +:+ "}") +:+ newline)).
  rewrite str_app_assoc.
  apply (trimEnd_last (String "{" body) "}" eq_refl).
Qed.

Lemma lines_of_text (e : FeedEvent) (events : list FeedEvent) :
  split_lines (trim (lines_text (e :: events))) = JSON_stringify <$> (e :: events).
Proof.
  rewrite trim_lines_text. apply split_join_lines; [done|].
  apply Forall_fmap, Forall_forall. intros x _. apply stringify_single_line.
Qed.

Lemma parse_lines (events : list FeedEvent) :
  omap Json.parse (JSON_stringify <$> events) = of_event <$> events.
Proof.
  induction events as [|e events IH]; [done|].
  rewrite !fmap_cons. cbn [omap list_omap]. rewrite parse_stringify.
  fold (omap Json.parse (JSON_stringify <$> events)). by rewrite IH.
Qed.

Lemma append_lines_text (events : list FeedEvent) (d : Disk) :
  feed_file (append_lines events d)
  = match events with
    | [] => feed_file d
    | _ => Some (default EmptyString (feed_file d) +:+ lines_text events)
    end.
Proof.
  revert d. induction events as [|e events IH]; intros d; [done|].
  rewrite ShutdownFacts.append_lines_cons, IH.
  destruct events as [|e' events].
  - cbn. by rewrite str_app_nil_r, !str_app_assoc.
  - cbn [append_line with_feed feed_file default from_option id].
    change (lines_text (e :: e' :: events))
      with (JSON_stringify e +:+ newline +:+ lines_text (e' :: events)).
    unfold Datatypes.id. by rewrite !str_app_assoc.
Qed.

Lemma appendAll_run (events : list FeedEvent) (s : Sys) :
  forEach events appendEvent s
  = (tt, emits (FeedAppended <$> events) (with_disk (append_lines events) s)).
Proof.
  revert s. induction events as [|e events IH]; intros s.
  - cbn. by destruct s as [? ? ? ? ? ? ? ? ? ?]; rewrite ?app_nil_r;
      unfold emits; cbn; rewrite app_nil_r.
  - cbn [forEach]. unfold bind. cbn [appendEvent modify]. rewrite IH.
    f_equal. destruct s. unfold emits, emit, emits, with_disk. cbn.
    by rewrite <- app_assoc.
Qed.

Lemma slice_from_fmap {A B} (f : A -> B) (k : Z) (xs : list A) :
  slice_from k (f <$> xs) = f <$> slice_from k xs.
Proof. unfold slice_from. by rewrite length_fmap, fmap_drop. Qed.


Lemma disk_eq (d d' : Disk) :
  registry_dir d = registry_dir d' -> inbox_dir d = inbox_dir d' ->
  feed_file d = feed_file d' -> d = d'.
Proof. destruct d, d'. cbn. by intros -> -> ->. Qed.

Lemma append_lines_inbox (events : list FeedEvent) (d : Disk) :
  inbox_dir (append_lines events d) = inbox_dir d.
Proof.
  revert d. induction events as [|e events IH]; intros d; [done|].
  rewrite ShutdownFacts.append_lines_cons, IH. by destruct d.
Qed.

Lemma blank_text (d : Disk) : blank d -> default EmptyString (feed_file d) = EmptyString.
Proof. by intros [-> | ->]. Qed.

Lemma feed_of_events (e : FeedEvent) (events : list FeedEvent) (d : Disk) :
  blank d -> feed_file (append_lines (e :: events) d) = Some (lines_text (e :: events)).
Proof. intros Hd. by rewrite append_lines_text, (blank_text d Hd). Qed.

Lemma join_not_empty (e : FeedEvent) (events : list FeedEvent) :
  String.eqb (join_lines (JSON_stringify <$> (e :: events))) EmptyString = false.
Proof. by destruct (join_braces e events) as [body ->]. Qed.

Lemma slice_from_nil {A} (start : Z) : slice_from start (@nil A) = [].
Proof. unfold slice_from. apply drop_nil. Qed.

(** What [readEvents] makes of a feed that holds the lines of [events]
    and nothing else. *)
Lemma read_clean (events : list FeedEvent) (limit : Z) (d : Disk) :
  blank d ->
  readEvents Json.Value Json.parse limit (append_lines events d)
  = of_event <$> slice_from (- limit) events.
Proof.
  intros Hd. unfold readEvents. destruct events as [|e events].
  - cbn [append_lines foldl]. rewrite slice_from_nil.
    by destruct Hd as [-> | ->].
  - rewrite (feed_of_events e events d Hd), trim_lines_text, join_not_empty.
    rewrite <- trim_lines_text, lines_of_text, parse_lines.
    apply slice_from_fmap.
Qed.

Lemma slice_from_last {A} (limit : Z) (xs : list A) :
  1 <= limit -> slice_from (- limit) xs = drop (length xs - Z.to_nat limit) xs.
Proof.
  intros Hl. unfold slice_from.
  destruct (Z.ltb_spec (- limit) 0) as [_|?]; [|lia]. f_equal. lia.
Qed.

Lemma slice_from_all {A} (limit : Z) (xs : list A) :
  limit = 0 \/ Z.of_nat (length xs) <= limit -> slice_from (- limit) xs = xs.
Proof.
  intros Hl. unfold slice_from.
  destruct (Z.ltb_spec (- limit) 0) as [?|?].
  - replace (Z.to_nat _) with 0%nat by lia. done.
  - replace (Z.to_nat _) with 0%nat by lia. done.
Qed.

(** X18. After the events of a list are appended by [appendEvent], in
    order, to a feed that is missing or empty, [readEvents] returns them as
    they were written, in order: the last [limit] of them for a limit of at
    least one, all of them when the limit is at least their number, and also
    all of them for the limit 0 (the code takes [slice(-0)], which is the
    whole array). *)
Theorem feed_reads_back (events : list FeedEvent) (limit : Z) (s : Sys) :
  blank (disk s) ->
  let s' := (forEach events appendEvent s).2 in
  let read := readEvents Json.Value Json.parse limit (disk s') in
  read = of_event <$> slice_from (- limit) events
  /\ (1 <= limit ->
        read = of_event <$> drop (length events - Z.to_nat limit) events)
  /\ (limit = 0 \/ Z.of_nat (length events) <= limit -> read = of_event <$> events)
  /\ trace s' = trace s ++ (FeedAppended <$> events)
  /\ state s' = state s.
Proof.
  intros Hblank. cbv zeta. rewrite appendAll_run. cbn [snd].
  replace (disk (emits (FeedAppended <$> events) (with_disk (append_lines events) s)))
    with (append_lines events (disk s)) by (by destruct s).
  rewrite (read_clean events limit (disk s) Hblank).
  split; [done|]. split; [|split; [|split]].
  - intros Hl. by rewrite slice_from_last.
  - intros Hl. by rewrite slice_from_all.
  - by destruct s.
  - by destruct s.
Qed.

Lemma feed_reads_back_witness :
  readEvents Json.Value Json.parse 1
    (disk (forEach [Scenario.reserve_event; Scenario.join_event] appendEvent
             Scenario.fresh).2)
  = [of_event Scenario.join_event].
Proof.
  destruct (feed_reads_back [Scenario.reserve_event; Scenario.join_event] 1
              Scenario.fresh) as (_ & H & _).
  - by left.
  - rewrite H by lia. reflexivity.
Defined.

(** What [pruneFeed] leaves of such a feed. *)
Lemma prune_clean (events : list FeedEvent) (maxEvents : Z) (d : Disk) (s : Sys) :
  blank d -> 0 <= maxEvents ->
  disk s = append_lines events d ->
  disk (pruneFeed maxEvents s).2
  = append_lines (slice_from (- maxEvents) events) d.
Proof.
  intros Hd Hmax Hs. unfold pruneFeed, modify. cbn [snd].
  destruct s as [st c b p pe t1 t2 t3 dk tr]. cbn [with_disk disk] in *. subst dk.
  destruct events as [|e events].
  - rewrite slice_from_nil. cbn [append_lines foldl]. by destruct Hd as [-> | ->].
  - rewrite (feed_of_events e events d Hd), trim_lines_text, join_not_empty.
    rewrite <- trim_lines_text, lines_of_text, length_fmap.
    destruct (Z.leb_spec (Z.of_nat (length (e :: events))) maxEvents) as [Hfew|Hmany].
    + by rewrite slice_from_all by (by right).
    + rewrite slice_from_fmap.
      assert (slice_from (- maxEvents) (e :: events) <> []) as Hkept.
      { unfold slice_from. intros Hnil%(f_equal length). rewrite length_drop in Hnil.
        cbn [length] in *. destruct (Z.ltb_spec (- maxEvents) 0); lia. }
      destruct (slice_from (- maxEvents) (e :: events)) as [|k kept] eqn:Hk; [done|].
      rewrite <- lines_text_join. apply disk_eq.
      * etrans; [|symmetry; apply ShutdownFacts.append_lines_registry].
        etrans; [|apply (ShutdownFacts.append_lines_registry (e :: events))].
        by destruct (append_lines (e :: events) d).
      * etrans; [|symmetry; apply append_lines_inbox].
        etrans; [|apply (append_lines_inbox (e :: events))].
        by destruct (append_lines (e :: events) d).
      * rewrite (feed_of_events k kept d Hd).
        by destruct (append_lines (e :: events) d).
Qed.

(** X19. [pruneFeed] on a feed written by [appendEvent] keeps the latest
    [maxEvents] events and drops the older ones: the disk is the one that
    appending only the kept events would have given, so [readEvents] then
    returns the last [limit] of the kept events.  With [maxEvents = 0] the
    code slices from [-0] and nothing is dropped.  Session and trace are
    left as they were. *)
Theorem pruneFeed_keeps_latest (events : list FeedEvent) (maxEvents limit : Z)
    (s : Sys) :
  blank (disk s) -> 0 <= maxEvents ->
  let s1 := (forEach events appendEvent s).2 in
  let s2 := (pruneFeed maxEvents s1).2 in
  let kept := slice_from (- maxEvents) events in
  disk s2 = append_lines kept (disk s)
  /\ readEvents Json.Value Json.parse limit (disk s2)
     = of_event <$> slice_from (- limit) kept
  /\ (1 <= maxEvents ->
        kept = drop (length events - Z.to_nat maxEvents) events)
  /\ (maxEvents = 0 -> kept = events)
  /\ state s2 = state s1 /\ trace s2 = trace s1.
Proof.
  intros Hblank Hmax. cbv zeta.
  assert (disk (forEach events appendEvent s).2 = append_lines events (disk s)) as Hs1.
  { rewrite appendAll_run. by destruct s. }
  pose proof (prune_clean events maxEvents (disk s) _ Hblank Hmax Hs1) as Hp.
  split; [done|]. rewrite Hp. split; [by apply read_clean|].
  split; [intros; by apply slice_from_last|].
  split; [intros; apply slice_from_all; by left|].
  unfold pruneFeed, modify. cbn [snd].
  by destruct (forEach events appendEvent s).2.
Qed.

Lemma pruneFeed_keeps_latest_witness :
  readEvents Json.Value Json.parse 20
    (disk (pruneFeed 1
             (forEach [Scenario.reserve_event; Scenario.join_event] appendEvent
                Scenario.fresh).2).2)
  = [of_event Scenario.join_event].
Proof.
  destruct (pruneFeed_keeps_latest [Scenario.reserve_event; Scenario.join_event] 1 20
              Scenario.fresh) as (_ & H & _).
  - by left.
  - lia.
  - rewrite H. reflexivity.
Defined.

End FeedTextFacts.
